(** * AxiDraw motion core: a shallow embedding of [axidraw.py]

    The development follows the source file [inkscape driver/axidraw.py]:
    the CoreXY step mapping, the trajectory planner [plan_trajectory], the
    segment executor [plot_seg_with_v], the pause/resume check
    [pause_res_check] and the checkpoint reader [read_plotdata].

    Python floats are idealised as real numbers ([R]); Python integers are
    [Z].  Operations that can raise in Python return a [result]; the two
    [while] loops of the executor run on fuel. *)

From stdpp Require Import base decidable option list gmap strings.
From Stdlib Require Import Ascii ZArith QArith Qabs Reals Lra Lia DecimalString DecimalZ.

(** ** Python primitives *)

Module Py.

Inductive exn : Set :=
| ZeroDivisionError
| ValueError
| TypeError
| IndexError
| OverflowError.

(** Outcome of running Python code: a value, a raised exception, or a
    loop that used up its fuel. *)
Inductive result (A : Type) : Type :=
| Ok (a : A)
| Raise (e : exn)
| OutOfFuel.

Arguments Ok {A} a.
Arguments Raise {A} e.
Arguments OutOfFuel {A}.

Definition bind {A B : Type} (m : result A) (k : A -> result B) : result B :=
  match m with
  | Ok a => k a
  | Raise e => Raise e
  | OutOfFuel => OutOfFuel
  end.

#[global] Instance result_ret : MRet result := fun A a => Ok a.
#[global] Instance result_bind : MBind result := fun A B k m => bind m k.

#[global] Instance Rlt_decision : RelDecision Rlt := Rlt_dec.
#[global] Instance Rle_decision : RelDecision Rle := Rle_dec.
#[global] Instance Rgt_decision : RelDecision Rgt := Rgt_dec.
#[global] Instance Rge_decision : RelDecision Rge := Rge_dec.
#[global] Instance Req_decision : EqDecision R := Req_dec_T.

Local Open Scope R_scope.

(** [a / b] on floats. *)
Definition div (a b : R) : result R :=
  if decide (b = 0) then Raise ZeroDivisionError else Ok (a / b).

(** [math.sqrt]. *)
Definition sqrt (x : R) : result R :=
  if decide (x < 0) then Raise ValueError else Ok (R_sqrt.sqrt x).

(** [int(math.floor(x))]. *)
Definition floor (x : R) : Z := Zfloor x.

(** [int(round(x))]: Python 3 rounds to the nearest integer, ties to the
    even neighbour. *)
Definition round (x : R) : Z :=
  let f := Zfloor x in
  let r := x - IZR f in
  if decide (r < 1 / 2) then f
  else if decide (1 / 2 < r) then (f + 1)%Z
  else if Z.even f then f else (f + 1)%Z.

(** [min(a, b)]: returns [b] only when [b < a]. *)
Definition min (a b : R) : R := if decide (b < a) then b else a.

(** [l[i]] for an index that is not negative. *)
Definition index {A : Type} (l : list A) (i : nat) : result A :=
  match l !! i with
  | Some a => Ok a
  | None => Raise IndexError
  end.

(** [array('I').append] and [array('i').append] accept 32-bit values only. *)
Definition array_I (z : Z) : result Z :=
  if decide (0 <= z < 2 ^ 32)%Z then Ok z else Raise OverflowError.

Definition array_i (z : Z) : result Z :=
  if decide (- 2 ^ 31 <= z < 2 ^ 31)%Z then Ok z else Raise OverflowError.

End Py.

Import Py.

(** ** Units and kinematics (plot_seg_with_v, lines 1658-1670) *)

Module Kinematics.

Local Open Scope R_scope.

(** Rounded motor-step totals of a Cartesian delta. *)
Definition motor_steps1 (step_scale delta_x delta_y : R) : Z :=
  let motor_dist1 := delta_x + delta_y in
  Py.round (step_scale * motor_dist1).

Definition motor_steps2 (step_scale delta_x delta_y : R) : Z :=
  let motor_dist2 := delta_x - delta_y in
  Py.round (step_scale * motor_dist2).

(** The distance actually moved, recomputed from the rounded steps. *)
Definition delta_rounded (step_scale : R) (steps1 steps2 : Z) : result (R * R) :=
  motor_dist1_rounded ← Py.div (IZR steps1) (2 * step_scale);
  motor_dist2_rounded ← Py.div (IZR steps2) (2 * step_scale);
  Ok (motor_dist1_rounded + motor_dist2_rounded,
      motor_dist1_rounded - motor_dist2_rounded).

End Kinematics.

(** ** The driver object *)

Module Model.

(** Constants of the configuration file [axidraw_conf], which the driver
    reads through [self.params]. *)
Module Params.
Record t : Type := {
  accel_rate : R;          (* pen-down acceleration, in/s^2 *)
  accel_rate_pu : R;       (* pen-up acceleration *)
  time_slice : R;          (* interval length, s *)
  max_step_rate : Q;       (* steps per ms *)
  bounds_tolerance : R;
  cornering : R;
  max_step_dist_hr : R;
  max_step_dist_lr : R
}.
End Params.

(** The fields of [self.options] that the motion core reads. *)
Module Options.
Record t : Type := {
  preview : bool;
  const_speed : bool;
  accel : R;
  resolution : Z;
  mode : string
}.
End Options.

(** Attributes of [self] that stay fixed while one polyline is plotted. *)
Module Setup.
Record t : Type := {
  speed_pendown : R;
  speed_penup : R;
  step_scale : R;
  x_bounds_min : R;
  x_bounds_max : R;
  y_bounds_min : R;
  y_bounds_max : R;
  x_max_phy : R;
  y_max_phy : R;
  pt_first : R * R;
  node_target : Z;
  pathcount : Z;
  Secondary : bool;
  port : bool;                   (* plot_status.port is not None *)
  delay_between_copies : bool    (* plot_status.delay_between_copies *)
}.
End Setup.

(** One call of [ebb_motion.doXYMove(port, steps2, steps1, duration)]. *)
Record XYMove : Type := {
  move_steps2 : Z;
  move_steps1 : Z;
  move_time : Z
}.

(** Attributes of [self], [self.plot_status] and [self.pen.status] that the
    motion core writes.  [stopped] is 0 while running, negative while a
    pause is being processed and positive once stopped; [moves] lists the
    timed XY moves sent to the controller, oldest first. *)
Record State : Type := {
  stopped : Z;
  resume_mode : bool;
  copies_to_plot : Z;
  pt_estimate : Z;
  pen_up : bool;
  virtual_pen_up : bool;
  f_curr_x : option R;
  f_curr_y : R;
  svg_last_known_pos_x : R;
  svg_last_known_pos_y : R;
  node_count : Z;
  svg_node_count : Z;
  svg_paused_x : R;
  svg_paused_y : R;
  svg_last_path : Z;
  svg_last_path_nc : Z;
  warnings : gset string;
  connected : bool;
  moves : list XYMove
}.

Definition set_stopped (v : Z) (st : State) : State :=
  {| stopped := v; resume_mode := resume_mode st; copies_to_plot := copies_to_plot st;
     pt_estimate := pt_estimate st; pen_up := pen_up st; virtual_pen_up := virtual_pen_up st;
     f_curr_x := f_curr_x st; f_curr_y := f_curr_y st;
     svg_last_known_pos_x := svg_last_known_pos_x st;
     svg_last_known_pos_y := svg_last_known_pos_y st; node_count := node_count st;
     svg_node_count := svg_node_count st; svg_paused_x := svg_paused_x st;
     svg_paused_y := svg_paused_y st; svg_last_path := svg_last_path st;
     svg_last_path_nc := svg_last_path_nc st; warnings := warnings st;
     connected := connected st; moves := moves st |}.

Definition set_resume_mode (v : bool) (st : State) : State :=
  {| stopped := stopped st; resume_mode := v; copies_to_plot := copies_to_plot st;
     pt_estimate := pt_estimate st; pen_up := pen_up st; virtual_pen_up := virtual_pen_up st;
     f_curr_x := f_curr_x st; f_curr_y := f_curr_y st;
     svg_last_known_pos_x := svg_last_known_pos_x st;
     svg_last_known_pos_y := svg_last_known_pos_y st; node_count := node_count st;
     svg_node_count := svg_node_count st; svg_paused_x := svg_paused_x st;
     svg_paused_y := svg_paused_y st; svg_last_path := svg_last_path st;
     svg_last_path_nc := svg_last_path_nc st; warnings := warnings st;
     connected := connected st; moves := moves st |}.

Definition set_copies_to_plot (v : Z) (st : State) : State :=
  {| stopped := stopped st; resume_mode := resume_mode st; copies_to_plot := v;
     pt_estimate := pt_estimate st; pen_up := pen_up st; virtual_pen_up := virtual_pen_up st;
     f_curr_x := f_curr_x st; f_curr_y := f_curr_y st;
     svg_last_known_pos_x := svg_last_known_pos_x st;
     svg_last_known_pos_y := svg_last_known_pos_y st; node_count := node_count st;
     svg_node_count := svg_node_count st; svg_paused_x := svg_paused_x st;
     svg_paused_y := svg_paused_y st; svg_last_path := svg_last_path st;
     svg_last_path_nc := svg_last_path_nc st; warnings := warnings st;
     connected := connected st; moves := moves st |}.

Definition set_pt_estimate (v : Z) (st : State) : State :=
  {| stopped := stopped st; resume_mode := resume_mode st; copies_to_plot := copies_to_plot st;
     pt_estimate := v; pen_up := pen_up st; virtual_pen_up := virtual_pen_up st;
     f_curr_x := f_curr_x st; f_curr_y := f_curr_y st;
     svg_last_known_pos_x := svg_last_known_pos_x st;
     svg_last_known_pos_y := svg_last_known_pos_y st; node_count := node_count st;
     svg_node_count := svg_node_count st; svg_paused_x := svg_paused_x st;
     svg_paused_y := svg_paused_y st; svg_last_path := svg_last_path st;
     svg_last_path_nc := svg_last_path_nc st; warnings := warnings st;
     connected := connected st; moves := moves st |}.

Definition set_pen_up (v : bool) (st : State) : State :=
  {| stopped := stopped st; resume_mode := resume_mode st; copies_to_plot := copies_to_plot st;
     pt_estimate := pt_estimate st; pen_up := v; virtual_pen_up := virtual_pen_up st;
     f_curr_x := f_curr_x st; f_curr_y := f_curr_y st;
     svg_last_known_pos_x := svg_last_known_pos_x st;
     svg_last_known_pos_y := svg_last_known_pos_y st; node_count := node_count st;
     svg_node_count := svg_node_count st; svg_paused_x := svg_paused_x st;
     svg_paused_y := svg_paused_y st; svg_last_path := svg_last_path st;
     svg_last_path_nc := svg_last_path_nc st; warnings := warnings st;
     connected := connected st; moves := moves st |}.

Definition set_virtual_pen_up (v : bool) (st : State) : State :=
  {| stopped := stopped st; resume_mode := resume_mode st; copies_to_plot := copies_to_plot st;
     pt_estimate := pt_estimate st; pen_up := pen_up st; virtual_pen_up := v;
     f_curr_x := f_curr_x st; f_curr_y := f_curr_y st;
     svg_last_known_pos_x := svg_last_known_pos_x st;
     svg_last_known_pos_y := svg_last_known_pos_y st; node_count := node_count st;
     svg_node_count := svg_node_count st; svg_paused_x := svg_paused_x st;
     svg_paused_y := svg_paused_y st; svg_last_path := svg_last_path st;
     svg_last_path_nc := svg_last_path_nc st; warnings := warnings st;
     connected := connected st; moves := moves st |}.

Definition set_position (x : R) (y : R) (kx : R) (ky : R) (st : State) : State :=
  {| stopped := stopped st; resume_mode := resume_mode st; copies_to_plot := copies_to_plot st;
     pt_estimate := pt_estimate st; pen_up := pen_up st; virtual_pen_up := virtual_pen_up st;
     f_curr_x := Some x; f_curr_y := y; svg_last_known_pos_x := kx; svg_last_known_pos_y := ky;
     node_count := node_count st; svg_node_count := svg_node_count st;
     svg_paused_x := svg_paused_x st; svg_paused_y := svg_paused_y st;
     svg_last_path := svg_last_path st; svg_last_path_nc := svg_last_path_nc st;
     warnings := warnings st; connected := connected st; moves := moves st |}.

Definition set_node_count (v : Z) (st : State) : State :=
  {| stopped := stopped st; resume_mode := resume_mode st; copies_to_plot := copies_to_plot st;
     pt_estimate := pt_estimate st; pen_up := pen_up st; virtual_pen_up := virtual_pen_up st;
     f_curr_x := f_curr_x st; f_curr_y := f_curr_y st;
     svg_last_known_pos_x := svg_last_known_pos_x st;
     svg_last_known_pos_y := svg_last_known_pos_y st; node_count := v;
     svg_node_count := svg_node_count st; svg_paused_x := svg_paused_x st;
     svg_paused_y := svg_paused_y st; svg_last_path := svg_last_path st;
     svg_last_path_nc := svg_last_path_nc st; warnings := warnings st;
     connected := connected st; moves := moves st |}.

Definition set_paused (n : Z) (x : R) (y : R) (st : State) : State :=
  {| stopped := stopped st; resume_mode := resume_mode st; copies_to_plot := copies_to_plot st;
     pt_estimate := pt_estimate st; pen_up := pen_up st; virtual_pen_up := virtual_pen_up st;
     f_curr_x := f_curr_x st; f_curr_y := f_curr_y st;
     svg_last_known_pos_x := svg_last_known_pos_x st;
     svg_last_known_pos_y := svg_last_known_pos_y st; node_count := node_count st;
     svg_node_count := n; svg_paused_x := x; svg_paused_y := y;
     svg_last_path := svg_last_path st; svg_last_path_nc := svg_last_path_nc st;
     warnings := warnings st; connected := connected st; moves := moves st |}.

Definition set_last_path (p : Z) (n : Z) (st : State) : State :=
  {| stopped := stopped st; resume_mode := resume_mode st; copies_to_plot := copies_to_plot st;
     pt_estimate := pt_estimate st; pen_up := pen_up st; virtual_pen_up := virtual_pen_up st;
     f_curr_x := f_curr_x st; f_curr_y := f_curr_y st;
     svg_last_known_pos_x := svg_last_known_pos_x st;
     svg_last_known_pos_y := svg_last_known_pos_y st; node_count := node_count st;
     svg_node_count := svg_node_count st; svg_paused_x := svg_paused_x st;
     svg_paused_y := svg_paused_y st; svg_last_path := p; svg_last_path_nc := n;
     warnings := warnings st; connected := connected st; moves := moves st |}.

Definition set_warnings (v : gset string) (st : State) : State :=
  {| stopped := stopped st; resume_mode := resume_mode st; copies_to_plot := copies_to_plot st;
     pt_estimate := pt_estimate st; pen_up := pen_up st; virtual_pen_up := virtual_pen_up st;
     f_curr_x := f_curr_x st; f_curr_y := f_curr_y st;
     svg_last_known_pos_x := svg_last_known_pos_x st;
     svg_last_known_pos_y := svg_last_known_pos_y st; node_count := node_count st;
     svg_node_count := svg_node_count st; svg_paused_x := svg_paused_x st;
     svg_paused_y := svg_paused_y st; svg_last_path := svg_last_path st;
     svg_last_path_nc := svg_last_path_nc st; warnings := v; connected := connected st;
     moves := moves st |}.

Definition set_connected (v : bool) (st : State) : State :=
  {| stopped := stopped st; resume_mode := resume_mode st; copies_to_plot := copies_to_plot st;
     pt_estimate := pt_estimate st; pen_up := pen_up st; virtual_pen_up := virtual_pen_up st;
     f_curr_x := f_curr_x st; f_curr_y := f_curr_y st;
     svg_last_known_pos_x := svg_last_known_pos_x st;
     svg_last_known_pos_y := svg_last_known_pos_y st; node_count := node_count st;
     svg_node_count := svg_node_count st; svg_paused_x := svg_paused_x st;
     svg_paused_y := svg_paused_y st; svg_last_path := svg_last_path st;
     svg_last_path_nc := svg_last_path_nc st; warnings := warnings st; connected := v;
     moves := moves st |}.

Definition set_moves (v : list XYMove) (st : State) : State :=
  {| stopped := stopped st; resume_mode := resume_mode st; copies_to_plot := copies_to_plot st;
     pt_estimate := pt_estimate st; pen_up := pen_up st; virtual_pen_up := virtual_pen_up st;
     f_curr_x := f_curr_x st; f_curr_y := f_curr_y st;
     svg_last_known_pos_x := svg_last_known_pos_x st;
     svg_last_known_pos_y := svg_last_known_pos_y st; node_count := node_count st;
     svg_node_count := svg_node_count st; svg_paused_x := svg_paused_x st;
     svg_paused_y := svg_paused_y st; svg_last_path := svg_last_path st;
     svg_last_path_nc := svg_last_path_nc st; warnings := warnings st;
     connected := connected st; moves := v |}.

(** What the outside world answers during one call of [pause_res_check]:
    the reply to [QueryPRGButton] and whether the pause event is set. *)
Inductive ButtonReply : Set :=
| ButtonDigit (d : Z)     (* the reply starts with a digit *)
| ButtonGarbled.          (* empty or malformed reply *)

Record Env : Type := {
  str_button : ButtonReply;
  pause_request : bool
}.

Local Open Scope R_scope.

(** Modelled from the spec: [pen_handling] is not part of the sources.
    Section 4.3: in resume mode raise and lower update only the virtual pen
    state; otherwise the servo is commanded and the physical state follows. *)
Definition pen_raise (st : State) : State :=
  if resume_mode st then set_virtual_pen_up true st
  else set_pen_up true (set_virtual_pen_up true st).

Definition pen_lower (st : State) : State :=
  if resume_mode st then set_virtual_pen_up false st
  else set_pen_up false (set_virtual_pen_up false st).

(** Modelled from the spec: [plot_utils.checkLimitsTol] is not part of the
    sources.  Section 4.6: clamp to the travel range; a clamp beyond the
    tolerance is reported. *)
Definition checkLimitsTol (value lower_bound upper_bound tolerance : R) : R * bool :=
  if decide (value > upper_bound) then
    (upper_bound, bool_decide (value > upper_bound + tolerance))
  else if decide (value < lower_bound) then
    (lower_bound, bool_decide (value < lower_bound - tolerance))
  else (value, false).

(** Modelled from the spec: the velocity primitives of [plot_utils]
    (section 4.2) are not part of the sources. *)
Definition distance (dx dy : R) : R := R_sqrt.sqrt (dx * dx + dy * dy).

Definition dotProductXY (u v : R * R) : R := u.1 * v.1 + u.2 * v.2.

Definition vFinal_Vi_A_Dx (v_initial acceleration delta_x : R) : R :=
  R_sqrt.sqrt (v_initial * v_initial + 2 * acceleration * delta_x).

Definition vInitial_VF_A_Dx (v_final acceleration delta_x : R) : R :=
  R_sqrt.sqrt (v_final * v_final - 2 * acceleration * delta_x).

(** Speed limit and acceleration rate follow the pen state. *)
Definition speed_limit (su : Setup.t) (st : State) : R :=
  if pen_up st then Setup.speed_penup su else Setup.speed_pendown su.

Definition accel_rate (pa : Params.t) (op : Options.t) (st : State) : R :=
  if pen_up st then Params.accel_rate_pu pa * Options.accel op / 100
  else Params.accel_rate pa * Options.accel op / 100.

End Model.

Import Model.

(** ** Trajectory planner (plan_trajectory) *)

Module Planner.

Local Open Scope R_scope.

(** One planned call [plot_seg_with_v(x_dest, y_dest, v_i, v_f)]. *)
Record Segment : Type := {
  x_dest : R;
  y_dest : R;
  v_i : R;
  v_f : R
}.

Record Trajectory : Type := {
  traj_dists : list R;
  traj_vectors : list (R * R);
  trimmed_path : list (R * R)
}.

(** First loop (lines 1313-1341): keep the vertices at least [min_dist]
    away from the last kept one.  [last] is [input_path[last_index]]. *)
Fixpoint trim (min_dist : R) (last : R * R) (rest : list (R * R))
    (tr : Trajectory) : result Trajectory :=
  match rest with
  | [] => Ok tr
  | p :: rest' =>
    let tmp_dist_x := p.1 - last.1 in
    let tmp_dist_y := p.2 - last.2 in
    let tmp_dist := distance tmp_dist_x tmp_dist_y in
    if decide (tmp_dist >= min_dist) then
      ux ← Py.div tmp_dist_x tmp_dist;
      uy ← Py.div tmp_dist_y tmp_dist;
      trim min_dist p rest'
        {| traj_dists := traj_dists tr ++ [tmp_dist];
           traj_vectors := traj_vectors tr ++ [(ux, uy)];
           trimmed_path := trimmed_path tr ++ [p] |}
    else trim min_dist last rest' tr
  end.

(** Cornering cap of one junction (lines 1497-1505). *)
Definition vjunction_max (accel_rate delta cosine_factor : R) : result R :=
  root_factor ← Py.sqrt ((1 - cosine_factor) / 2);
  let denominator := 1 - root_factor in
  rfactor ← (if decide (denominator > 0.0001)
             then Py.div (delta * root_factor) denominator
             else Ok 100000);
  Py.sqrt (accel_rate * rfactor).

(** Forward pass (lines 1453-1509): [n] iterations starting at index [i]. *)
Fixpoint forward_pass (speed_limit accel_rate accel_dist delta : R)
    (tr : Trajectory) (n i : nat) (traj_vels : list R) : result (list R) :=
  match n with
  | O => Ok traj_vels
  | S n' =>
    dcurrent ← Py.index (traj_dists tr) i;
    v_prev_exit ← Py.index traj_vels (i - 1);
    let vcurrent_max :=
      if decide (dcurrent > accel_dist) then speed_limit
      else
        let v := vFinal_Vi_A_Dx v_prev_exit accel_rate dcurrent in
        if decide (v > speed_limit) then speed_limit else v in
    u_prev ← Py.index (traj_vectors tr) (i - 1);
    u_next ← Py.index (traj_vectors tr) i;
    let cosine_factor := - dotProductXY u_prev u_next in
    vj ← vjunction_max accel_rate delta cosine_factor;
    let vcurrent_max := Py.min vcurrent_max vj in
    forward_pass speed_limit accel_rate accel_dist delta tr n' (S i)
      (traj_vels ++ [vcurrent_max])
  end.

(** Reverse pass (lines 1532-1546): [i] runs from its start value down
    to 1 and caps [traj_vels[i - 1]]. *)
Fixpoint reverse_pass (accel_rate : R) (tr : Trajectory) (i : nat)
    (traj_vels : list R) : result (list R) :=
  match i with
  | O => Ok traj_vels
  | S i' =>
    v_final ← Py.index traj_vels (S i');
    v_initial ← Py.index traj_vels i';
    seg_length ← Py.index (traj_dists tr) (S i');
    if decide (v_initial > v_final /\ seg_length > 0) then
      let v_init_max := vInitial_VF_A_Dx v_final (- accel_rate) seg_length in
      let v_initial :=
        if decide (v_init_max < v_initial) then v_init_max else v_initial in
      reverse_pass accel_rate tr i' (<[i' := v_initial]> traj_vels)
    else reverse_pass accel_rate tr i' traj_vels
  end.

(** Last loop (lines 1561-1563): the calls made for indices [i], [i+1], ... *)
Fixpoint emit_segments (tr : Trajectory) (traj_vels : list R) (n i : nat)
    : result (list Segment) :=
  match n with
  | O => Ok []
  | S n' =>
    p ← Py.index (trimmed_path tr) i;
    vi ← Py.index traj_vels i;
    vf ← Py.index traj_vels (S i);
    rest ← emit_segments tr traj_vels n' (S i);
    Ok ({| x_dest := p.1; y_dest := p.2; v_i := vi; v_f := vf |} :: rest)
  end.

(** The segments [plan_trajectory] hands to [plot_seg_with_v], in order. *)
Definition plan_trajectory (pa : Params.t) (op : Options.t) (su : Setup.t)
    (st : State) (input_path : list (R * R)) : result (list Segment) :=
  if decide (stopped st <> 0%Z) then Ok []
  else if decide (f_curr_x st = None) then Ok []
  else
    match input_path with
    | [] | [_] => Ok []
    | [_; p] => Ok [{| x_dest := p.1; y_dest := p.2; v_i := 0; v_f := 0 |}]
    | p0 :: rest =>
      let speed_limit := speed_limit su st in
      let min_dist :=
        if decide (Options.resolution op = 1%Z)
        then Params.max_step_dist_hr pa else Params.max_step_dist_lr pa in
      tr ← trim min_dist p0 rest
              {| traj_dists := [0]; traj_vectors := []; trimmed_path := [] |};
      let traj_length := length (traj_dists tr) in
      if decide (traj_length < 2)%nat then Ok []
      else if decide (traj_length < 3)%nat then
        p ← Py.index (trimmed_path tr) 0;
        Ok [{| x_dest := p.1; y_dest := p.2; v_i := 0; v_f := 0 |}]
      else
        let accel_rate := accel_rate pa op st in
        t_max ← Py.div speed_limit accel_rate;
        let accel_dist := 0.5 * accel_rate * t_max * t_max in
        let delta := Params.cornering pa / 5000 in
        vels ← forward_pass speed_limit accel_rate accel_dist delta tr
                 (traj_length - 2) 1 [0];
        let vels := vels ++ [0] in
        vels ← reverse_pass accel_rate tr (traj_length - 1) vels;
        emit_segments tr vels (traj_length - 1) 0
    end.





(** The lengths kept by the first loop, seen from the start point [p0]:
    entry [i + 1] of [traj_dists] is the distance between vertices [i] and
    [i + 1] of [p0 :: trimmed_path], and it is positive. *)
Definition trimmed_ok (p0 : R * R) (tr : Trajectory) : Prop :=
  length (traj_dists tr) = S (length (trimmed_path tr)) /\
  length (traj_vectors tr) = length (trimmed_path tr) /\
  forall i p q,
    (p0 :: trimmed_path tr) !! i = Some p -> trimmed_path tr !! i = Some q ->
    exists d, traj_dists tr !! S i = Some d /\ 0 < d /\
              d = distance (q.1 - p.1) (q.2 - p.2).

End Planner.

(** ** Pause/resume check (pause_res_check) *)

Module Pause.

Local Open Scope Z_scope.

(** Lines 2207-2210: a keyboard interrupt requests a pause. *)
Definition request_pause (su : Setup.t) (env : Env) (st : State) : State :=
  if pause_request env then
    if Setup.delay_between_copies su then set_stopped (-2) st
    else set_stopped (-103) st
  else st.

(** Lines 2217-2225: read the pause button when the plot runs and a port
    is open.  In preview mode [str_button] is the integer 0, which cannot
    be subscripted. *)
Definition read_button (op : Options.t) (su : Setup.t) (env : Env)
    (st : State) : result (Z * State) :=
  if decide (stopped st = 0 /\ Setup.port su = true) then
    if Options.preview op then Raise TypeError
    else
      match str_button env with
      | ButtonDigit d => Ok (d, st)
      | ButtonGarbled => Ok (0, set_stopped (-104) (set_connected false st))
      end
  else Ok (0, st).

(** Lines 2227-2236. *)
Definition button_pause (su : Setup.t) (pause_button_pressed : Z) (st : State) : State :=
  if decide (pause_button_pressed = 1) then
    if Setup.delay_between_copies su then set_stopped (-2) st
    else set_stopped (-102) st
  else st.

(** Lines 2241-2245: paused again before the resume point was reached. *)
Definition skip_to_target (op : Options.t) (su : Setup.t) (st : State) : State :=
  if decide (stopped st <> 0) then
    if decide (Options.mode op = "res_plot"%string) then
      if decide (node_count st < Setup.node_target su)
      then set_node_count (Setup.node_target su) st else st
    else st
  else st.

(** Lines 2247-2259: stop the plot; this segment is not plotted. *)
Definition enter_pause (su : Setup.t) (st : State) : result State :=
  match f_curr_x st with
  | None => Raise TypeError
  | Some fx =>
    let st :=
      set_paused (node_count st) (fx - (Setup.pt_first su).1)%R
        (f_curr_y st - (Setup.pt_first su).2)%R st in
    let st := pen_raise st in
    Ok (set_stopped (- stopped st) st)
  end.

(** Lines 2261-2279: count the node and leave resume mode at the target. *)
Definition count_node (su : Setup.t) (st : State) : State :=
  let st := set_node_count (node_count st + 1) st in
  if resume_mode st then
    if decide (node_count st >= Setup.node_target su) then
      let st := set_resume_mode false st in
      if virtual_pen_up st then st else pen_lower st
    else st
  else st.

Definition pause_res_check (op : Options.t) (su : Setup.t) (env : Env)
    (st : State) : result State :=
  if decide (stopped st > 0) then Ok st
  else
    let st := request_pause su env st in
    '(pause_button_pressed, st) ← read_button op su env st;
    let st := button_pause su pause_button_pressed st in
    let st := skip_to_target op su st in
    if decide (stopped st < 0) then enter_pause su st
    else Ok (count_node su st).

End Pause.

(** ** Segment executor (plot_seg_with_v) *)

Module Segment.

Local Open Scope R_scope.

#[global] Instance Qlt_decision : RelDecision Qlt.
Proof.
  intros x y. destruct (Qlt_le_dec x y) as [H|H];
    [left; exact H | right; apply Qle_not_lt; exact H].
Defined.

#[global] Instance Qle_decision : RelDecision Qle.
Proof.
  intros x y. destruct (Qlt_le_dec y x) as [H|H];
    [right; apply Qlt_not_le; exact H | left; exact H].
Defined.

(** The running variables of the interval generator. *)
Record Profile : Type := {
  velocity : R;
  time_elapsed : R;
  position : R;
  duration_array : list Z;
  dist_array : list R
}.

(** One interval: run at [v] for [dt], then record the time and the
    distance reached. *)
Definition advance (v dt : R) (pr : Profile) : result Profile :=
  let time_elapsed := time_elapsed pr + dt in
  let position := position pr + v * dt in
  d ← Py.array_I (Py.round (time_elapsed * 1000));
  Ok {| velocity := v; time_elapsed := time_elapsed; position := position;
        duration_array := duration_array pr ++ [d];
        dist_array := dist_array pr ++ [position] |}.

(** [for index in range(0, intervals)] of an acceleration phase. *)
Fixpoint accel_phase (intervals : nat) (velocity_step_size time_per_interval : R)
    (pr : Profile) : result Profile :=
  match intervals with
  | O => Ok pr
  | S n =>
    pr ← advance (velocity pr + velocity_step_size) time_per_interval pr;
    accel_phase n velocity_step_size time_per_interval pr
  end.

(** The same loop of a deceleration phase. *)
Fixpoint decel_phase (intervals : nat) (velocity_step_size time_per_interval : R)
    (pr : Profile) : result Profile :=
  match intervals with
  | O => Ok pr
  | S n =>
    pr ← advance (velocity pr - velocity_step_size) time_per_interval pr;
    decel_phase n velocity_step_size time_per_interval pr
  end.

(** [while ct > cruise_interval] (lines 1831-1836). *)
Fixpoint cruise (fuel : nat) (cruise_interval ct : R) (pr : Profile)
    : result (R * Profile) :=
  if decide (ct > cruise_interval) then
    match fuel with
    | O => OutOfFuel
    | S fuel' =>
      pr ← advance (velocity pr) cruise_interval pr;
      cruise fuel' cruise_interval (ct - cruise_interval) pr
    end
  else Ok (ct, pr).

(** A ramp of [intervals] steps, skipped when [intervals] is not positive. *)
Definition ramp_up (intervals : Z) (t_ramp v_from v_to : R) (pr : Profile)
    : result Profile :=
  if decide (intervals > 0)%Z then
    time_per_interval ← Py.div t_ramp (IZR intervals);
    velocity_step_size ← Py.div (v_to - v_from) (IZR intervals + 1);
    accel_phase (Z.to_nat intervals) velocity_step_size time_per_interval pr
  else Ok pr.

Definition ramp_down (intervals : Z) (t_ramp v_from v_to : R) (pr : Profile)
    : result Profile :=
  if decide (intervals > 0)%Z then
    time_per_interval ← Py.div t_ramp (IZR intervals);
    velocity_step_size ← Py.div (v_from - v_to) (IZR intervals + 1);
    decel_phase (Z.to_nat intervals) velocity_step_size time_per_interval pr
  else Ok pr.

(** The quantities computed before the case split (lines 1690-1759). *)
Record Limits : Type := {
  speed_limit : R;
  accel_rate : R;
  time_slice : R;
  segment_length_inches : R;
  vi_inch_per_s : R;
  vf_inch_per_s : R;
  t_accel_max : R;
  t_decel_max : R;
  accel_dist_max : R;
  decel_dist_max : R
}.

(** Case 1, trapezoid (lines 1796-1858). *)
Definition trapezoid (fuel : nat) (lm : Limits) (pr : Profile) : result Profile :=
  let speed_max := speed_limit lm in
  q ← Py.div (t_accel_max lm) (time_slice lm);
  pr ← ramp_up (Py.floor q) (t_accel_max lm) (vi_inch_per_s lm) speed_max pr;
  let coasting_distance :=
    segment_length_inches lm - (accel_dist_max lm + decel_dist_max lm) in
  pr ← (if decide (coasting_distance > time_slice lm * speed_max) then
          let velocity := speed_max in
          cruising_time ← Py.div coasting_distance velocity;
          let cruise_interval := 20 * time_slice lm in
          '(ct, pr) ← cruise fuel cruise_interval cruising_time
                        {| velocity := velocity; time_elapsed := time_elapsed pr;
                           position := position pr;
                           duration_array := duration_array pr;
                           dist_array := dist_array pr |};
          advance velocity ct pr
        else Ok pr);
  q ← Py.div (t_decel_max lm) (time_slice lm);
  ramp_down (Py.floor q) (t_decel_max lm) speed_max (vf_inch_per_s lm) pr.

(** What cases 2 and 3 hand on: the profile, the possibly boosted start
    velocity and whether the constant-velocity case is to run. *)
Record Shaped : Type := {
  profile : Profile;
  vi_boosted : R;
  constant_vel_mode : bool
}.

(** Case 3, linear ramp or fall-back to constant velocity
    (lines 2005-2038). *)
Definition linear (lm : Limits) (vmax : R) (pr : Profile) : result Shaped :=
  let vf := vf_inch_per_s lm in
  let vi := (vmax + vi_inch_per_s lm) / 2 in
  let pr := {| velocity := vi; time_elapsed := time_elapsed pr;
               position := position pr;
               duration_array := duration_array pr;
               dist_array := dist_array pr |} in
  local_accel ← Py.div (vf * vf - vi * vi) (2 * segment_length_inches lm);
  let local_accel :=
    if decide (local_accel > accel_rate lm) then accel_rate lm
    else if decide (local_accel < - accel_rate lm) then - accel_rate lm
    else local_accel in
  if decide (local_accel = 0) then
    Ok {| profile := pr; vi_boosted := vi; constant_vel_mode := true |}
  else
    t_segment ← Py.div (vf - vi) local_accel;
    q ← Py.div t_segment (time_slice lm);
    let intervals := Py.floor q in
    if decide (intervals > 1)%Z then
      time_per_interval ← Py.div t_segment (IZR intervals);
      velocity_step_size ← Py.div (vf - vi) (IZR intervals + 1);
      pr ← accel_phase (Z.to_nat intervals) velocity_step_size time_per_interval pr;
      Ok {| profile := pr; vi_boosted := vi; constant_vel_mode := false |}
    else
      Ok {| profile := pr; vi_boosted := vmax; constant_vel_mode := true |}.

(** Case 2, triangle, with case 3 as its fall-back (lines 1917-2038). *)
Definition triangle (lm : Limits) (pr : Profile) : result Shaped :=
  let vi := vi_inch_per_s lm in
  let vf := vf_inch_per_s lm in
  let len := segment_length_inches lm in
  let dist_max := accel_dist_max lm + decel_dist_max lm in
  accel_rate_local ←
    (if decide (len >= 0.9 * dist_max) then
       q ← Py.div dist_max len;
       let accel_rate_local := 0.9 * q * accel_rate lm in
       Ok (if decide (dist_max = 0) then accel_rate lm else accel_rate_local)
     else Ok (accel_rate lm));
  ta ← (if decide (accel_rate_local > 0) then
          root ← Py.sqrt (2 * vi * vi + 2 * vf * vf + 4 * accel_rate_local * len);
          Py.div (root - 2 * vi) (2 * accel_rate_local)
        else Ok 0);
  let vmax := vi + accel_rate_local * ta in
  q ← Py.div ta (time_slice lm);
  let intervals := Py.floor q in
  let ta := if decide (intervals = 0)%Z then 0 else ta in
  td ← (if decide (accel_rate_local > 0) then
          q ← Py.div (vf - vi) accel_rate_local;
          Ok (ta - q)
        else Ok 0);
  q ← Py.div td (time_slice lm);
  let d_intervals := Py.floor q in
  if decide (intervals + d_intervals > 4)%Z then
    pr ← ramp_up intervals ta vi vmax pr;
    pr ← ramp_down d_intervals td vmax vf pr;
    Ok {| profile := pr; vi_boosted := vi; constant_vel_mode := false |}
  else linear lm vmax pr.

(** Cases 1 to 3 (lines 1793-2038), entered unless the pen is down in
    constant-speed mode. *)
Definition shape (fuel : nat) (const_mode up : bool) (lm : Limits)
    (pr : Profile) : result Shaped :=
  if negb const_mode || up then
    max_vel_time_estimate ← Py.div (segment_length_inches lm) (speed_limit lm);
    if decide (segment_length_inches lm >
                 accel_dist_max lm + decel_dist_max lm
                 + time_slice lm * speed_limit lm
               /\ max_vel_time_estimate > 4 * time_slice lm) then
      pr ← trapezoid fuel lm pr;
      Ok {| profile := pr; vi_boosted := vi_inch_per_s lm;
            constant_vel_mode := const_mode |}
    else
      sh ← triangle lm pr;
      Ok {| profile := profile sh; vi_boosted := vi_boosted sh;
            constant_vel_mode := const_mode || constant_vel_mode sh |}
  else
    _ ← Py.div (segment_length_inches lm) (speed_limit lm);
    Ok {| profile := pr; vi_boosted := vi_inch_per_s lm;
          constant_vel_mode := const_mode |}.

(** The velocity chosen by case 4 (lines 2048-2057). *)
Definition constant_velocity (const_speed up : bool) (speed_pendown vi vf : R) : R :=
  if const_speed && negb up then speed_pendown
  else if decide (vf > vi) then vf
  else if decide (vi > vf) then vi
  else if decide (vi > 0) then vi
  else speed_pendown / 10.

(** Case 4, one interval at constant velocity (lines 2040-2065). *)
Definition constant (const_speed up : bool) (speed_pendown : R) (lm : Limits)
    (sh : Shaped) : result Profile :=
  let pr := profile sh in
  if constant_vel_mode sh then
    let velocity :=
      constant_velocity const_speed up speed_pendown (vi_boosted sh)
        (vf_inch_per_s lm) in
    time_elapsed ← Py.div (segment_length_inches lm) velocity;
    d ← Py.array_I (Py.round (time_elapsed * 1000));
    Ok {| velocity := velocity; time_elapsed := time_elapsed;
          position := position pr + segment_length_inches lm;
          duration_array := duration_array pr ++ [d];
          dist_array := dist_array pr ++ [segment_length_inches lm] |}
  else Ok pr.

(** Scaling to motor steps (lines 2076-2081). *)
Fixpoint scale (position : R) (motor_steps1 motor_steps2 : Z) (dists : list R)
    : result (list Z * list Z) :=
  match dists with
  | [] => Ok ([], [])
  | dist :: dists' =>
    fractional_distance ← Py.div dist position;
    d1 ← Py.array_i (Py.round (fractional_distance * IZR motor_steps1));
    d2 ← Py.array_i (Py.round (fractional_distance * IZR motor_steps2));
    '(dest1, dest2) ← scale position motor_steps1 motor_steps2 dists';
    Ok (d1 :: dest1, d2 :: dest2)
  end.

(** *** Per-interval emission (lines 2087-2188) *)

(** [abs(float(steps) / float(time))], for [time >= 1]. *)
Definition step_rate (steps time : Z) : Q := Qabs (steps # Z.to_pos time).

(** [while] loop of lines 2105-2108: wait one more ms while either axis is
    at or above the rate limit. *)
Fixpoint overspeed (fuel : nat) (max_step_rate : Q) (move_steps1 move_steps2 move_time : Z)
    : result Z :=
  if decide (step_rate move_steps1 move_time >= max_step_rate
             \/ step_rate move_steps2 move_time >= max_step_rate)%Q then
    match fuel with
    | O => OutOfFuel
    | S fuel' => overspeed fuel' max_step_rate move_steps1 move_steps2 (move_time + 1)%Z
    end
  else Ok move_time.

Record Cursor : Type := {
  prev_motor1 : Z;
  prev_motor2 : Z;
  prev_time : Z
}.

(** The step deltas and duration of one interval (lines 2092-2107). *)
Definition interval_move (fuel : nat) (max_step_rate : Q) (cu : Cursor)
    (dest1 dest2 duration : Z) : result XYMove :=
  let move_steps1 := (dest1 - prev_motor1 cu)%Z in
  let move_steps2 := (dest2 - prev_motor2 cu)%Z in
  let move_time := (duration - prev_time cu)%Z in
  let move_time := Z.max move_time 1 in
  let move_steps1 :=
    if decide (step_rate move_steps1 move_time < 0.002)%Q then 0%Z else move_steps1 in
  let move_steps2 :=
    if decide (step_rate move_steps2 move_time < 0.002)%Q then 0%Z else move_steps2 in
  move_time ← overspeed fuel max_step_rate move_steps1 move_steps2 move_time;
  Ok {| move_steps2 := move_steps2; move_steps1 := move_steps1; move_time := move_time |}.

(** Lines 2095 and 2110-2111: the cursor after an interval. *)
Definition next_cursor (cu : Cursor) (mv : XYMove) (duration : Z) : Cursor :=
  {| prev_motor1 := (prev_motor1 cu + move_steps1 mv)%Z;
     prev_motor2 := (prev_motor2 cu + move_steps2 mv)%Z;
     prev_time := duration |}.

(** The guarded body of lines 2114-2188: send the move (or, in preview,
    count its time) and update the position. *)
Definition apply_move (op : Options.t) (su : Setup.t) (mv : XYMove) (st : State)
    : result State :=
  if decide (move_steps1 mv <> 0%Z \/ move_steps2 mv <> 0%Z) then
    motor_dist1_temp ← Py.div (IZR (move_steps1 mv)) (Setup.step_scale su * 2);
    motor_dist2_temp ← Py.div (IZR (move_steps2 mv)) (Setup.step_scale su * 2);
    let x_delta := motor_dist1_temp + motor_dist2_temp in
    let y_delta := motor_dist1_temp - motor_dist2_temp in
    if negb (resume_mode st) && bool_decide (stopped st = 0%Z) then
      match f_curr_x st with
      | None => Raise TypeError
      | Some fx =>
        let f_new_x := fx + x_delta in
        let f_new_y := f_curr_y st + y_delta in
        let st :=
          if Options.preview op
          then set_pt_estimate (pt_estimate st + move_time mv)%Z st
          else set_moves (moves st ++ [mv]) st in
        Ok (set_position f_new_x f_new_y
              (f_new_x - (Setup.pt_first su).1) (f_new_y - (Setup.pt_first su).2) st)
      end
    else Ok st
  else Ok st.

(** [for index in range(0, len(dest_array1))]: [todo] is what is left of
    [dest_array1] from [index] on. *)
Fixpoint emit (fuel : nat) (pa : Params.t) (op : Options.t) (su : Setup.t)
    (dest_array2 duration_array : list Z) (todo : list Z) (index : nat)
    (cu : Cursor) (st : State) : result (Cursor * State) :=
  match todo with
  | [] => Ok (cu, st)
  | dest1 :: todo' =>
    dest2 ← Py.index dest_array2 index;
    duration ← Py.index duration_array index;
    mv ← interval_move fuel (Params.max_step_rate pa) cu dest1 dest2 duration;
    let cu := next_cursor cu mv duration in
    st ← apply_move op su mv st;
    emit fuel pa op su dest_array2 duration_array todo' (S index) cu st
  end.

(** Lines 1637-1644: clamp the destination to the travel bounds. *)
Definition check_bounds (pa : Params.t) (su : Setup.t) (ignore_limits : bool)
    (x_dest y_dest : R) (st : State) : R * R * State :=
  if ignore_limits then (x_dest, y_dest, st)
  else
    let tolerance := Params.bounds_tolerance pa in
    let '(x_dest, x_bounded) :=
      checkLimitsTol x_dest (Setup.x_bounds_min su) (Setup.x_bounds_max su) tolerance in
    let '(y_dest, y_bounded) :=
      checkLimitsTol y_dest (Setup.y_bounds_min su) (Setup.y_bounds_max su) tolerance in
    (x_dest, y_dest,
     if x_bounded || y_bounded
     then set_warnings ({[ "bounds"%string ]} ∪ warnings st) st else st).

(** Lines 1690-1736. *)
Definition limits (pa : Params.t) (op : Options.t) (su : Setup.t) (st : State)
    (len v_i v_f : R) : result Limits :=
  let speed_limit := Model.speed_limit su st in
  let accel_rate := Model.accel_rate pa op st in
  let vi := Py.min v_i speed_limit in
  let vf := Py.min v_f speed_limit in
  t_accel_max ← Py.div (speed_limit - vi) accel_rate;
  t_decel_max ← Py.div (speed_limit - vf) accel_rate;
  Ok {| speed_limit := speed_limit; accel_rate := accel_rate;
        time_slice := Params.time_slice pa;
        segment_length_inches := len;
        vi_inch_per_s := vi; vf_inch_per_s := vf;
        t_accel_max := t_accel_max; t_decel_max := t_decel_max;
        accel_dist_max := vi * t_accel_max + 0.5 * accel_rate * t_accel_max * t_accel_max;
        decel_dist_max := vf * t_decel_max + 0.5 * accel_rate * t_decel_max * t_decel_max |}.

(** The time and step arrays of a segment (lines 1690-2085). *)
Definition intervals (fuel : nat) (pa : Params.t) (op : Options.t) (su : Setup.t)
    (st : State) (motor_steps1 motor_steps2 : Z) (len v_i v_f : R)
    : result (list Z * list Z * list Z) :=
  let const_mode := Options.const_speed op && negb (pen_up st) in
  lm ← limits pa op su st len v_i v_f;
  sh ← shape fuel const_mode (pen_up st) lm
         {| velocity := vi_inch_per_s lm; time_elapsed := 0; position := 0;
            duration_array := []; dist_array := [] |};
  pr ← constant (Options.const_speed op) (pen_up st) (Setup.speed_pendown su) lm sh;
  _ ← Py.div (position pr) len;
  '(dest_array1, dest_array2) ← scale (position pr) motor_steps1 motor_steps2 (dist_array pr);
  _ ← Py.index dest_array1 (length dest_array1 - 1);
  _ ← Py.index dest_array2 (length dest_array2 - 1);
  Ok (duration_array pr, dest_array1, dest_array2).

Definition plot_seg_with_v (fuel : nat) (pa : Params.t) (op : Options.t)
    (su : Setup.t) (env : Env) (st : State)
    (x_dest y_dest v_i v_f : R) (ignore_limits : bool) : result State :=
  st ← Pause.pause_res_check op su env st;
  match f_curr_x st with
  | None => Raise TypeError      (* line 1618 formats f_curr_x *)
  | Some fx =>
    if decide (stopped st <> 0%Z) then Ok (set_copies_to_plot 0 st)
    else
      let '(x_dest, y_dest, st) := check_bounds pa su ignore_limits x_dest y_dest st in
      let delta_x_inches := x_dest - fx in
      let delta_y_inches := y_dest - f_curr_y st in
      let motor_steps1 :=
        Kinematics.motor_steps1 (Setup.step_scale su) delta_x_inches delta_y_inches in
      let motor_steps2 :=
        Kinematics.motor_steps2 (Setup.step_scale su) delta_x_inches delta_y_inches in
      '(delta_x_inches_rounded, delta_y_inches_rounded) ←
        Kinematics.delta_rounded (Setup.step_scale su) motor_steps1 motor_steps2;
      if decide (Z.abs motor_steps1 < 1 /\ Z.abs motor_steps2 < 1)%Z then Ok st
      else
        let segment_length_inches :=
          distance delta_x_inches_rounded delta_y_inches_rounded in
        '(duration_array, dest_array1, dest_array2) ←
          intervals fuel pa op su st motor_steps1 motor_steps2
            segment_length_inches v_i v_f;
        '(_, st) ← emit fuel pa op su dest_array2 duration_array dest_array1 0
                     {| prev_motor1 := 0; prev_motor2 := 0; prev_time := 0 |} st;
        Ok st
  end.

(** The calls of one planned path, each with what the outside world
    answers at its pause check. *)
Fixpoint plot_segments (fuel : nat) (pa : Params.t) (op : Options.t)
    (su : Setup.t) (calls : list (Env * Planner.Segment)) (st : State)
    : result State :=
  match calls with
  | [] => Ok st
  | (env, sg) :: calls' =>
    st ← plot_seg_with_v fuel pa op su env st
           (Planner.x_dest sg) (Planner.y_dest sg) (Planner.v_i sg) (Planner.v_f sg) false;
    plot_segments fuel pa op su calls' st
  end.

(** Total steps commanded on each motor by a list of moves. *)
Definition sum_steps1 (mvs : list XYMove) : Z :=
  foldr (fun mv acc => (move_steps1 mv + acc)%Z) 0%Z mvs.

Definition sum_steps2 (mvs : list XYMove) : Z :=
  foldr (fun mv acc => (move_steps2 mv + acc)%Z) 0%Z mvs.

(** A move that respects the limits of the controller. *)
Definition within_rate (max_step_rate : Q) (mv : XYMove) : Prop :=
  (1 <= move_time mv)%Z /\
  (step_rate (move_steps1 mv) (move_time mv) < max_step_rate)%Q /\
  (step_rate (move_steps2 mv) (move_time mv) < max_step_rate)%Q.

(** What the too-slow rule leaves of a requested delta: all of it, or
    nothing when its rate is under 0.002 steps per ms. *)
Definition kept_or_dropped (requested applied time : Z) : Prop :=
  applied = requested \/
  (applied = 0%Z /\ (step_rate requested time < 0.002)%Q).

(** The plot is running and its moves go to the controller. *)
Definition sending (op : Options.t) (st : State) : Prop :=
  stopped st = 0%Z /\ resume_mode st = false /\ Options.preview op = false.

(** The moves the loop of lines 2091-2111 computes, in order, whether they
    are sent or not. *)
Fixpoint schedule (fuel : nat) (max_step_rate : Q) (dest_array2 duration_array : list Z)
    (todo : list Z) (index : nat) (cu : Cursor) : result (list XYMove) :=
  match todo with
  | [] => Ok []
  | dest1 :: todo' =>
    dest2 ← Py.index dest_array2 index;
    duration ← Py.index duration_array index;
    mv ← interval_move fuel max_step_rate cu dest1 dest2 duration;
    rest ← schedule fuel max_step_rate dest_array2 duration_array todo' (S index)
             (next_cursor cu mv duration);
    Ok (mv :: rest)
  end.


(** The moves scheduled for a segment whose motor totals are
    [motor_steps1] and [motor_steps2]: lines 1665-2111 without the
    sending. *)
Definition segment_moves (fuel : nat) (pa : Params.t) (op : Options.t) (su : Setup.t)
    (st : State) (motor_steps1 motor_steps2 : Z) (v_i v_f : R) : result (list XYMove) :=
  '(delta_x_inches_rounded, delta_y_inches_rounded) ←
    Kinematics.delta_rounded (Setup.step_scale su) motor_steps1 motor_steps2;
  '(duration_array, dest_array1, dest_array2) ←
    intervals fuel pa op su st motor_steps1 motor_steps2
      (distance delta_x_inches_rounded delta_y_inches_rounded) v_i v_f;
  schedule fuel (Params.max_step_rate pa) dest_array2 duration_array dest_array1 0
    {| prev_motor1 := 0; prev_motor2 := 0; prev_time := 0 |}.

(** The interval generator keeps the last recorded distance equal to the
    position reached. *)
Definition profile_ok (pr : Profile) : Prop :=
  (dist_array pr = [] /\ position pr = 0) \/
  last (dist_array pr) = Some (position pr).


End Segment.

(** ** Progress persistence (read_plotdata) *)

Module Checkpoint.

(** A value held by an attribute of [self]. *)
Inductive Value (F : Type) : Type :=
| VNone
| VBool (b : bool)
| VInt (z : Z)
| VFloat (f : F)
| VStr (s : string).

Arguments VNone {F}.
Arguments VBool {F} b.
Arguments VInt {F} z.
Arguments VFloat {F} f.
Arguments VStr {F} s.

(** How a core attribute of the plotdata element is converted. *)
Inductive Kind : Set := KInt | KFloat.

(** Lines 535-542, in order: XML attribute, attribute of [self], conversion. *)
Definition core_fields : list (string * string * Kind) :=
  [ ("layer", "svg_layer_old", KInt);
    ("node", "svg_node_count_old", KInt);
    ("last_path", "svg_last_path_old", KInt);
    ("node_after_path", "svg_last_path_nc_old", KInt);
    ("last_known_x", "svg_last_known_x_old", KFloat);
    ("last_known_y", "svg_last_known_y_old", KFloat);
    ("paused_x", "svg_paused_x_old", KFloat);
    ("paused_y", "svg_paused_y_old", KFloat) ]%string.

(** What [read_plotdata] leaves behind: the attributes of [self], the
    plotdata elements of the document, and the exception that escaped, if
    one did. *)
Record Outcome (F : Type) : Type := {
  self_after : gmap string (Value F);
  doc_after : list (gmap string string);
  escaped : option exn
}.

Arguments self_after {F} o.
Arguments doc_after {F} o.
Arguments escaped {F} o.

Section Reader.

(** Floats, and the conversions [int(s)], [float(s)] of a string and
    [int(f)] of a float; [None] stands for [ValueError]. *)
Context {F : Type}.
Variable parse_int : string -> option Z.
Variable parse_float : string -> option F.
Variable trunc : F -> result Z.

(** [int(data_node.get(name))]: a missing attribute is [None], and
    [int(None)] raises [TypeError]. *)
Definition py_int (a : option string) : result Z :=
  match a with
  | None => Raise TypeError
  | Some s =>
    match parse_int s with
    | Some z => Ok z
    | None => Raise ValueError
    end
  end.

Definition py_float (a : option string) : result F :=
  match a with
  | None => Raise TypeError
  | Some s =>
    match parse_float s with
    | Some f => Ok f
    | None => Raise ValueError
    end
  end.

Definition convert (k : Kind) (a : option string) : result (Value F) :=
  match k with
  | KInt => z ← py_int a; Ok (VInt z)
  | KFloat => f ← py_float a; Ok (VFloat f)
  end.

(** The assignments of the first [try] block, one after the other: an
    exception leaves the earlier assignments in place. *)
Fixpoint read_core (data_node : gmap string string)
    (fields : list (string * string * Kind)) (self : gmap string (Value F))
    : gmap string (Value F) * option exn :=
  match fields with
  | [] => (self, None)
  | (name, attr, k) :: fields' =>
    match convert k (data_node !! name) with
    | Ok v => read_core data_node fields' (<[attr := v]> self)
    | Raise e => (self, Some e)
    | OutOfFuel => (self, None)
    end
  end.

Definition opt_str (a : option string) : Value F :=
  match a with
  | Some s => VStr s
  | None => VNone
  end.

(** An optional attribute (lines 548-555): [TypeError] is swallowed. *)
Definition read_optional (attr : string) (r : result Z)
    (self : gmap string (Value F)) : gmap string (Value F) * option exn :=
  match r with
  | Ok z => (<[attr := VInt z]> self, None)
  | Raise TypeError => (self, None)
  | Raise e => (self, Some e)
  | OutOfFuel => (self, None)
  end.

Definition read_plotdata (self : gmap string (Value F))
    (doc : list (gmap string string)) : Outcome F :=
  let self := <["svg_data_read"%string := VBool false]> self in
  match doc with
  | [] => {| self_after := self; doc_after := doc; escaped := None |}
  | data_node :: others =>
    let '(self, doc, exc) :=
      match read_core data_node core_fields self with
      | (self, None) =>
        let self := <["svg_data_read"%string := VBool true]> self in
        let self :=
          <["svg_application_old"%string :=
              opt_str (data_node !! "application"%string)]> self in
        let self :=
          <["svg_plob_version"%string :=
              opt_str (data_node !! "plob_version"%string)]> self in
        (self, doc, None)
      | (self, Some TypeError) => (self, others, None)
      | (self, Some e) => (self, doc, Some e)
      end in
    match exc with
    | Some e => {| self_after := self; doc_after := doc; escaped := Some e |}
    | None =>
      match read_optional "svg_row_old" (py_int (data_node !! "row"%string)) self with
      | (self, Some e) => {| self_after := self; doc_after := doc; escaped := Some e |}
      | (self, None) =>
        let seed := f ← py_float (data_node !! "randseed"%string); trunc f in
        let '(self, exc) := read_optional "svg_rand_seed_old" seed self in
        {| self_after := self; doc_after := doc; escaped := exc |}
      end
    end
  end.

End Reader.

(** A decimal reader for plain integers, used to run the reader on
    concrete elements. *)
Definition digit (c : ascii) : option Z :=
  let n := Z.of_nat (nat_of_ascii c) in
  if decide (48 <= n <= 57)%Z then Some (n - 48)%Z else None.

Fixpoint digits (acc : Z) (s : string) : option Z :=
  match s with
  | EmptyString => Some acc
  | String c s' =>
    match digit c with
    | Some d => digits (10 * acc + d)%Z s'
    | None => None
    end
  end.

Definition decimal (s : string) : option Z :=
  match s with
  | EmptyString => None
  | String "-" (String c s') => Z.opp <$> digits 0 (String c s')
  | _ => digits 0 s
  end.

(** Readers for the examples: floats are read as plain integers. *)
Definition decimal_float (s : string) : option Q := inject_Z <$> decimal s.

Definition trunc_float (q : Q) : result Z := Ok (Z.quot (Qnum q) (Z.pos (Qden q))).

(** The attributes [set_defaults] gives to [self] (lines 154-165). *)
Definition defaults : gmap string (Value Q) :=
  <["svg_layer_old" := VInt (-2)]> (
  <["svg_node_count_old" := VInt 0]> (
  <["svg_last_path_old" := VInt 0]> (
  <["svg_last_path_nc_old" := VInt 0]> (
  <["svg_last_known_x_old" := VFloat 0%Q]> (
  <["svg_last_known_y_old" := VFloat 0%Q]> (
  <["svg_paused_x_old" := VFloat 0%Q]> (
  <["svg_paused_y_old" := VFloat 0%Q]> (
  <["svg_rand_seed_old" := VInt 1]> (
  <["svg_row_old" := VInt 0]> (
  <["svg_application_old" := VNone]> (
  <["svg_plob_version" := VNone]> ∅)))))))))))%string.

(** A plotdata element that lost everything but its layer. *)
Definition layer_only : gmap string string := {[ "layer" := "5" ]}%string.

(** A plotdata element written by a paused plot; it has no [row]. *)
Definition complete : gmap string string :=
  <["application" := "axidraw"]> (
  <["layer" := "3"]> (
  <["node" := "120"]> (
  <["last_path" := "7"]> (
  <["node_after_path" := "110"]> (
  <["last_known_x" := "2"]> (
  <["last_known_y" := "1"]> (
  <["paused_x" := "3"]> (
  <["paused_y" := "1"]> (
  <["randseed" := "42"]> ∅)))))))))%string.

(** The XML attribute, the attribute of [self] and the conversion of an
    entry of the table. *)
Definition xml_name (f : string * string * Kind) : string := f.1.1.
Definition self_attr (f : string * string * Kind) : string := f.1.2.
Definition kind (f : string * string * Kind) : Kind := f.2.

End Checkpoint.

(** ** A concrete machine *)

Module Scenario.

Local Open Scope R_scope.

(** High-resolution plotting with the stock configuration values. *)
Definition params : Params.t :=
  {| Params.accel_rate := 40;
     Params.accel_rate_pu := 60;
     Params.time_slice := 0.03;
     Params.max_step_rate := 24.995%Q;
     Params.bounds_tolerance := 0.003;
     Params.cornering := 10;
     Params.max_step_dist_hr := 0.000348;
     Params.max_step_dist_lr := 0.000696 |}.

Definition options : Options.t :=
  {| Options.preview := false;
     Options.const_speed := false;
     Options.accel := 75;
     Options.resolution := 1;
     Options.mode := "plot" |}.

Definition setup : Setup.t :=
  {| Setup.speed_pendown := 2;
     Setup.speed_penup := 6;
     Setup.step_scale := 2032;
     Setup.x_bounds_min := 0;
     Setup.x_bounds_max := 11.81;
     Setup.y_bounds_min := 0;
     Setup.y_bounds_max := 8.58;
     Setup.x_max_phy := 11.81;
     Setup.y_max_phy := 8.58;
     Setup.pt_first := (0, 0);
     Setup.node_target := 0;
     Setup.pathcount := 1;
     Setup.Secondary := false;
     Setup.port := true;
     Setup.delay_between_copies := false |}.

(** Pen down at the origin, plot running, five nodes done. *)
Definition running : State :=
  {| stopped := 0; resume_mode := false; copies_to_plot := 0; pt_estimate := 0;
     pen_up := false; virtual_pen_up := false;
     f_curr_x := Some 0; f_curr_y := 0;
     svg_last_known_pos_x := 0; svg_last_known_pos_y := 0;
     node_count := 5; svg_node_count := 0; svg_paused_x := 0; svg_paused_y := 0;
     svg_last_path := 0; svg_last_path_nc := 0;
     warnings := ∅; connected := true; moves := [] |}.

(** The same plot after a button pause (code 102). *)
Definition paused : State := set_stopped 102 running.

(** Nothing pressed, no pause requested. *)
Definition quiet : Env := {| str_button := ButtonDigit 0; pause_request := false |}.

(** Constant-speed plotting at a crawl: 169/2032 in/s, pen down. *)
Definition const_options : Options.t :=
  {| Options.preview := false;
     Options.const_speed := true;
     Options.accel := 75;
     Options.resolution := 1;
     Options.mode := "plot" |}.

Definition slow_setup : Setup.t :=
  {| Setup.speed_pendown := 169 / 2032;
     Setup.speed_penup := 6;
     Setup.step_scale := 2032;
     Setup.x_bounds_min := 0;
     Setup.x_bounds_max := 11.81;
     Setup.y_bounds_min := 0;
     Setup.y_bounds_max := 8.58;
     Setup.x_max_phy := 11.81;
     Setup.y_max_phy := 8.58;
     Setup.pt_first := (0, 0);
     Setup.node_target := 0;
     Setup.pathcount := 1;
     Setup.Secondary := false;
     Setup.port := true;
     Setup.delay_between_copies := false |}.

(** The running plot after the pause check of a segment: one more node. *)
Definition counted : State := set_node_count 6 running.

(** The one command of the slow segment: 239 steps on motor 1 in 1000 ms;
    the single step of motor 2 is too slow and is not commanded. *)
Definition slow_move : XYMove :=
  {| move_steps2 := 0; move_steps1 := 239; move_time := 1000 |}.



End Scenario.

(** ** Vocabulary for the moves of a segment *)

Module Sent.

Import Segment.

(** The guard of line 2114: at least one motor has a step to make. *)
Definition has_steps (mv : XYMove) : Prop :=
  move_steps1 mv <> 0%Z \/ move_steps2 mv <> 0%Z.

#[global] Instance has_steps_dec (mv : XYMove) : Decision (has_steps mv).
Proof. unfold has_steps. apply _. Defined.

(** Total duration of a list of moves, ms. *)
Definition sum_time (mvs : list XYMove) : Z :=
  foldr (fun mv acc => (move_time mv + acc)%Z) 0%Z mvs.

(** Where the carriage is after [mvs], starting from [(x, y)]: motor 1
    turns the belt along x + y, motor 2 along x - y. *)
Definition carried (step_scale : R) (x y : R) (mvs : list XYMove) : R * R :=
  ((x + (IZR (sum_steps1 mvs) + IZR (sum_steps2 mvs)) / (step_scale * 2))%R,
   (y + (IZR (sum_steps1 mvs) - IZR (sum_steps2 mvs)) / (step_scale * 2))%R).

#[global] Arguments carried : simpl never.

End Sent.

(** ** More concrete cases *)

Module Cases.

Local Open Scope R_scope.

(** The plot of [Scenario.running] resumed: still skipping, far from the
    node where it was paused. *)
Definition skipping : State := set_resume_mode true Scenario.running.

Definition resume_setup : Setup.t :=
  {| Setup.speed_pendown := 169 / 2032;
     Setup.speed_penup := 6;
     Setup.step_scale := 2032;
     Setup.x_bounds_min := 0;
     Setup.x_bounds_max := 11.81;
     Setup.y_bounds_min := 0;
     Setup.y_bounds_max := 8.58;
     Setup.x_max_phy := 11.81;
     Setup.y_max_phy := 8.58;
     Setup.pt_first := (0, 0);
     Setup.node_target := 100;
     Setup.pathcount := 1;
     Setup.Secondary := false;
     Setup.port := true;
     Setup.delay_between_copies := false |}.

(** The pause button is held down. *)
Definition pressed : Env := {| str_button := ButtonDigit 1; pause_request := false |}.

End Cases.

(** ** Progress persistence (update_plotdata) *)

Module Persist.

Import Checkpoint.

(** The attributes of [self] that [update_plotdata] reads.  [effect] gives
    each of them a value (lines 261-271) before anything is plotted;
    [svg_row_old] and [svg_plob_version] come from [set_defaults] or from
    [read_plotdata]. *)
Record Progress (F : Type) : Type := {
  svg_layer : Value F;
  svg_node_count : Value F;
  svg_last_path : Value F;
  svg_last_path_nc : Value F;
  svg_last_known_pos_x : Value F;
  svg_last_known_pos_y : Value F;
  svg_paused_x : Value F;
  svg_paused_y : Value F;
  svg_rand_seed : Value F;
  svg_row_old : Value F;
  svg_plob_version : Value F;
  svg_data_written : bool
}.

Arguments svg_layer {F} p.
Arguments svg_node_count {F} p.
Arguments svg_last_path {F} p.
Arguments svg_last_path_nc {F} p.
Arguments svg_last_known_pos_x {F} p.
Arguments svg_last_known_pos_y {F} p.
Arguments svg_paused_x {F} p.
Arguments svg_paused_y {F} p.
Arguments svg_rand_seed {F} p.
Arguments svg_row_old {F} p.
Arguments svg_plob_version {F} p.
Arguments svg_data_written {F} p.

Section Writer.

(** Floats, [str] of an integer and of a float, and the truth value of a
    float. *)
Context {F : Type}.
Variable str_int : Z -> string.
Variable str_float : F -> string.
Variable float_true : F -> bool.

(** [str(v)]. *)
Definition py_str (v : Value F) : string :=
  match v with
  | VNone => "None"
  | VBool true => "True"
  | VBool false => "False"
  | VInt z => str_int z
  | VFloat f => str_float f
  | VStr s => s
  end.

(** The truth value of [v], as [if v:] takes it. *)
Definition truthy (v : Value F) : bool :=
  match v with
  | VNone => false
  | VBool b => b
  | VInt z => negb (z =? 0)%Z
  | VFloat f => float_true f
  | VStr s => negb (String.eqb s "")
  end.

(** Lines 565-581: the attributes of the new element.  [model] and
    [digest] are [options.model] and [options.digest], [PLOB_VERSION] is
    the constant of [path_objects] and [now] is [int(time.time())]. *)
Definition plotdata_node (model digest : Z) (PLOB_VERSION : string) (now : Z)
    (pr : Progress F) : gmap string string :=
  let data_node : gmap string string := ∅ in
  let data_node := <["application" := "axidraw"]> data_node in
  let data_node := <["model" := str_int model]> data_node in
  let data_node :=
    if negb (digest =? 0)%Z then <["plob_version" := PLOB_VERSION]> data_node
    else if truthy (svg_plob_version pr)
         then <["plob_version" := py_str (svg_plob_version pr)]> data_node
         else data_node in
  let data_node := <["layer" := py_str (svg_layer pr)]> data_node in
  let data_node := <["node" := py_str (svg_node_count pr)]> data_node in
  let data_node := <["last_path" := py_str (svg_last_path pr)]> data_node in
  let data_node := <["node_after_path" := py_str (svg_last_path_nc pr)]> data_node in
  let data_node := <["last_known_x" := py_str (svg_last_known_pos_x pr)]> data_node in
  let data_node := <["last_known_y" := py_str (svg_last_known_pos_y pr)]> data_node in
  let data_node := <["paused_x" := py_str (svg_paused_x pr)]> data_node in
  let data_node := <["paused_y" := py_str (svg_paused_y pr)]> data_node in
  let data_node := <["randseed" := py_str (svg_rand_seed pr)]> data_node in
  let data_node := <["row" := py_str (svg_row_old pr)]> data_node in
  <["id" := str_int now]> data_node.

(** [update_plotdata]: the first call of a run replaces every plotdata
    element of the document by a new one; later calls do nothing.  [doc]
    lists the plotdata elements of the document, in document order. *)
Definition update_plotdata (model digest : Z) (PLOB_VERSION : string) (now : Z)
    (pr : Progress F) (doc : list (gmap string string))
    : Progress F * list (gmap string string) :=
  if svg_data_written pr then (pr, doc)
  else
    ({| svg_layer := svg_layer pr; svg_node_count := svg_node_count pr;
        svg_last_path := svg_last_path pr; svg_last_path_nc := svg_last_path_nc pr;
        svg_last_known_pos_x := svg_last_known_pos_x pr;
        svg_last_known_pos_y := svg_last_known_pos_y pr;
        svg_paused_x := svg_paused_x pr; svg_paused_y := svg_paused_y pr;
        svg_rand_seed := svg_rand_seed pr; svg_row_old := svg_row_old pr;
        svg_plob_version := svg_plob_version pr;
        svg_data_written := true |},
     [plotdata_node model digest PLOB_VERSION now pr]).

End Writer.

(** [str] and [int] of integers in decimal notation, for the examples. *)
Definition decimal_str (z : Z) : string := NilZero.string_of_int (Z.to_int z).

Definition decimal_int (s : string) : option Z :=
  Z.of_int <$> NilZero.int_of_string s.

(** What a plot paused on layer 3 has to store; floats are whole numbers
    here. *)
Definition paused_progress : Progress Z :=
  {| svg_layer := VInt 3; svg_node_count := VInt 120;
     svg_last_path := VInt 7; svg_last_path_nc := VInt 110;
     svg_last_known_pos_x := VFloat 2%Z; svg_last_known_pos_y := VFloat 1%Z;
     svg_paused_x := VFloat 3%Z; svg_paused_y := VFloat 1%Z;
     svg_rand_seed := VInt 42; svg_row_old := VInt 0;
     svg_plob_version := VNone; svg_data_written := false |}.

(** Two damaged elements: one whose [layer] is not a number, and one that
    lost its [layer] but carries a [row]. *)
Definition garbled : gmap string string := <["layer" := "three"]> complete.

Definition unfinished : gmap string string :=
  <["row" := "4"]> (delete "layer" complete).

End Persist.
(** * Properties *)

Section PyFacts.

Local Open Scope R_scope.

Lemma bind_Ok {A B : Type} (m : result A) (k : A -> result B) (b : B) :
  (m ≫= k) = Ok b -> exists a, m = Ok a /\ k a = Ok b.
Proof. destruct m; simpl; intros H; try discriminate. eauto. Qed.

Lemma div_Ok (a b q : R) : Py.div a b = Ok q -> b <> 0 /\ q = a / b.
Proof. unfold Py.div. case_decide; intros E; [discriminate|]. by inversion E. Qed.

Lemma div_nonzero (a b : R) : b <> 0 -> Py.div a b = Ok (a / b).
Proof. intros H. unfold Py.div. by case_decide. Qed.



Lemma round_IZR (z : Z) : Py.round (IZR z) = z.
Proof.
  unfold Py.round. rewrite ZfloorZ. case_decide as H; [done|].
  exfalso. apply H. lra.
Qed.


(** A tie above an even integer goes down. *)
Lemma round_half_even (z : Z) : Z.even z = true -> Py.round (IZR z + 1 / 2) = z.
Proof.
  intros Hev. unfold Py.round.
  assert (Zfloor (IZR z + 1 / 2) = z) as -> by (apply Zfloor_eq; lra).
  repeat case_decide; try lra. by rewrite Hev.
Qed.

End PyFacts.

(** ** Step-scale round trip *)

Section KinematicsFacts.

Local Open Scope R_scope.
Import Kinematics.





End KinematicsFacts.

(** ** Pause/resume check *)

Section PauseFacts.

Local Open Scope Z_scope.
Import Pause.

Variables (op : Options.t) (su : Setup.t).

Lemma pause_res_check_stopped env st :
  stopped st > 0 -> pause_res_check op su env st = Ok st.
Proof. intros H. unfold pause_res_check. by case_decide. Qed.

Lemma request_pause_fields env st :
  let st' := request_pause su env st in
  node_count st' = node_count st /\ moves st' = moves st /\
  f_curr_x st' = f_curr_x st /\ f_curr_y st' = f_curr_y st /\
  (stopped st <= 0 -> stopped st' <= 0).
Proof.
  unfold request_pause. destruct (pause_request env), (Setup.delay_between_copies su);
    simpl; repeat split; lia.
Qed.

Lemma read_button_fields env st pressed st' :
  read_button op su env st = Ok (pressed, st') ->
  node_count st' = node_count st /\ moves st' = moves st /\
  f_curr_x st' = f_curr_x st /\ f_curr_y st' = f_curr_y st /\
  (stopped st <= 0 -> stopped st' <= 0).
Proof.
  unfold read_button. case_decide as Hc.
  - destruct (Options.preview op); [discriminate|].
    destruct (str_button env); intros [= <- <-]; simpl; repeat split; lia.
  - intros [= <- <-]. repeat split; lia.
Qed.

Lemma button_pause_fields pressed st :
  let st' := button_pause su pressed st in
  node_count st' = node_count st /\ moves st' = moves st /\
  f_curr_x st' = f_curr_x st /\ f_curr_y st' = f_curr_y st /\
  (stopped st <= 0 -> stopped st' <= 0).
Proof.
  unfold button_pause. case_decide; [destruct (Setup.delay_between_copies su)|];
    simpl; repeat split; lia.
Qed.

Lemma skip_to_target_fields st :
  let st' := skip_to_target op su st in
  node_count st <= node_count st' /\ moves st' = moves st /\
  f_curr_x st' = f_curr_x st /\ f_curr_y st' = f_curr_y st /\
  stopped st' = stopped st /\
  (stopped st = 0 -> node_count st' = node_count st).
Proof.
  unfold skip_to_target. repeat case_decide; simpl; repeat split; lia.
Qed.

Lemma pen_raise_fields st :
  node_count (pen_raise st) = node_count st /\ moves (pen_raise st) = moves st /\
  stopped (pen_raise st) = stopped st /\
  f_curr_x (pen_raise st) = f_curr_x st /\ f_curr_y (pen_raise st) = f_curr_y st.
Proof. unfold pen_raise. destruct (resume_mode st); simpl; done. Qed.

Lemma pen_lower_fields st :
  node_count (pen_lower st) = node_count st /\ moves (pen_lower st) = moves st /\
  stopped (pen_lower st) = stopped st /\
  f_curr_x (pen_lower st) = f_curr_x st /\ f_curr_y (pen_lower st) = f_curr_y st.
Proof. unfold pen_lower. destruct (resume_mode st); simpl; done. Qed.

Lemma enter_pause_fields st st' :
  enter_pause su st = Ok st' ->
  node_count st' = node_count st /\ moves st' = moves st /\
  f_curr_x st' = f_curr_x st /\ f_curr_y st' = f_curr_y st /\
  stopped st' = - stopped st.
Proof.
  unfold enter_pause. destruct (f_curr_x st) eqn:Hx; [|discriminate].
  intros [= <-]. simpl.
  destruct (pen_raise_fields (set_paused (node_count st)
    (r - (Setup.pt_first su).1)%R (f_curr_y st - (Setup.pt_first su).2)%R st))
    as (-> & -> & -> & -> & ->).
  simpl. by rewrite Hx.
Qed.

Lemma count_node_fields st :
  let st' := count_node su st in
  node_count st' = node_count st + 1 /\ moves st' = moves st /\
  f_curr_x st' = f_curr_x st /\ f_curr_y st' = f_curr_y st /\
  stopped st' = stopped st.
Proof.
  unfold count_node. simpl.
  destruct (resume_mode st); [|done].
  case_decide; [|done]. destruct (virtual_pen_up st); [done|].
  match goal with |- context [pen_lower ?s] =>
    destruct (pen_lower_fields s) as (-> & -> & -> & -> & ->) end.
  done.
Qed.

(** What one consultation does to the fields the plot depends on. *)
Lemma pause_res_check_fields env st st' :
  pause_res_check op su env st = Ok st' ->
  moves st' = moves st /\
  f_curr_x st' = f_curr_x st /\ f_curr_y st' = f_curr_y st /\
  node_count st <= node_count st' /\
  (stopped st' = 0 -> node_count st' = node_count st + 1) /\
  (stopped st > 0 -> st' = st) /\
  (stopped st <= 0 -> stopped st' <> 0 -> stopped st' > 0).
Proof.
  unfold pause_res_check. case_decide as Hpos.
  { intros [= <-]. repeat split; try done; lia. }
  intros Hrun. apply bind_Ok in Hrun as ([pressed st1] & Hb & Hrun).
  pose proof (request_pause_fields env st) as (Hn0 & Hm0 & Hx0 & Hy0 & Hs0).
  apply read_button_fields in Hb as (Hn1 & Hm1 & Hx1 & Hy1 & Hs1).
  pose proof (button_pause_fields pressed st1) as (Hn2 & Hm2 & Hx2 & Hy2 & Hs2).
  pose proof (skip_to_target_fields (button_pause su pressed st1))
    as (Hn3 & Hm3 & Hx3 & Hy3 & Hs3 & Hk3).
  simpl in *.
  set (st3 := skip_to_target op su (button_pause su pressed st1)) in *.
  case_decide as Hneg.
  - apply enter_pause_fields in Hrun as (Hn4 & Hm4 & Hx4 & Hy4 & Hs4).
    repeat split; try congruence; try lia.
  - injection Hrun as <-.
    pose proof (count_node_fields st3) as (Hn4 & Hm4 & Hx4 & Hy4 & Hs4).
    simpl in *.
    assert (stopped st3 = 0) as Hz by lia.
    repeat split; try congruence; try lia.
Qed.

End PauseFacts.
(** ** Segment executor: what a call leaves untouched *)

Section SegmentFrame.

Import Pause Segment.

Variables (pa : Params.t) (op : Options.t) (su : Setup.t).

Lemma apply_move_fields mv st st' :
  apply_move op su mv st = Ok st' ->
  node_count st' = node_count st /\ stopped st' = stopped st /\
  resume_mode st' = resume_mode st /\
  (stopped st <> 0%Z \/ resume_mode st = true -> st' = st).
Proof.
  unfold apply_move. case_decide as Hnz; [|by intros [= <-]].
  intros H. apply bind_Ok in H as (d1 & _ & H). apply bind_Ok in H as (d2 & _ & H).
  simpl in H.
  destruct (resume_mode st) eqn:Hr; simpl in H.
  { injection H as <-. by rewrite Hr. }
  case_bool_decide as Hs; simpl in H.
  - destruct (f_curr_x st); [|discriminate]. injection H as <-.
    destruct (Options.preview op); simpl; rewrite ?Hr;
      (repeat split; [intros [?|?]; done]).
  - injection H as <-. by rewrite Hr.
Qed.

Lemma emit_fields fuel dest2 durs todo index cu st cu' st' :
  emit fuel pa op su dest2 durs todo index cu st = Ok (cu', st') ->
  node_count st' = node_count st /\ stopped st' = stopped st /\
  resume_mode st' = resume_mode st /\
  (stopped st <> 0%Z \/ resume_mode st = true -> st' = st).
Proof.
  revert index cu st. induction todo as [|d todo IH]; intros index cu st; simpl.
  { by intros [= <- <-]. }
  intros H. apply bind_Ok in H as (d2 & _ & H). apply bind_Ok in H as (du & _ & H).
  apply bind_Ok in H as (mv & _ & H). apply bind_Ok in H as (st1 & Ha & H).
  apply apply_move_fields in Ha as (Hn & Hs & Hr & Hid).
  apply IH in H as (Hn' & Hs' & Hr' & Hid').
  repeat split; try congruence.
  intros Hc. rewrite Hid' by (rewrite Hs, Hr; done). by apply Hid.
Qed.

Lemma check_bounds_fields il x y st x' y' st' :
  check_bounds pa su il x y st = (x', y', st') ->
  node_count st' = node_count st /\ stopped st' = stopped st /\
  resume_mode st' = resume_mode st /\ moves st' = moves st /\
  f_curr_x st' = f_curr_x st /\ f_curr_y st' = f_curr_y st /\
  pen_up st' = pen_up st.
Proof.
  unfold check_bounds. destruct il; [by intros [= <- <- <-]|].
  destruct (checkLimitsTol x _ _ _) as [x1 bx], (checkLimitsTol y _ _ _) as [y1 by_].
  intros [= <- <- <-]. by destruct (bx || by_).
Qed.

(** A call of the executor changes [node_count] and [stopped] only
    through its pause check, and sends nothing when that check leaves the
    plot stopped. *)
Lemma plot_seg_with_v_frame fuel env st x y vi vf il st' :
  plot_seg_with_v fuel pa op su env st x y vi vf il = Ok st' ->
  exists st1,
    pause_res_check op su env st = Ok st1 /\
    node_count st' = node_count st1 /\ stopped st' = stopped st1 /\
    (stopped st1 <> 0%Z -> st' = set_copies_to_plot 0 st1).
Proof.
  unfold plot_seg_with_v. intros H. apply bind_Ok in H as (st1 & Hp & H).
  exists st1. split; [done|].
  destruct (f_curr_x st1) as [fx|]; [|discriminate].
  case_decide as Hs. { by injection H as <-. }
  destruct (check_bounds pa su il x y st1) as [[x' y'] st2] eqn:Hcb.
  apply check_bounds_fields in Hcb as (Hn & Hs2 & _).
  apply bind_Ok in H as ([dxr dyr] & _ & H).
  case_decide as Hsmall. { injection H as <-. done. }
  apply bind_Ok in H as ([[durs d1] d2] & _ & H).
  apply bind_Ok in H as ([cu st3] & He & H). injection H as <-.
  apply emit_fields in He as (Hn3 & Hs3 & _).
  repeat split; try congruence.
Qed.

Lemma plot_seg_with_v_stopped fuel env st x y vi vf il :
  (stopped st > 0)%Z -> f_curr_x st <> None ->
  plot_seg_with_v fuel pa op su env st x y vi vf il = Ok (set_copies_to_plot 0 st).
Proof.
  intros Hs Hx. unfold plot_seg_with_v.
  rewrite pause_res_check_stopped by done. simpl.
  destruct (f_curr_x st); [|done]. case_decide; [done|lia].
Qed.

Lemma plot_segments_stopped fuel calls st :
  (stopped st > 0)%Z -> f_curr_x st <> None ->
  exists st',
    plot_segments fuel pa op su calls st = Ok st' /\
    moves st' = moves st /\ stopped st' = stopped st.
Proof.
  revert st. induction calls as [|[env sg] calls IH]; intros st Hs Hx; simpl.
  { by exists st. }
  rewrite plot_seg_with_v_stopped by done. simpl.
  destruct (IH (set_copies_to_plot 0 st)) as (st' & Hrun & Hm & Hst); [done..|].
  by exists st'.
Qed.

End SegmentFrame.
(** ** Pause ordering and node counting *)

Section PauseTheorems.

Import Pause Segment.
Local Open Scope Z_scope.

(** C4: once [stopped] is positive no further timed XY move is sent.  From
    a stopped state with a known position, any sequence of segment calls
    runs to completion, leaves the list of sent moves as it was and leaves
    [stopped] unchanged.  The three mechanisms: the pause check returns the
    state untouched; the executor returns on entry (it only clears
    [copies_to_plot]); and the per-interval guard sends nothing when
    [stopped] is not 0. *)
Theorem stopped_sends_no_moves (fuel : nat) (pa : Params.t) (op : Options.t)
    (su : Setup.t) (calls : list (Env * Planner.Segment)) (st : State) :
  stopped st > 0 -> f_curr_x st <> None ->
  (exists st',
      plot_segments fuel pa op su calls st = Ok st' /\
      moves st' = moves st /\ stopped st' = stopped st) /\
  (forall env, pause_res_check op su env st = Ok st) /\
  (forall env x y vi vf il,
      plot_seg_with_v fuel pa op su env st x y vi vf il = Ok (set_copies_to_plot 0 st)) /\
  (forall mv st', apply_move op su mv st = Ok st' -> st' = st).
Proof.
  intros Hs Hx. repeat split.
  - by apply plot_segments_stopped.
  - intros env. by apply pause_res_check_stopped.
  - intros. by apply plot_seg_with_v_stopped.
  - intros mv st' H. apply apply_move_fields in H as (_ & _ & _ & Hid).
    apply Hid. left. lia.
Qed.

Lemma stopped_sends_no_moves_witness :
  exists st',
    plot_segments 0 Scenario.params Scenario.options Scenario.setup
      [(Scenario.quiet, {| Planner.x_dest := 1; Planner.y_dest := 1;
                           Planner.v_i := 0; Planner.v_f := 0 |})]
      Scenario.paused = Ok st' /\
    moves st' = moves Scenario.paused /\ stopped st' = stopped Scenario.paused.
Proof.
  apply (stopped_sends_no_moves 0 Scenario.params Scenario.options Scenario.setup
           [(Scenario.quiet, {| Planner.x_dest := 1; Planner.y_dest := 1;
                                Planner.v_i := 0; Planner.v_f := 0 |})]
           Scenario.paused).
  - simpl. lia.
  - simpl. discriminate.
Defined.

(** C5 (as stated, refuted): a consultation of a stopped plot returns at
    once and leaves [node_count] at 5. *)
Lemma consultation_not_always_counted :
  ~ (forall op su env st st',
        pause_res_check op su env st = Ok st' ->
        node_count st' = node_count st + 1).
Proof.
  intros H.
  specialize (H Scenario.options Scenario.setup Scenario.quiet
                Scenario.paused Scenario.paused).
  rewrite pause_res_check_stopped in H by (simpl; lia).
  specialize (H eq_refl). simpl in H. lia.
Qed.

(** C5 (amended): a consultation never lowers [node_count]; it adds exactly
    1 when the plot is running after the check, and adds nothing when the
    plot was already stopped.  A segment call moves [node_count] exactly as
    its consultation does, so each call that leaves the plot running,
    whether it sends moves or skips them, counts one node. *)
Theorem node_count_step (op : Options.t) (su : Setup.t) (env : Env) (st st' : State) :
  pause_res_check op su env st = Ok st' ->
  node_count st <= node_count st' /\
  (stopped st' = 0 -> node_count st' = node_count st + 1) /\
  (stopped st > 0 -> node_count st' = node_count st) /\
  (forall fuel pa x y vi vf il st'',
      plot_seg_with_v fuel pa op su env st x y vi vf il = Ok st'' ->
      node_count st'' = node_count st' /\ stopped st'' = stopped st').
Proof.
  intros Hp.
  pose proof (pause_res_check_fields op su env st st' Hp)
    as (_ & _ & _ & Hle & Hrun & Hst & _).
  repeat split; try done.
  - intros Hs. by rewrite (Hst Hs).
  - apply plot_seg_with_v_frame in H as (st1 & Hp1 & Hn & _).
    congruence.
  - apply plot_seg_with_v_frame in H as (st1 & Hp1 & _ & Hs & _).
    congruence.
Qed.

Lemma node_count_step_witness :
  pause_res_check Scenario.options Scenario.setup Scenario.quiet Scenario.running
    = Ok (count_node Scenario.setup Scenario.running) /\
  node_count Scenario.running <= node_count (count_node Scenario.setup Scenario.running) /\
  (stopped (count_node Scenario.setup Scenario.running) = 0 ->
   node_count (count_node Scenario.setup Scenario.running)
     = node_count Scenario.running + 1).
Proof.
  assert (Hrun : pause_res_check Scenario.options Scenario.setup Scenario.quiet
                   Scenario.running
                 = Ok (count_node Scenario.setup Scenario.running)) by reflexivity.
  split; [exact Hrun|].
  destruct (node_count_step Scenario.options Scenario.setup Scenario.quiet
              Scenario.running _ Hrun) as (H1 & H2 & _).
  split; [exact H1 | exact H2].
Defined.

End PauseTheorems.
(** ** Per-interval emission *)

Section EmissionFacts.

Import Segment.
Local Open Scope Z_scope.

Lemma overspeed_Ok fuel rate m1 m2 t t' :
  overspeed fuel rate m1 m2 t = Ok t' ->
  t <= t' /\ (step_rate m1 t' < rate)%Q /\ (step_rate m2 t' < rate)%Q.
Proof.
  revert t. induction fuel as [|fuel IH]; intros t; simpl.
  - case_decide as Hc; [discriminate|]. intros [= <-].
    split; [lia|]. split; apply Qnot_le_lt; intros Hle; apply Hc; auto.
  - case_decide as Hc.
    + intros H. apply IH in H. split; [lia|tauto].
    + intros [= <-].
      split; [lia|]. split; apply Qnot_le_lt; intros Hle; apply Hc; auto.
Qed.

Lemma step_rate_ge_bound (rate : Q) (m t : Z) :
  (0 < rate)%Q -> 1 <= t -> (step_rate m t >= rate)%Q ->
  t <= Z.abs m * Z.pos (Qden rate).
Proof.
  destruct rate as [rn rd]. unfold step_rate, Qlt, Qle. simpl.
  intros Hpos Ht Hle. rewrite Z2Pos.id in Hle by lia. nia.
Qed.

(** With a positive rate limit the wait loop stops: fuel beyond
    [max |m1| |m2| * den + 1 - t] is never used up. *)
Lemma overspeed_terminates (rate : Q) (m1 m2 t : Z) :
  (0 < rate)%Q -> 1 <= t ->
  forall fuel,
    (Z.to_nat (Z.max (Z.abs m1) (Z.abs m2) * Z.pos (Qden rate) + 1 - t) <= fuel)%nat ->
    exists t', overspeed fuel rate m1 m2 t = Ok t'.
Proof.
  intros Hpos Ht fuel. revert t Ht.
  induction fuel as [|fuel IH]; intros t Ht Hfuel; simpl.
  - case_decide as Hc; [|eauto]. exfalso.
    destruct Hc as [Hc|Hc]; apply step_rate_ge_bound in Hc; try done; nia.
  - case_decide as Hc; [|eauto].
    apply IH; [lia|].
    destruct Hc as [Hc|Hc]; apply step_rate_ge_bound in Hc; try done; nia.
Qed.

Lemma interval_move_Ok fuel rate cu dest1 dest2 duration mv :
  interval_move fuel rate cu dest1 dest2 duration = Ok mv ->
  within_rate rate mv /\
  Z.max (duration - prev_time cu) 1 <= move_time mv /\
  kept_or_dropped (dest1 - prev_motor1 cu) (move_steps1 mv)
    (Z.max (duration - prev_time cu) 1) /\
  kept_or_dropped (dest2 - prev_motor2 cu) (move_steps2 mv)
    (Z.max (duration - prev_time cu) 1).
Proof.
  unfold interval_move. intros H. apply bind_Ok in H as (t' & Ho & H).
  injection H as <-. simpl.
  apply overspeed_Ok in Ho as (Hle & H1 & H2).
  unfold within_rate, kept_or_dropped. simpl.
  repeat split; try done; try lia; repeat case_decide; auto.
Qed.

Lemma interval_move_terminates rate cu dest1 dest2 duration :
  (0 < rate)%Q ->
  exists n, forall fuel, (n <= fuel)%nat ->
    exists mv, interval_move fuel rate cu dest1 dest2 duration = Ok mv.
Proof.
  intros Hpos. unfold interval_move.
  set (t := Z.max (duration - prev_time cu) 1).
  set (m1 := if decide (step_rate (dest1 - prev_motor1 cu) t < 0.002)%Q
             then 0 else dest1 - prev_motor1 cu).
  set (m2 := if decide (step_rate (dest2 - prev_motor2 cu) t < 0.002)%Q
             then 0 else dest2 - prev_motor2 cu).
  exists (Z.to_nat (Z.max (Z.abs m1) (Z.abs m2) * Z.pos (Qden rate) + 1 - t)).
  intros fuel Hfuel.
  destruct (overspeed_terminates rate m1 m2 t Hpos ltac:(lia) fuel Hfuel) as [t' Ht'].
  rewrite Ht'. simpl. eauto.
Qed.

Variables (pa : Params.t) (op : Options.t) (su : Setup.t).

Lemma apply_move_log mv st st' :
  apply_move op su mv st = Ok st' ->
  (moves st' = moves st \/ moves st' = moves st ++ [mv]) /\
  (sending op st ->
   sending op st' /\
   sum_steps1 (moves st') = sum_steps1 (moves st) + move_steps1 mv /\
   sum_steps2 (moves st') = sum_steps2 (moves st) + move_steps2 mv).
Proof.
  unfold apply_move, sending. case_decide as Hnz.
  - intros H. apply bind_Ok in H as (d1 & _ & H). apply bind_Ok in H as (d2 & _ & H).
    simpl in H. destruct (resume_mode st) eqn:Hr; simpl in H.
    { injection H as <-. split; [auto|]. intros (_ & ? & _). congruence. }
    case_bool_decide as Hs; simpl in H.
    + destruct (f_curr_x st); [|discriminate]. injection H as <-.
      destruct (Options.preview op) eqn:Hp; simpl.
      * split; [auto|]. intros (_ & _ & ?). congruence.
      * split; [auto|]. intros _. rewrite Hr.
        unfold sum_steps1, sum_steps2. rewrite !foldr_app. simpl.
        repeat split; try done.
        -- generalize (moves st). intros l. induction l as [|m l IHl]; simpl; lia.
        -- generalize (moves st). intros l. induction l as [|m l IHl]; simpl; lia.
    + injection H as <-. split; [auto|]. intros (? & _). congruence.
  - intros [= <-]. split; [auto|]. intros Hs. split; [done|].
    assert (move_steps1 mv = 0 /\ move_steps2 mv = 0) as [-> ->]; [|lia].
    split; apply dec_stable; intros Hne; apply Hnz; auto.
Qed.

(** The moves added by the loop all come from [interval_move], and while
    the plot is sending the cursor advances by exactly their sums. *)
Lemma emit_log fuel dest2 durs todo index cu st cu' st' :
  emit fuel pa op su dest2 durs todo index cu st = Ok (cu', st') ->
  (exists new, moves st' = moves st ++ new /\
               Forall (within_rate (Params.max_step_rate pa)) new) /\
  (sending op st ->
   sending op st' /\
   prev_motor1 cu' - prev_motor1 cu = sum_steps1 (moves st') - sum_steps1 (moves st) /\
   prev_motor2 cu' - prev_motor2 cu = sum_steps2 (moves st') - sum_steps2 (moves st)).
Proof.
  revert index cu st. induction todo as [|d todo IH]; intros index cu st; simpl.
  { intros [= <- <-]. split.
    - exists []. by rewrite app_nil_r.
    - intros Hs. repeat split; try apply Hs; lia. }
  intros H. apply bind_Ok in H as (d2 & _ & H). apply bind_Ok in H as (du & _ & H).
  apply bind_Ok in H as (mv & Hmv & H). apply bind_Ok in H as (st1 & Ha & H).
  apply interval_move_Ok in Hmv as (Hok & _).
  apply apply_move_log in Ha as (Hlog & Hsend).
  apply IH in H as ((new & Hnew & Hall) & Hsend'). split.
  - destruct Hlog as [Hlog|Hlog]; rewrite Hnew, Hlog.
    + by exists new.
    + exists (mv :: new). rewrite <- app_assoc. split; [done|]. by constructor.
  - intros Hs. destruct (Hsend Hs) as (Hs1 & H1 & H2).
    destruct (Hsend' Hs1) as (Hs2 & H3 & H4). simpl in H3, H4.
    repeat split; try apply Hs2; lia.
Qed.

(** Where the cursor stands when the loop ends: on the last target of each
    axis, unless the too-slow rule dropped what was left in the last
    interval. *)
Lemma emit_last fuel dest2 durs todo index cu st cu' st' last1 last2 :
  emit fuel pa op su dest2 durs todo index cu st = Ok (cu', st') ->
  last todo = Some last1 ->
  dest2 !! (index + length todo - 1)%nat = Some last2 ->
  exists time,
    1 <= time /\
    (prev_motor1 cu' = last1 \/ (step_rate (last1 - prev_motor1 cu') time < 0.002)%Q) /\
    (prev_motor2 cu' = last2 \/ (step_rate (last2 - prev_motor2 cu') time < 0.002)%Q).
Proof.
  revert index cu st. induction todo as [|d todo IH]; intros index cu st; [done|].
  simpl. intros H Hl1 Hl2.
  apply bind_Ok in H as (d2 & Hd2 & H). apply bind_Ok in H as (du & _ & H).
  apply bind_Ok in H as (mv & Hmv & H). apply bind_Ok in H as (st1 & _ & H).
  destruct todo as [|d' todo].
  - simpl in H. injection H as <- <-. injection Hl1 as <-.
    simpl in Hl2. replace (index + 1 - 1)%nat with index in Hl2 by lia.
    unfold Py.index in Hd2.
    rewrite Hl2 in Hd2. injection Hd2 as <-.
    apply interval_move_Ok in Hmv as (_ & _ & [H1|[H1 H1']] & [H2|[H2 H2']]);
      exists (Z.max (du - prev_time cu) 1); simpl; rewrite ?H1, ?H2, ?Z.add_0_r;
      (split; [lia|]); split; auto; left; lia.
  - eapply IH; [exact H|exact Hl1|].
    rewrite <- Hl2. f_equal. simpl. lia.
Qed.

End EmissionFacts.
Section ScheduleFacts.

Import Segment.
Local Open Scope Z_scope.

Variables (pa : Params.t) (op : Options.t) (su : Setup.t).
Variables (fuel : nat) (dest2 durs : list Z).

Lemma sum_steps1_app l1 l2 : sum_steps1 (l1 ++ l2) = sum_steps1 l1 + sum_steps1 l2.
Proof. induction l1 as [|m l1 IH]; simpl; [done|]. unfold sum_steps1 in *. simpl. lia. Qed.

Lemma sum_steps2_app l1 l2 : sum_steps2 (l1 ++ l2) = sum_steps2 l1 + sum_steps2 l2.
Proof. induction l1 as [|m l1 IH]; simpl; [done|]. unfold sum_steps2 in *. simpl. lia. Qed.

(** The loop and its schedule agree: the cursor ends at the start value
    plus everything the schedule applied. *)
Lemma emit_schedule todo index cu st cu' st' :
  emit fuel pa op su dest2 durs todo index cu st = Ok (cu', st') ->
  exists mvs,
    schedule fuel (Params.max_step_rate pa) dest2 durs todo index cu = Ok mvs /\
    length mvs = length todo /\
    prev_motor1 cu' = prev_motor1 cu + sum_steps1 mvs /\
    prev_motor2 cu' = prev_motor2 cu + sum_steps2 mvs.
Proof.
  revert index cu st. induction todo as [|d todo IH]; intros index cu st; simpl.
  { intros [= <- <-]. exists []. repeat split; simpl; lia. }
  intros H. apply bind_Ok in H as (d2 & Hd2 & H). apply bind_Ok in H as (du & Hdu & H).
  apply bind_Ok in H as (mv & Hmv & H). apply bind_Ok in H as (st1 & _ & H).
  apply IH in H as (mvs & Hs & Hlen & H1 & H2).
  exists (mv :: mvs). rewrite Hd2; simpl. rewrite Hdu; simpl. rewrite Hmv; simpl.
  rewrite Hs; simpl.
  simpl in *. unfold sum_steps1, sum_steps2 in *. simpl.
  repeat split; try lia.
Qed.

(** The loop over a list is the loop over a prefix followed by the loop
    over the rest. *)
Lemma emit_split todo1 todo2 index cu st r :
  emit fuel pa op su dest2 durs (todo1 ++ todo2) index cu st = Ok r ->
  exists cu1 st1,
    emit fuel pa op su dest2 durs todo1 index cu st = Ok (cu1, st1) /\
    emit fuel pa op su dest2 durs todo2 (index + length todo1) cu1 st1 = Ok r.
Proof.
  revert index cu st. induction todo1 as [|d todo1 IH]; intros index cu st; simpl.
  { intros H. exists cu, st. by rewrite Nat.add_0_r. }
  intros H. apply bind_Ok in H as (d2 & Hd2 & H). apply bind_Ok in H as (du & Hdu & H).
  apply bind_Ok in H as (mv & Hmv & H). apply bind_Ok in H as (st1 & Ha & H).
  apply IH in H as (cu1 & st2 & He & H).
  exists cu1, st2. rewrite Hd2; simpl. rewrite Hdu; simpl. rewrite Hmv; simpl.
  rewrite Ha; simpl. split; [done|]. rewrite <- H. f_equal. lia.
Qed.

Lemma emit_schedule_split todo1 todo2 index cu st r :
  emit fuel pa op su dest2 durs (todo1 ++ todo2) index cu st = Ok r ->
  exists cu1 st1 mvs1 mvs2,
    emit fuel pa op su dest2 durs todo1 index cu st = Ok (cu1, st1) /\
    emit fuel pa op su dest2 durs todo2 (index + length todo1) cu1 st1 = Ok r /\
    schedule fuel (Params.max_step_rate pa) dest2 durs todo1 index cu = Ok mvs1 /\
    schedule fuel (Params.max_step_rate pa) dest2 durs todo2 (index + length todo1) cu1
      = Ok mvs2 /\
    schedule fuel (Params.max_step_rate pa) dest2 durs (todo1 ++ todo2) index cu
      = Ok (mvs1 ++ mvs2) /\
    length mvs1 = length todo1.
Proof.
  revert index cu st. induction todo1 as [|d todo1 IH]; intros index cu st; simpl.
  { intros H. destruct r as [cu' st']. rewrite Nat.add_0_r.
    pose proof H as H0. apply emit_schedule in H0 as (mvs & Hs & _).
    exists cu, st, [], mvs. by rewrite Hs. }
  intros H. apply bind_Ok in H as (d2 & Hd2 & H). apply bind_Ok in H as (du & Hdu & H).
  apply bind_Ok in H as (mv & Hmv & H). apply bind_Ok in H as (st1 & Ha & H).
  apply IH in H as (cu1 & st2 & mvs1 & mvs2 & He1 & He2 & Hs1 & Hs2 & Hs & Hlen).
  replace (S index + length todo1)%nat with (index + S (length todo1))%nat
    in He2, Hs2 by lia.
  exists cu1, st2, (mv :: mvs1), mvs2.
  rewrite Hd2; simpl. rewrite Hdu; simpl. rewrite Hmv; simpl. rewrite Ha; simpl.
  rewrite Hs1, Hs; simpl. by rewrite Hlen.
Qed.

Lemma apply_move_total mv st :
  Setup.step_scale su <> 0%R -> f_curr_x st <> None ->
  exists st', apply_move op su mv st = Ok st' /\ f_curr_x st' <> None.
Proof.
  intros Hs Hx. unfold apply_move. case_decide; [|by exists st].
  rewrite !div_nonzero by lra. simpl.
  destruct (negb (resume_mode st) && bool_decide (stopped st = 0)); [|by exists st].
  destruct (f_curr_x st); [|done]. eexists. split; [done|].
  by destruct (Options.preview op).
Qed.

(** With a step scale and a known position the loop runs whenever its
    schedule can be computed. *)
Lemma emit_total todo index cu st mvs :
  schedule fuel (Params.max_step_rate pa) dest2 durs todo index cu = Ok mvs ->
  Setup.step_scale su <> 0%R -> f_curr_x st <> None ->
  exists cu' st', emit fuel pa op su dest2 durs todo index cu st = Ok (cu', st').
Proof.
  intros H Hs. revert index cu st mvs H.
  induction todo as [|d todo IH]; intros index cu st mvs H Hx; simpl in *; [eauto|].
  apply bind_Ok in H as (d2 & Hd2 & H). apply bind_Ok in H as (du & Hdu & H).
  apply bind_Ok in H as (mv & Hmv & H). apply bind_Ok in H as (rest & Hr & H).
  rewrite Hd2; simpl. rewrite Hdu; simpl. rewrite Hmv; simpl.
  destruct (apply_move_total mv st Hs Hx) as (st1 & -> & Hx1). simpl.
  by eapply IH.
Qed.

End ScheduleFacts.

(** ** Cursor of the emission loop *)

Section CursorTheorem.

Import Segment.
Local Open Scope Z_scope.

(** C9: in the emission loop the cursor [prev_motor1], [prev_motor2] is,
    after each iteration, the start value plus the sum of the step deltas
    applied so far; the delta requested in iteration [k] is the target
    minus that cursor, and what is applied is the request or, if it is too
    slow, nothing: steps dropped by the too-slow rule stay in the request
    of the next iteration. *)
Theorem cursor_tracks_applied_steps (fuel : nat) (pa : Params.t) (op : Options.t)
    (su : Setup.t) (dest2 durs todo : list Z) (index : nat) (cu cu' : Cursor)
    (st st' : State) :
  emit fuel pa op su dest2 durs todo index cu st = Ok (cu', st') ->
  exists mvs,
    schedule fuel (Params.max_step_rate pa) dest2 durs todo index cu = Ok mvs /\
    length mvs = length todo /\
    prev_motor1 cu' = prev_motor1 cu + sum_steps1 mvs /\
    prev_motor2 cu' = prev_motor2 cu + sum_steps2 mvs /\
    forall k, (k <= length todo)%nat ->
      exists cu_k st_k,
        emit fuel pa op su dest2 durs (take k todo) index cu st = Ok (cu_k, st_k) /\
        prev_motor1 cu_k = prev_motor1 cu + sum_steps1 (take k mvs) /\
        prev_motor2 cu_k = prev_motor2 cu + sum_steps2 (take k mvs) /\
        forall a b du mv,
          todo !! k = Some a -> dest2 !! (index + k)%nat = Some b ->
          durs !! (index + k)%nat = Some du -> mvs !! k = Some mv ->
          interval_move fuel (Params.max_step_rate pa) cu_k a b du = Ok mv /\
          kept_or_dropped (a - prev_motor1 cu_k) (move_steps1 mv)
            (Z.max (du - prev_time cu_k) 1) /\
          kept_or_dropped (b - prev_motor2 cu_k) (move_steps2 mv)
            (Z.max (du - prev_time cu_k) 1).
Proof.
  intros H. pose proof H as H0.
  apply emit_schedule in H0 as (mvs & Hs & Hlen & H1 & H2).
  exists mvs. split_and!; try done.
  intros k Hk. rewrite <- (take_drop k todo) in H.
  apply emit_schedule_split in H
    as (cu1 & st1 & mvs1 & mvs2 & He1 & He2 & Hs1 & Hs2 & Hs12 & Hl1).
  rewrite take_drop, Hs in Hs12. injection Hs12 as ->.
  rewrite length_take in Hl1, He2, Hs2.
  replace (k `min` length todo)%nat with k in * by lia.
  exists cu1, st1. split; [done|].
  pose proof He1 as He1'.
  apply emit_schedule in He1' as (mvs1' & Hs1' & _ & H1' & H2').
  rewrite Hs1 in Hs1'. injection Hs1' as <-.
  rewrite take_app_length' by lia. split_and!; try done.
  intros a b du mv Ha Hb Hdu Hmv.
  rewrite (drop_S _ _ _ Ha) in Hs2. simpl in Hs2.
  apply bind_Ok in Hs2 as (b' & Hb' & Hs2). apply bind_Ok in Hs2 as (du' & Hdu' & Hs2).
  apply bind_Ok in Hs2 as (mv' & Hmv' & Hs2). apply bind_Ok in Hs2 as (rest & _ & Hs2).
  injection Hs2 as <-.
  unfold Py.index in Hb', Hdu'. rewrite Hb in Hb'. rewrite Hdu in Hdu'.
  injection Hb' as <-. injection Hdu' as <-.
  rewrite lookup_app_r, Hl1, Nat.sub_diag in Hmv by lia. injection Hmv as <-.
  split; [done|].
  apply interval_move_Ok in Hmv' as (_ & _ & Hk1 & Hk2). done.
Qed.

Lemma cursor_tracks_applied_steps_witness :
  exists mvs,
    schedule 0 (Params.max_step_rate Scenario.params) [1; 1] [600; 1100] [2; 200] 0
      {| prev_motor1 := 0; prev_motor2 := 0; prev_time := 0 |} = Ok mvs /\
    mvs = [ {| move_steps2 := 0; move_steps1 := 2; move_time := 600 |};
            {| move_steps2 := 1; move_steps1 := 198; move_time := 500 |} ].
Proof.
  destruct (emit_total Scenario.params Scenario.options Scenario.setup 0
              [1; 1] [600; 1100] [2; 200] 0
              {| prev_motor1 := 0; prev_motor2 := 0; prev_time := 0 |}
              Scenario.running
              [ {| move_steps2 := 0; move_steps1 := 2; move_time := 600 |};
                {| move_steps2 := 1; move_steps1 := 198; move_time := 500 |} ])
    as (cu' & st' & He).
  - vm_compute. reflexivity.
  - simpl. lra.
  - simpl. discriminate.
  - destruct (cursor_tracks_applied_steps _ _ _ _ _ _ _ _ _ _ _ _ He) as (mvs & Hs & _).
    exists mvs. split; [exact Hs|]. vm_compute in Hs. by injection Hs.
Defined.

End CursorTheorem.
(** ** Rate limits *)

Section RateTheorem.

Import Pause Segment.
Local Open Scope Z_scope.

Lemma plot_seg_with_v_moves fuel pa op su env st x y vi vf il st' :
  plot_seg_with_v fuel pa op su env st x y vi vf il = Ok st' ->
  exists new, moves st' = moves st ++ new /\
              Forall (within_rate (Params.max_step_rate pa)) new.
Proof.
  unfold plot_seg_with_v. intros H. apply bind_Ok in H as (st1 & Hp & H).
  apply pause_res_check_fields in Hp as (Hm & _).
  assert (Hnil : forall s, moves s = moves st1 ->
            exists new, moves s = moves st ++ new /\
                        Forall (within_rate (Params.max_step_rate pa)) new).
  { intros s Hs. exists []. by rewrite app_nil_r, Hs. }
  destruct (f_curr_x st1) as [fx|]; [|discriminate].
  case_decide as Hs. { injection H as <-. by apply Hnil. }
  destruct (check_bounds pa su il x y st1) as [[x' y'] st2] eqn:Hcb.
  apply check_bounds_fields in Hcb as (_ & _ & _ & Hm2 & _).
  apply bind_Ok in H as ([dxr dyr] & _ & H).
  case_decide as Hsmall. { injection H as <-. apply Hnil. done. }
  apply bind_Ok in H as ([[durs d1] d2] & _ & H).
  apply bind_Ok in H as ([cu st3] & He & H). injection H as <-.
  apply emit_log in He as ((new & Hnew & Hall) & _).
  exists new. split; [congruence|done].
Qed.

(** C6: every move sent lasts at least 1 ms and keeps both axes below
    [max_step_rate]; with a positive limit the loop that adds 1 ms at a time
    stops, whatever steps and duration it starts from, and never shortens
    the interval. *)
Theorem moves_within_rate (pa : Params.t) :
  (0 < Params.max_step_rate pa)%Q ->
  (forall cu dest1 dest2 duration,
     exists n, forall fuel, (n <= fuel)%nat ->
       exists mv,
         interval_move fuel (Params.max_step_rate pa) cu dest1 dest2 duration = Ok mv /\
         within_rate (Params.max_step_rate pa) mv /\
         Z.max (duration - prev_time cu) 1 <= move_time mv) /\
  (forall fuel op su env st x y vi vf il st',
     plot_seg_with_v fuel pa op su env st x y vi vf il = Ok st' ->
     exists new, moves st' = moves st ++ new /\
                 Forall (within_rate (Params.max_step_rate pa)) new).
Proof.
  intros Hrate. split.
  - intros cu dest1 dest2 duration.
    destruct (interval_move_terminates (Params.max_step_rate pa) cu dest1 dest2 duration Hrate)
      as [n Hn].
    exists n. intros fuel Hfuel. destruct (Hn fuel Hfuel) as [mv Hmv].
    exists mv. split; [done|]. apply interval_move_Ok in Hmv. tauto.
  - intros. by eapply plot_seg_with_v_moves.
Qed.

Lemma moves_within_rate_witness :
  exists fuel mv,
    interval_move fuel (Params.max_step_rate Scenario.params)
      {| prev_motor1 := 0; prev_motor2 := 0; prev_time := 0 |} 30000 0 1 = Ok mv /\
    within_rate (Params.max_step_rate Scenario.params) mv.
Proof.
  destruct (moves_within_rate Scenario.params) as [Hloop _]; [reflexivity|].
  destruct (Hloop {| prev_motor1 := 0; prev_motor2 := 0; prev_time := 0 |} 30000 0 1)
    as [n Hn].
  destruct (Hn n (le_n n)) as (mv & Hmv & Hok & _).
  exists n, mv. split; [exact Hmv | exact Hok].
Defined.

End RateTheorem.

(** ** Cornering cap *)

Section JunctionFacts.

Import Planner.
Local Open Scope R_scope.

Lemma sqrt_Ok (x : R) : 0 <= x -> Py.sqrt x = Ok (R_sqrt.sqrt x).
Proof. intros H. unfold Py.sqrt. case_decide; [lra|done]. Qed.

Lemma sqrt_Ok_inv (x y : R) : Py.sqrt x = Ok y -> 0 <= x /\ y = R_sqrt.sqrt x /\ 0 <= y.
Proof.
  unfold Py.sqrt. case_decide; [discriminate|]. intros [= <-].
  repeat split; [lra|apply sqrt_pos].
Qed.

(** A full reversal, cosine factor 1: the cap is 0. *)
Lemma vjunction_max_reversal (accel_rate delta : R) :
  vjunction_max accel_rate delta 1 = Ok 0.
Proof.
  unfold vjunction_max.
  replace ((1 - 1) / 2) with 0 by lra.
  rewrite sqrt_Ok by lra. rewrite sqrt_0. simpl.
  case_decide as Hd; [|lra].
  rewrite div_nonzero by lra. simpl.
  replace (accel_rate * (delta * 0 / (1 - 0))) with 0 by (field; lra).
  rewrite sqrt_Ok by lra. by rewrite sqrt_0.
Qed.

(** Straight on, cosine factor -1: the radius factor is 100000. *)
Lemma vjunction_max_straight (accel_rate delta : R) :
  0 <= accel_rate ->
  vjunction_max accel_rate delta (-1) = Ok (R_sqrt.sqrt (accel_rate * 100000)).
Proof.
  intros Ha. unfold vjunction_max.
  replace ((1 - -1) / 2) with 1 by lra.
  rewrite sqrt_Ok by lra. rewrite sqrt_1. simpl.
  case_decide as Hd; [lra|]. simpl.
  rewrite sqrt_Ok by nra. done.
Qed.

(** C7 (as stated, refuted): with the planner's sign convention the cosine
    factor 1 does not give the 100000 radius and the factor -1 does not
    give a zero cap; at acceleration 30 the caps are 0 and sqrt 3000000. *)
Lemma junction_cap_signs_swapped :
  ~ (vjunction_max 30 (10 / 5000) 1 = Ok (R_sqrt.sqrt (30 * 100000)) /\
     vjunction_max 30 (10 / 5000) (-1) = Ok 0).
Proof.
  intros [H1 _]. rewrite vjunction_max_reversal in H1. injection H1 as H1.
  assert (0 < R_sqrt.sqrt (30 * 100000)) by (apply sqrt_lt_R0; lra). lra.
Qed.

(** C7 (amended): for a unit vector [u], two consecutive segments along
    [u] have cosine factor -1 and the cap is sqrt(a * 100000); a segment
    along [u] followed by one along [-u] has cosine factor 1 and the cap
    is 0. *)
Theorem junction_cap_extremes (accel_rate delta : R) (u : R * R) :
  0 <= accel_rate -> u.1 * u.1 + u.2 * u.2 = 1 ->
  - dotProductXY u u = -1 /\
  vjunction_max accel_rate delta (- dotProductXY u u)
    = Ok (R_sqrt.sqrt (accel_rate * 100000)) /\
  - dotProductXY u (- u.1, - u.2) = 1 /\
  vjunction_max accel_rate delta (- dotProductXY u (- u.1, - u.2)) = Ok 0.
Proof.
  intros Ha Hu.
  assert (H1 : - dotProductXY u u = -1) by (unfold dotProductXY; lra).
  assert (H2 : - dotProductXY u (- u.1, - u.2) = 1) by (unfold dotProductXY; simpl; lra).
  rewrite H1, H2. repeat split.
  - by apply vjunction_max_straight.
  - apply vjunction_max_reversal.
Qed.

Lemma junction_cap_extremes_witness :
  - dotProductXY (1, 0) (1, 0) = -1 /\
  vjunction_max 30 (10 / 5000) (- dotProductXY (1, 0) (1, 0))
    = Ok (R_sqrt.sqrt (30 * 100000)) /\
  - dotProductXY (1, 0) (- (1, 0).1, - (1, 0).2) = 1 /\
  vjunction_max 30 (10 / 5000) (- dotProductXY (1, 0) (- (1, 0).1, - (1, 0).2)) = Ok 0.
Proof.
  apply (junction_cap_extremes 30 (10 / 5000) (1, 0)).
  - lra.
  - simpl. lra.
Defined.

End JunctionFacts.
(** ** Trajectory feasibility *)

Section PlannerFacts.

Import Planner.
Local Open Scope R_scope.

Lemma index_Ok {A : Type} (l : list A) (i : nat) (a : A) :
  Py.index l i = Ok a <-> l !! i = Some a.
Proof. unfold Py.index. destruct (l !! i); split; intros H; by inversion H. Qed.

Lemma distance_nonneg dx dy : 0 <= distance dx dy.
Proof. apply sqrt_pos. Qed.

Lemma trim_ok min_dist p0 lastp rest tr tr' :
  trimmed_ok p0 tr -> last (p0 :: trimmed_path tr) = Some lastp ->
  trim min_dist lastp rest tr = Ok tr' ->
  trimmed_ok p0 tr'.
Proof.
  revert lastp tr. induction rest as [|p rest IH]; intros lastp tr Hok Hlast; simpl.
  { by intros [= <-]. }
  case_decide as Hd; [|by apply IH].
  intros H. apply bind_Ok in H as (ux & Hux & H). apply bind_Ok in H as (uy & _ & H).
  apply div_Ok in Hux as [Hnz _].
  eapply IH in H; [done| |].
  - destruct Hok as (Hl1 & Hl2 & Hgeo). split_and!; simpl.
    + rewrite !length_app. simpl. lia.
    + rewrite !length_app. simpl. lia.
    + intros i p1 q Hp Hq.
      destruct (decide (i < length (trimmed_path tr))%nat) as [Hi|Hi].
      * rewrite lookup_app_l in Hq by done.
        rewrite (lookup_app_l (p0 :: trimmed_path tr) [p]) in Hp by (simpl; lia).
        destruct (Hgeo i p1 q Hp Hq) as (d & Hd1 & Hd2 & Hd3).
        exists d. split; [|done].
        rewrite lookup_app_l; [done|]. apply lookup_lt_Some in Hd1. done.
      * pose proof (lookup_lt_Some _ _ _ Hq) as Hi2.
        rewrite length_app in Hi2. simpl in Hi2.
        assert (i = length (trimmed_path tr)) as -> by lia.
        rewrite lookup_app_r, Nat.sub_diag in Hq by lia. injection Hq as <-.
        change (p0 :: trimmed_path tr ++ [p]) with ((p0 :: trimmed_path tr) ++ [p]) in Hp.
        rewrite lookup_app_l in Hp by (simpl; lia).
        assert (p1 = lastp) as ->.
        { rewrite last_lookup in Hlast. simpl in Hlast. congruence. }
        exists (distance (p.1 - lastp.1) (p.2 - lastp.2)).
        split; [|split; [|done]].
        -- rewrite lookup_app_r by lia. by rewrite Hl1, Nat.sub_diag.
        -- pose proof (distance_nonneg (p.1 - lastp.1) (p.2 - lastp.2)). lra.
  - simpl. rewrite app_comm_cons. apply last_snoc.
Qed.



Lemma min_le_l a b : Py.min a b <= a.
Proof. unfold Py.min. case_decide; lra. Qed.

Lemma min_nonneg a b : 0 <= a -> 0 <= b -> 0 <= Py.min a b.
Proof. unfold Py.min. case_decide; lra. Qed.

Lemma vjunction_max_nonneg a delta c v : vjunction_max a delta c = Ok v -> 0 <= v.
Proof.
  unfold vjunction_max. intros H. apply bind_Ok in H as (r & _ & H).
  apply bind_Ok in H as (rf & _ & H). by apply sqrt_Ok_inv in H as (_ & _ & ?).
Qed.





(** The reversal path of scenario B: the planner stops at the cusp. *)
Lemma distance_axis (dx : R) : distance dx 0 = Rabs dx.
Proof.
  unfold distance. replace (dx * dx + 0 * 0) with (Rsqr dx) by (unfold Rsqr; lra).
  apply sqrt_Rsqr_abs.
Qed.

Lemma trim_reversal :
  trim 0.000348 (0, 0) [(1, 0); (0, 0)]
    {| traj_dists := [0]; traj_vectors := []; trimmed_path := [] |}
  = Ok {| traj_dists := [0; 1; 1]; traj_vectors := [(1, 0); (-1, 0)];
          trimmed_path := [(1, 0); (0, 0)] |}.
Proof.
  cbn [trim fst snd].
  replace (1 - 0) with 1 by lra. replace (0 - 0) with 0 by lra.
  replace (0 - 1) with (-1) by lra.
  rewrite !distance_axis.
  replace (Rabs 1) with 1 by (unfold Rabs; destruct (Rcase_abs _); lra).
  replace (Rabs (-1)) with 1 by (unfold Rabs; destruct (Rcase_abs _); lra).
  rewrite decide_True by lra. rewrite !div_nonzero by lra. simpl.
  rewrite decide_True by lra.
  do 2 f_equal. repeat f_equal; lra.
Qed.

Lemma scenario_accel :
  Model.accel_rate Scenario.params Scenario.options Scenario.running = 30.
Proof. unfold Model.accel_rate. simpl. lra. Qed.

Lemma scenario_speed : Model.speed_limit Scenario.setup Scenario.running = 2.
Proof. reflexivity. Qed.

Lemma plan_reversal :
  plan_trajectory Scenario.params Scenario.options Scenario.setup Scenario.running
    [(0, 0); (1, 0); (0, 0)]
  = Ok [ {| x_dest := 1; y_dest := 0; v_i := 0; v_f := 0 |};
         {| x_dest := 0; y_dest := 0; v_i := 0; v_f := 0 |} ].
Proof.
  unfold plan_trajectory.
  case_decide as H1; [done|]. case_decide as H2; [done|]. clear H1 H2.
  rewrite decide_True by done. cbn [Scenario.params Params.max_step_dist_hr].
  rewrite trim_reversal. simpl.
  rewrite scenario_accel, scenario_speed.
  rewrite div_nonzero by lra. simpl.
  replace (- dotProductXY (1, 0) (-1, 0)) with 1 by (unfold dotProductXY; simpl; lra).
  rewrite vjunction_max_reversal. simpl.
  rewrite (decide_True (P := 1 > 0.5 * 30 * (2 / 30) * (2 / 30))) by lra.
  unfold Py.min. rewrite (decide_True (P := 0 < 2)) by lra.
  rewrite decide_False by (intros [? _]; lra). simpl.
  rewrite decide_False by (intros [? _]; lra).
  reflexivity.
Qed.


End PlannerFacts.
(** ** Reading the checkpoint *)

Section CheckpointFacts.

Import Checkpoint.

Context {F : Type}.
Variables (parse_int : string -> option Z) (parse_float : string -> option F).
Variable trunc : F -> result Z.

Local Abbreviation convert := (convert parse_int parse_float).
Local Abbreviation read_core := (read_core parse_int parse_float).
Local Abbreviation read_plotdata := (read_plotdata parse_int parse_float trunc).

Lemma py_int_missing (a : option string) :
  py_int parse_int a = Raise TypeError <-> a = None.
Proof.
  unfold py_int. destruct a as [s|]; [|done].
  destruct (parse_int s); split; intros H; discriminate.
Qed.

Lemma convert_outcome (k : Kind) (a : option string) :
  (exists v, convert k a = Ok v /\ a <> None) \/
  (convert k a = Raise TypeError /\ a = None) \/
  (convert k a = Raise ValueError /\ a <> None).
Proof.
  destruct k, a as [s|]; simpl; unfold py_int, py_float; simpl.
  - destruct (parse_int s); simpl; [left; by eexists|right; right; done].
  - right; left; done.
  - destruct (parse_float s); simpl; [left; by eexists|right; right; done].
  - right; left; done.
Qed.

(** The first [try] block: attributes outside the table are untouched; if
    nothing is raised every entry was converted and stored; [TypeError] is
    raised exactly when the first entry that fails is a missing one. *)
Lemma read_core_spec (data_node : gmap string string) fields
    (self self' : gmap string (Value F)) exc :
  read_core data_node fields self = (self', exc) ->
  (forall a, a ∉ self_attr <$> fields -> self' !! a = self !! a) /\
  (exc = None -> NoDup (self_attr <$> fields) ->
   Forall (fun f => data_node !! xml_name f <> None /\
                    exists v, convert (kind f) (data_node !! xml_name f) = Ok v /\
                              self' !! self_attr f = Some v) fields) /\
  (Exists (fun f => data_node !! xml_name f = None) fields -> exc <> None) /\
  (exc = Some TypeError -> Exists (fun f => data_node !! xml_name f = None) fields) /\
  (exc = None \/ exc = Some TypeError \/ exc = Some ValueError).
Proof.
  revert self. induction fields as [|[[name attr] k] fields IH]; intros self; simpl.
  { intros [= <- <-]. split_and!; try done.
    - intros H. by apply Exists_nil in H.
    - auto. }
  destruct (convert_outcome k (data_node !! name))
    as [(v & Hv & Hsome)|[[Hv Hnone]|[Hv Hsome]]]; rewrite Hv.
  - intros H. apply IH in H as (Hout & Hall & Hmiss & Hty & Hexc).
    split_and!; try done.
    + intros a Ha. apply not_elem_of_cons in Ha as [Hne Ha].
      rewrite (Hout a Ha). by rewrite lookup_insert_ne.
    + intros He Hnd. apply NoDup_cons in Hnd as [Hnotin Hnd].
      constructor; [|by apply Hall].
      unfold xml_name, self_attr, kind. simpl.
      split; [done|]. exists v. split; [done|].
      rewrite (Hout attr Hnotin). by rewrite lookup_insert_eq.
    + intros Hex. apply Exists_cons in Hex as [Hex|Hex]; [done|by apply Hmiss].
    + intros He. apply Exists_cons. right. by apply Hty.
  - intros [= <- <-]. split_and!; try done.
    + intros _. apply Exists_cons. by left.
    + auto.
  - intros [= <- <-]. split_and!; try done.
    auto.
Qed.

(** When the first [try] block raises, it raises at the first entry that
    cannot be converted: the entries before it were converted and stored,
    and that entry and the ones after it are left as they were. *)
Lemma read_core_raised (data_node : gmap string string) fields
    (self self' : gmap string (Value F)) (e : exn) :
  read_core data_node fields self = (self', Some e) ->
  NoDup (self_attr <$> fields) ->
  exists before f after,
    fields = before ++ f :: after /\
    convert (kind f) (data_node !! xml_name f) = Raise e /\
    Forall (fun g => exists v, convert (kind g) (data_node !! xml_name g) = Ok v /\
                               self' !! self_attr g = Some v) before /\
    Forall (fun g => self' !! self_attr g = self !! self_attr g) (f :: after).
Proof.
  revert self. induction fields as [|[[name attr] k] fields IH]; intros self; simpl.
  { intros [= _ ?]. }
  intros Hrun Hnd. apply NoDup_cons in Hnd as [Hnotin Hnd].
  destruct (convert k (data_node !! name)) as [v|e'|] eqn:Hv.
  - destruct (IH _ Hrun Hnd) as (before & f & after & -> & Hf & Hbefore & Hafter).
    exists ((name, attr, k) :: before), f, after. split_and!; [done|done| |].
    + constructor; [|done]. exists v. split; [done|].
      unfold self_attr. simpl.
      apply read_core_spec in Hrun as (Hout & _).
      rewrite (Hout attr Hnotin). by rewrite lookup_insert_eq.
    + apply Forall_forall. intros g Hg.
      rewrite Forall_forall in Hafter. rewrite (Hafter g Hg).
      apply lookup_insert_ne. intros Heq. apply Hnotin.
      apply list_elem_of_fmap. exists g. split; [done|].
      apply elem_of_app. by right.
  - injection Hrun as <- <-.
    exists [], (name, attr, k), fields. split_and!; [done|done|constructor|].
    by apply Forall_forall.
  - by injection Hrun as _ ?.
Qed.

Lemma read_optional_spec attr r (self self' : gmap string (Value F)) exc :
  read_optional attr r self = (self', exc) ->
  (forall a, a <> attr -> self' !! a = self !! a) /\
  (r = Raise TypeError -> self' = self /\ exc = None).
Proof.
  unfold read_optional. destruct r as [z|e|]; [|destruct e|]; intros [= <- <-];
    split; try done; intros a Ha; by rewrite lookup_insert_ne.
Qed.

End CheckpointFacts.

(** ** Checkpoint theorem *)

Section CheckpointTheorem.

Import Checkpoint.

Lemma core_attrs_NoDup : NoDup (self_attr <$> core_fields).
Proof. compute_done. Qed.

(** C8 (as stated, refuted): the element [layer_only] has no [node]
    attribute, so reading the core fields raises [TypeError]: the flag stays
    false and the element is removed, yet [svg_layer_old], assigned before
    the error, has changed from -2 to 5. *)
Lemma partial_core_state_kept :
  let out := read_plotdata decimal decimal_float trunc_float defaults [layer_only] in
  escaped out = None /\
  self_after out !! "svg_data_read"%string = Some (VBool false) /\
  doc_after out = [] /\
  defaults !! "svg_layer_old"%string = Some (VInt (-2)) /\
  self_after out !! "svg_layer_old"%string = Some (VInt 5) /\
  self_after out !! "svg_layer_old"%string <> defaults !! "svg_layer_old"%string.
Proof. vm_compute. split_and!; try reflexivity. discriminate. Qed.

(** C8 (amended): when a plotdata element exists it is read.  If no
    exception escapes, then: with every core attribute present the flag is
    set, the element stays and each core field holds its converted value;
    with a core attribute missing the flag stays false, the element is
    removed from the document, the core fields listed before the first
    missing one hold the values just read, and that field and the ones
    after it are as they were; a missing [row] or [randseed] leaves the
    corresponding attribute of [self] as it was. *)
Theorem checkpoint_read {F : Type} (parse_int : string -> option Z)
    (parse_float : string -> option F) (trunc : F -> result Z)
    (self : gmap string (Value F)) (data_node : gmap string string)
    (others : list (gmap string string)) :
  let out := read_plotdata parse_int parse_float trunc self (data_node :: others) in
  escaped out = None ->
  (Forall (fun f => data_node !! xml_name f <> None) core_fields ->
   self_after out !! "svg_data_read"%string = Some (VBool true) /\
   doc_after out = data_node :: others /\
   Forall (fun f => exists v,
             convert parse_int parse_float (kind f) (data_node !! xml_name f) = Ok v /\
             self_after out !! self_attr f = Some v) core_fields) /\
  (Exists (fun f => data_node !! xml_name f = None) core_fields ->
   self_after out !! "svg_data_read"%string = Some (VBool false) /\
   doc_after out = others /\
   exists before f after,
     core_fields = before ++ f :: after /\
     data_node !! xml_name f = None /\
     Forall (fun g => exists v,
               convert parse_int parse_float (kind g) (data_node !! xml_name g) = Ok v /\
               self_after out !! self_attr g = Some v) before /\
     Forall (fun g => self_after out !! self_attr g = self !! self_attr g)
            (f :: after)) /\
  (data_node !! "row"%string = None ->
   self_after out !! "svg_row_old"%string = self !! "svg_row_old"%string) /\
  (data_node !! "randseed"%string = None ->
   self_after out !! "svg_rand_seed_old"%string = self !! "svg_rand_seed_old"%string).
Proof.
  unfold read_plotdata.
  set (self0 := <["svg_data_read"%string := VBool false]> self).
  destruct (read_core parse_int parse_float data_node core_fields self0)
    as [self1 exc] eqn:Hcore.
  pose proof Hcore as Hraised.
  apply read_core_spec in Hcore as (Hout & Hall & Hmiss & Hty & Hexc).
  set (seed := py_float parse_float (data_node !! "randseed"%string) ≫= trunc).
  destruct exc as [e|].
  - (* the core block raised *)
    destruct Hexc as [Hexc|[Hexc|Hexc]]; [done| |]; injection Hexc as ->; [|done].
    destruct (read_optional "svg_row_old" (py_int parse_int (data_node !! "row"%string)) self1)
      as [self2 exc2] eqn:Hrow.
    apply read_optional_spec in Hrow as [Hrow Hrow'].
    destruct exc2 as [e2|]; [done|].
    destruct (read_optional "svg_rand_seed_old" seed self2) as [self3 exc3] eqn:Hseed.
    apply read_optional_spec in Hseed as [Hseed Hseed'].
    simpl. intros ->.
    assert (Hcore_attr : forall g, g ∈ core_fields ->
              self3 !! self_attr g = self1 !! self_attr g).
    { intros g Hin.
      assert (Hattr : self_attr g ∈ self_attr <$> core_fields)
        by (by apply list_elem_of_fmap_2).
      rewrite Hseed, Hrow; [done|..];
        intros Heq; rewrite Heq in Hattr; revert Hattr; compute_done. }
    split_and!.
    + intros Hpresent. specialize (Hty eq_refl).
      apply Exists_exists in Hty as (f & Hin & Hnone).
      rewrite Forall_forall in Hpresent. by destruct (Hpresent f Hin).
    + intros _. split_and!; [|done|].
      * rewrite Hseed, Hrow by done. rewrite Hout by compute_done.
        unfold self0. by rewrite lookup_insert_eq.
      * destruct (read_core_raised _ _ _ _ _ _ _ Hraised core_attrs_NoDup)
          as (before & f & after & Hsplit & Hf & Hbefore & Hafter).
        exists before, f, after. split_and!; [done| | |].
        -- destruct (convert_outcome parse_int parse_float (kind f)
                       (data_node !! xml_name f)) as [(v & Hv & _)|[[_ Hn]|[Hv _]]];
             [congruence|done|congruence].
        -- apply Forall_forall. intros g Hg. rewrite Forall_forall in Hbefore.
           destruct (Hbefore g Hg) as (v & Hv & Hlook). exists v. split; [done|].
           rewrite Hcore_attr; [done|]. rewrite Hsplit. apply elem_of_app. by left.
        -- apply Forall_forall. intros g Hg. rewrite Forall_forall in Hafter.
           assert (Hin : g ∈ core_fields)
             by (rewrite Hsplit; apply elem_of_app; by right).
           rewrite Hcore_attr, (Hafter g Hg) by done.
           unfold self0. apply lookup_insert_ne.
           assert (Hattr : self_attr g ∈ self_attr <$> core_fields)
             by (by apply list_elem_of_fmap_2).
           intros Heq. rewrite <- Heq in Hattr. revert Hattr. compute_done.
    + intros Hnone. rewrite Hseed by done.
      destruct Hrow' as [-> _]; [by apply py_int_missing|].
      rewrite Hout by compute_done. unfold self0. by rewrite lookup_insert_ne.
    + intros Hnone. destruct Hseed' as [-> _].
      { unfold seed, py_float. by rewrite Hnone. }
      rewrite Hrow by done.
      rewrite Hout by compute_done. unfold self0. by rewrite lookup_insert_ne.
  - (* the core block completed *)
    set (self2 := <["svg_plob_version"%string := _]> _).
    destruct (read_optional "svg_row_old" (py_int parse_int (data_node !! "row"%string)) self2)
      as [self3 exc3] eqn:Hrow.
    apply read_optional_spec in Hrow as [Hrow Hrow'].
    destruct exc3 as [e3|]; [done|].
    destruct (read_optional "svg_rand_seed_old" seed self3) as [self4 exc4] eqn:Hseed.
    apply read_optional_spec in Hseed as [Hseed Hseed'].
    simpl. intros ->. split_and!.
    + intros _. split_and!; [|done|].
      * rewrite Hseed, Hrow by done. unfold self2.
        rewrite !lookup_insert_ne by done. by rewrite lookup_insert_eq.
      * specialize (Hall eq_refl core_attrs_NoDup).
        rewrite Forall_forall in Hall. apply Forall_forall. intros f Hin.
        destruct (Hall f Hin) as (_ & v & Hv & Hlook). exists v. split; [done|].
        assert (Hattr : self_attr f ∈ self_attr <$> core_fields)
          by (by apply list_elem_of_fmap_2).
        rewrite Hseed, Hrow, <- Hlook.
        -- unfold self2. rewrite !lookup_insert_ne; [done|..];
             intros Heq; rewrite <- Heq in Hattr; revert Hattr; compute_done.
        -- intros Heq. rewrite Heq in Hattr. revert Hattr. compute_done.
        -- intros Heq. rewrite Heq in Hattr. revert Hattr. compute_done.
    + intros Hex. by destruct (Hmiss Hex).
    + intros Hnone. rewrite Hseed by done.
      destruct Hrow' as [-> _]; [by apply py_int_missing|].
      unfold self2. rewrite !lookup_insert_ne by done.
      rewrite Hout by compute_done. unfold self0. by rewrite lookup_insert_ne.
    + intros Hnone. destruct Hseed' as [-> _].
      { unfold seed, py_float. by rewrite Hnone. }
      rewrite Hrow by done. unfold self2. rewrite !lookup_insert_ne by done.
      rewrite Hout by compute_done. unfold self0. by rewrite lookup_insert_ne.
Qed.

Lemma checkpoint_read_witness :
  let out := read_plotdata decimal decimal_float trunc_float defaults [layer_only] in
  self_after out !! "svg_data_read"%string = Some (VBool false) /\
  doc_after out = [] /\
  self_after out !! "svg_row_old"%string = defaults !! "svg_row_old"%string /\
  exists before f after,
    core_fields = before ++ f :: after /\ layer_only !! xml_name f = None /\
    Forall (fun g => exists v,
              convert decimal decimal_float (kind g) (layer_only !! xml_name g) = Ok v /\
              self_after out !! self_attr g = Some v) before /\
    Forall (fun g => self_after out !! self_attr g = defaults !! self_attr g)
           (f :: after).
Proof.
  intros out.
  assert (Hesc : escaped out = None) by (vm_compute; reflexivity).
  destruct (checkpoint_read decimal decimal_float trunc_float defaults layer_only [] Hesc)
    as (_ & Hpart & Hrow & _).
  destruct Hpart as (Hflag & Hdoc & Hfields).
  { apply Exists_cons_tl, Exists_cons_hd. vm_compute. reflexivity. }
  split; [exact Hflag|]. split; [exact Hdoc|]. split; [|exact Hfields].
  apply Hrow. vm_compute. reflexivity.
Defined.

End CheckpointTheorem.
(** ** Interval generator *)

Section ProfileFacts.

Import Segment.
Local Open Scope R_scope.

Lemma advance_ok v dt pr pr' :
  advance v dt pr = Ok pr' -> last (dist_array pr') = Some (position pr').
Proof.
  unfold advance. intros H. apply bind_Ok in H as (d & _ & H). injection H as <-.
  simpl. apply last_snoc.
Qed.





Lemma cruise_ok fuel ci ct pr ct' pr' :
  cruise fuel ci ct pr = Ok (ct', pr') -> profile_ok pr -> profile_ok pr'.
Proof.
  revert ct pr. induction fuel as [|fuel IH]; intros ct pr; simpl.
  - case_decide as Hcase3; [discriminate|]. by intros [= <- <-].
  - case_decide as Hcase4; [|by intros [= <- <-]].
    intros H _. apply bind_Ok in H as (pr1 & Ha & H).
    apply (IH _ _ H). right. by eapply advance_ok.
Qed.








End ProfileFacts.
(** ** Executor mass balance *)

Section BalanceFacts.

Import Pause Segment.
Local Open Scope Z_scope.


Lemma sum_steps1_cons mv l : sum_steps1 (mv :: l) = move_steps1 mv + sum_steps1 l.
Proof. done. Qed.

Lemma sum_steps2_cons mv l : sum_steps2 (mv :: l) = move_steps2 mv + sum_steps2 l.
Proof. done. Qed.



Variables (pa : Params.t) (op : Options.t) (su : Setup.t).


End BalanceFacts.
(** ** A slow diagonal segment *)

Section SlowSegment.

Import Pause Segment.
Local Open Scope R_scope.

Lemma slow_length :
  distance (IZR 239 / (2 * 2032) + IZR 1 / (2 * 2032))
           (IZR 239 / (2 * 2032) - IZR 1 / (2 * 2032)) = 338 / 4064.
Proof.
  unfold distance.
  match goal with |- R_sqrt.sqrt ?a = _ =>
    replace a with ((338 / 4064) * (338 / 4064)) by lra end.
  apply sqrt_square. lra.
Qed.

Lemma slow_speed : Model.speed_limit Scenario.slow_setup Scenario.counted = 169 / 2032.
Proof. reflexivity. Qed.

Lemma slow_accel :
  Model.accel_rate Scenario.params Scenario.const_options Scenario.counted = 30.
Proof. unfold Model.accel_rate. simpl. lra. Qed.

Lemma array_I_Ok z : (0 <= z < 2 ^ 32)%Z -> Py.array_I z = Ok z.
Proof. intros H. unfold Py.array_I. by rewrite decide_True. Qed.

Lemma array_i_Ok z : (- 2 ^ 31 <= z < 2 ^ 31)%Z -> Py.array_i z = Ok z.
Proof. intros H. unfold Py.array_i. by rewrite decide_True. Qed.

Lemma slow_intervals :
  intervals 0 Scenario.params Scenario.const_options Scenario.slow_setup Scenario.counted
    239 1 (338 / 4064) 0 0
  = Ok ([1000%Z], [239%Z], [1%Z]).
Proof.
  unfold intervals, limits. rewrite slow_speed, slow_accel.
  unfold Py.min. rewrite (decide_False (P := 169 / 2032 < 0)) by lra.
  rewrite !div_nonzero by lra. simpl.
  unfold shape. simpl. rewrite div_nonzero by lra. simpl.
  unfold constant. simpl. unfold constant_velocity. simpl.
  rewrite div_nonzero by lra. simpl.
  replace (338 / 4064 / (169 / 2032) * 1000) with (IZR 1000) by lra.
  rewrite round_IZR. rewrite array_I_Ok by lia. simpl.
  rewrite div_nonzero by lra. simpl.
  rewrite div_nonzero by lra. simpl.
  replace (338 / 4064 / (0 + 338 / 4064) * 239) with (IZR 239) by lra.
  replace (338 / 4064 / (0 + 338 / 4064) * 1) with (IZR 1) by lra.
  rewrite !round_IZR. rewrite !array_i_Ok by lia. reflexivity.
Qed.

Lemma slow_bounds :
  check_bounds Scenario.params Scenario.slow_setup false (15 / 254) (119 / 2032) Scenario.counted
  = (15 / 254, 119 / 2032, Scenario.counted).
Proof.
  unfold check_bounds, checkLimitsTol. simpl.
  rewrite (decide_False (P := 15 / 254 > 11.81)) by lra.
  rewrite (decide_False (P := 15 / 254 < 0)) by lra.
  rewrite (decide_False (P := 119 / 2032 > 8.58)) by lra.
  rewrite (decide_False (P := 119 / 2032 < 0)) by lra.
  reflexivity.
Qed.

Lemma slow_steps :
  Kinematics.motor_steps1 2032 (15 / 254 - 0) (119 / 2032 - 0) = 239%Z /\
  Kinematics.motor_steps2 2032 (15 / 254 - 0) (119 / 2032 - 0) = 1%Z.
Proof.
  unfold Kinematics.motor_steps1, Kinematics.motor_steps2.
  replace (2032 * (15 / 254 - 0 + (119 / 2032 - 0))) with (IZR 239) by lra.
  replace (2032 * (15 / 254 - 0 - (119 / 2032 - 0))) with (IZR 1) by lra.
  by rewrite !round_IZR.
Qed.

Lemma slow_segment_run :
  exists st',
    plot_seg_with_v 0 Scenario.params Scenario.const_options Scenario.slow_setup
      Scenario.quiet Scenario.running (15 / 254) (119 / 2032) 0 0 false = Ok st' /\
    moves st' = [Scenario.slow_move] /\ stopped st' = 0%Z /\ resume_mode st' = false.
Proof.
  assert (Hp : pause_res_check Scenario.const_options Scenario.slow_setup Scenario.quiet
                 Scenario.running = Ok Scenario.counted) by reflexivity.
  assert (Hm : interval_move 0 24.995 {| prev_motor1 := 0; prev_motor2 := 0; prev_time := 0 |}
                 239 1 1000 = Ok Scenario.slow_move) by (vm_compute; reflexivity).
  eexists. split.
  - unfold plot_seg_with_v.
    rewrite Hp. cbn [mbind result_bind Py.bind].
    change (f_curr_x Scenario.counted) with (Some 0). cbv beta iota.
    destruct (decide (stopped Scenario.counted <> 0%Z)) as [Hne|_]; [by exfalso; apply Hne|].
    rewrite slow_bounds.
    change (f_curr_y Scenario.counted) with 0.
    change (Setup.step_scale Scenario.slow_setup) with 2032.
    destruct slow_steps as [-> ->].
    unfold Kinematics.delta_rounded. rewrite !div_nonzero by lra.
    cbn [mbind result_bind Py.bind].
    rewrite decide_False by lia.
    rewrite slow_length, slow_intervals.
    cbn [mbind result_bind Py.bind emit Py.index lookup list_lookup].
    change (Params.max_step_rate Scenario.params) with 24.995%Q.
    rewrite Hm. cbn [mbind result_bind Py.bind].
    unfold apply_move.
    rewrite decide_True by (left; done).
    change (Setup.step_scale Scenario.slow_setup) with 2032.
    rewrite !div_nonzero by lra.
    cbn [mbind result_bind Py.bind].
    reflexivity.
  - simpl. done.
Qed.



End SlowSegment.

(** ** The constant-velocity case *)

Section ConstantVelocity.

Import Segment.
Local Open Scope R_scope.





End ConstantVelocity.

(** ** A short segment from rest to rest *)

Section ShortSegment.

Import Segment.
Local Open Scope R_scope.







End ShortSegment.
(** * Further properties of the planner *)

Section PlannerStructure.

Import Planner.
Local Open Scope R_scope.

(** What the first loop keeps: vertices of the input in their order, each
    at least [min_dist] from the one kept before it, with unit vectors
    along the kept segments. *)
Lemma trim_kept min_dist lastp rest tr tr' :
  trim min_dist lastp rest tr = Ok tr' ->
  exists kept us,
    trimmed_path tr' = trimmed_path tr ++ kept /\
    traj_vectors tr' = traj_vectors tr ++ us /\
    sublist kept rest /\
    Forall (fun u : R * R => u.1 * u.1 + u.2 * u.2 = 1) us /\
    (forall k p q, (lastp :: kept) !! k = Some p -> kept !! k = Some q ->
        min_dist <= distance (q.1 - p.1) (q.2 - p.2)).
Proof.
  revert lastp tr. induction rest as [|p rest IH]; intros lastp tr; simpl.
  { intros [= <-]. exists [], []. rewrite !app_nil_r.
    split_and!; [done|done|constructor|done|].
    intros k p q _ Hq. by destruct k. }
  case_decide as Hd.
  - intros H. apply bind_Ok in H as (ux & Hux & H). apply bind_Ok in H as (uy & Huy & H).
    apply div_Ok in Hux as [Hnz ->]. apply div_Ok in Huy as [_ ->].
    apply IH in H as (kept & us & Hp & Hv & Hsub & Hun & Hsp). simpl in Hp, Hv.
    exists (p :: kept),
      (((p.1 - lastp.1) / distance (p.1 - lastp.1) (p.2 - lastp.2),
        (p.2 - lastp.2) / distance (p.1 - lastp.1) (p.2 - lastp.2)) :: us).
    rewrite Hp, Hv, <- !app_assoc. split_and!; try done.
    + by constructor.
    + constructor; [|done]. simpl.
      set (dx := p.1 - lastp.1) in *. set (dy := p.2 - lastp.2) in *.
      assert (Hsq : distance dx dy * distance dx dy = dx * dx + dy * dy).
      { unfold distance. apply sqrt_sqrt. nra. }
      fold dx dy in Hnz. set (d := distance dx dy) in *.
      replace (dx / d * (dx / d) + dy / d * (dy / d))
        with ((dx * dx + dy * dy) / (d * d)) by (field; done).
      rewrite <- Hsq. field. done.
    + intros k p' q Hp' Hq. destruct k as [|k]; simpl in Hp', Hq.
      * injection Hp' as <-. injection Hq as <-. lra.
      * by eapply Hsp.
  - intros H. apply IH in H as (kept & us & Hp & Hv & Hsub & Hun & Hsp).
    exists kept, us. split_and!; try done. by constructor.
Qed.

(** A vertex closer than [min_dist] to the last kept one is skipped. *)
Lemma trim_all_skipped min_dist lastp rest tr :
  Forall (fun p : R * R => distance (p.1 - lastp.1) (p.2 - lastp.2) < min_dist) rest ->
  trim min_dist lastp rest tr = Ok tr.
Proof.
  induction 1 as [|p rest Hp _ IH]; simpl; [done|].
  rewrite decide_False by lra. done.
Qed.

Lemma forward_pass_range sl a ad delta tr n i vels vels' :
  0 <= sl -> Forall (fun v => 0 <= v <= sl) vels ->
  forward_pass sl a ad delta tr n i vels = Ok vels' ->
  Forall (fun v => 0 <= v <= sl) vels' /\
  exists more, vels' = vels ++ more /\ length more = n.
Proof.
  intros Hsl. revert i vels. induction n as [|n IH]; intros i vels Hr; simpl.
  { intros [= <-]. split; [done|]. exists []. by rewrite app_nil_r. }
  intros H. apply bind_Ok in H as (dcurrent & _ & H).
  apply bind_Ok in H as (v_prev & _ & H).
  apply bind_Ok in H as (u0 & _ & H). apply bind_Ok in H as (u1 & _ & H).
  apply bind_Ok in H as (vj & Hvj & H). apply vjunction_max_nonneg in Hvj.
  set (vc := if decide (dcurrent > ad) then sl
             else if decide (vFinal_Vi_A_Dx v_prev a dcurrent > sl) then sl
                  else vFinal_Vi_A_Dx v_prev a dcurrent) in *.
  assert (Hvc : 0 <= vc <= sl).
  { unfold vc, vFinal_Vi_A_Dx. repeat case_decide; try lra.
    split; [apply sqrt_pos|]. unfold vFinal_Vi_A_Dx in *. lra. }
  pose proof (min_le_l vc vj) as Hmin.
  pose proof (min_nonneg vc vj (proj1 Hvc) Hvj) as Hmin0.
  apply IH in H as (Hr' & more & -> & Hlen).
  - split; [done|]. exists (Py.min vc vj :: more). rewrite <- app_assoc.
    split; [done|]. simpl. lia.
  - apply Forall_app. split; [done|]. constructor; [lra|done].
Qed.

(** The reverse pass lowers speeds only, keeps them at or above zero, and
    leaves the start speed of zero and the entries from [i] on alone. *)
Lemma reverse_pass_range sl a tr i vels vels' :
  Forall (fun v => 0 <= v <= sl) vels ->
  reverse_pass a tr i vels = Ok vels' ->
  Forall (fun v => 0 <= v <= sl) vels' /\ length vels' = length vels /\
  (forall j, (i <= j)%nat -> vels' !! j = vels !! j).
Proof.
  revert vels. induction i as [|i IH]; intros vels Hr; simpl.
  { by intros [= <-]. }
  intros H. apply bind_Ok in H as (v_final & Hvf & H).
  apply bind_Ok in H as (v_initial & Hvi & H).
  apply bind_Ok in H as (seg_length & _ & H).
  apply index_Ok in Hvf, Hvi.
  case_decide as Hc.
  - set (cap := vInitial_VF_A_Dx v_final (- a) seg_length) in *.
    assert (Hcap : 0 <= cap) by apply sqrt_pos.
    assert (Hi : 0 <= v_initial <= sl).
    { rewrite Forall_lookup in Hr. by eapply Hr. }
    apply IH in H as (Hr' & Hlen & Hsame).
    + rewrite length_insert in Hlen. split_and!; [done..|].
      intros j Hj. rewrite Hsame by lia. by rewrite list_lookup_insert_ne by lia.
    + rewrite Forall_lookup. intros j v Hj.
      destruct (decide (j = i)) as [->|Hne].
      * pose proof (lookup_lt_Some _ _ _ Hvi).
        rewrite list_lookup_insert_eq in Hj by done. injection Hj as <-.
        case_decide; lra.
      * rewrite list_lookup_insert_ne in Hj by done.
        rewrite Forall_lookup in Hr. by eapply Hr.
  - apply IH in H as (Hr' & Hlen & Hsame); [|done]. split_and!; [done..|].
    intros j Hj. apply Hsame. lia.
Qed.

Lemma reverse_pass_start a tr i vels vels' :
  vels !! 0%nat = Some 0 ->
  reverse_pass a tr i vels = Ok vels' -> vels' !! 0%nat = Some 0.
Proof.
  revert vels. induction i as [|i IH]; intros vels H0; simpl.
  { by intros [= <-]. }
  intros H. apply bind_Ok in H as (v_final & Hvf & H).
  apply bind_Ok in H as (v_initial & Hvi & H).
  apply bind_Ok in H as (seg_length & _ & H).
  apply index_Ok in Hvf, Hvi.
  case_decide as Hc; [|by eapply IH].
  eapply IH; [|done].
  destruct i as [|i]; [|by rewrite list_lookup_insert_ne by lia].
  assert (v_initial = 0) as -> by congruence.
  rewrite list_lookup_insert_eq by (by apply lookup_lt_Some in Hvi).
  f_equal. case_decide as Hcap; [|done].
  pose proof (sqrt_pos (v_final * v_final - 2 * - a * seg_length)).
  unfold vInitial_VF_A_Dx in Hcap. lra.
Qed.

(** The calls of the last loop, one per kept vertex. *)
Lemma emit_segments_lookup tr vels n i segs :
  emit_segments tr vels n i = Ok segs ->
  length segs = n /\
  forall k sg, segs !! k = Some sg ->
    trimmed_path tr !! (i + k)%nat = Some (x_dest sg, y_dest sg) /\
    vels !! (i + k)%nat = Some (v_i sg) /\ vels !! S (i + k) = Some (v_f sg).
Proof.
  revert i segs. induction n as [|n IH]; intros i segs; simpl.
  { intros [= <-]. split; [done|]. intros k sg Hk. by destruct k. }
  intros H. apply bind_Ok in H as (p & Hp & H). apply bind_Ok in H as (vi & Hvi & H).
  apply bind_Ok in H as (vf & Hvf & H). apply bind_Ok in H as (rest & Hrest & H).
  injection H as <-. apply index_Ok in Hp, Hvi, Hvf.
  apply IH in Hrest as [Hlen Hall]. split; [simpl; lia|].
  intros k sg Hk. destruct k as [|k]; simpl in Hk.
  - injection Hk as <-. simpl. rewrite Nat.add_0_r. destruct p. done.
  - replace (i + S k)%nat with (S i + k)%nat by lia. by apply Hall.
Qed.


(** What a run of the planner amounts to: the speeds at the vertices
    [vels], one more than there are segments, and the vertices kept. *)
Lemma plan_trajectory_shape pa op su st p0 rest segs :
  plan_trajectory pa op su st (p0 :: rest) = Ok segs ->
  exists vels kept,
    length vels = S (length segs) /\ vels !! 0%nat = Some 0 /\ last vels = Some 0 /\
    (0 <= Model.speed_limit su st ->
       Forall (fun v => 0 <= v <= Model.speed_limit su st) vels) /\
    (forall k sg, segs !! k = Some sg ->
       kept !! k = Some (x_dest sg, y_dest sg) /\
       vels !! k = Some (v_i sg) /\ vels !! S k = Some (v_f sg)) /\
    length kept = length segs /\ sublist kept rest /\
    ((2 <= length rest)%nat ->
     forall k p q, (p0 :: kept) !! k = Some p -> kept !! k = Some q ->
       (if decide (Options.resolution op = 1%Z)
        then Params.max_step_dist_hr pa else Params.max_step_dist_lr pa)
       <= distance (q.1 - p.1) (q.2 - p.2)).
Proof.
  intros Hrun. pattern segs.
  match goal with |- ?P segs => set (Q := P) end.
  assert (Hnone : Q []).
  { exists [0], []. split_and!; try done.
    - intros Hsl. constructor; [lra|constructor].
    - apply sublist_nil_l. }
  assert (Hone : forall p : R * R, sublist [p] rest ->
    ((2 <= length rest)%nat ->
     (if decide (Options.resolution op = 1%Z)
      then Params.max_step_dist_hr pa else Params.max_step_dist_lr pa)
     <= distance (p.1 - p0.1) (p.2 - p0.2)) ->
    Q [{| x_dest := p.1; y_dest := p.2; v_i := 0; v_f := 0 |}]).
  { intros p Hsub Hsp. exists [0; 0], [p]. split_and!; try done.
    - intros Hsl. constructor; [lra|constructor; [lra|constructor]].
    - intros k sg Hk. destruct k as [|k]; [|by destruct k].
      injection Hk as <-. simpl. by destruct p.
    - intros Hlen k p' q Hp' Hq. destruct k as [|k]; [|by destruct k].
      injection Hp' as <-. injection Hq as <-. by apply Hsp. }
  revert Hrun.
  unfold plan_trajectory.
  destruct (decide (stopped st <> 0%Z)) as [Hst|Hst]; [by intros [= <-]|].
  destruct (decide (f_curr_x st = None)) as [Hfx|Hfx]; [by intros [= <-]|].
  destruct rest as [|p1 rest]; [by intros [= <-]|].
  destruct rest as [|p2 rest].
  { intros [= <-]. apply Hone; [done|]. simpl. lia. }
  set (min_dist := if decide (Options.resolution op = 1%Z)
                   then Params.max_step_dist_hr pa else Params.max_step_dist_lr pa) in *.
  intros Hrun. apply bind_Ok in Hrun as (tr & Htr & Hrun).
  assert (Hinit : trimmed_ok p0
            {| traj_dists := [0]; traj_vectors := []; trimmed_path := [] |}).
  { by split_and!. }
  pose proof (trim_ok _ p0 _ _ _ _ Hinit eq_refl Htr) as (Hl1 & Hl2 & _). clear Hinit.
  apply trim_kept in Htr as (kept & us & Hkept & _ & Hsub & _ & Hsp). simpl in Hkept.
  destruct (decide (length (traj_dists tr) < 2)%nat) as [Hlt2|Hlt2];
    [by injection Hrun as <-|].
  destruct (decide (length (traj_dists tr) < 3)%nat) as [Hlt3|Hlt3].
  { apply bind_Ok in Hrun as (p & Hp & Hrun). injection Hrun as <-. apply index_Ok in Hp.
    rewrite Hkept in Hp, Hl1.
    destruct kept as [|q kept]; [done|]. destruct kept as [|q' kept]; [|simpl in Hl1; lia].
    injection Hp as <-. apply Hone; [done|]. intros _. by apply (Hsp 0%nat). }
  apply bind_Ok in Hrun as (t_max & _ & Hrun).
  apply bind_Ok in Hrun as (vels0 & Hfw & Hrun).
  apply bind_Ok in Hrun as (vels & Hrv & Hrun).
  set (L := length (traj_dists tr)) in *.
  pose proof (emit_segments_lookup _ _ _ _ _ Hrun) as [Hlen Hall].
  assert (Hfw0 : exists more, vels0 = [0] ++ more /\ length more = (L - 2)%nat).
  { clear -Hfw. revert Hfw. generalize 1%nat, [0], (L - 2)%nat. intros i vels n.
    revert i vels. induction n as [|n IH]; intros i vels; simpl.
    { intros [= <-]. exists []. by rewrite app_nil_r. }
    intros H. apply bind_Ok in H as (dcurrent & _ & H).
    apply bind_Ok in H as (v_prev & _ & H).
    apply bind_Ok in H as (u0 & _ & H). apply bind_Ok in H as (u1 & _ & H).
    apply bind_Ok in H as (vj & _ & H). apply IH in H as (more & -> & Hm).
    eexists (_ :: more). rewrite <- app_assoc. split; [done|]. simpl. lia. }
  destruct Hfw0 as (more & -> & Hmore).
  assert (Hrl : length vels = L /\ vels !! (L - 1)%nat = Some 0).
  { clear -Hrv Hmore Hlt3. revert Hrv.
    assert (Hl : length (([0] ++ more) ++ [0]) = L) by (rewrite !length_app; simpl; lia).
    assert (Hz : (([0] ++ more) ++ [0]) !! (L - 1)%nat = Some 0).
    { rewrite lookup_app_r by (rewrite length_app; simpl; lia).
      rewrite length_app. simpl. by replace (L - 1 - S (length more))%nat with 0%nat by lia. }
    revert Hl Hz. generalize (([0] ++ more) ++ [0]). intros vs Hl Hz.
    assert (Hi : (L - 1 <= L - 1)%nat) by lia. revert Hi.
    generalize (L - 1)%nat at 1 3. intros i. revert vs Hl Hz.
    induction i as [|i IH]; intros vs Hl Hz Hi; simpl.
    { by intros [= <-]. }
    intros H. apply bind_Ok in H as (v_final & _ & H).
    apply bind_Ok in H as (v_initial & _ & H).
    apply bind_Ok in H as (seg_length & _ & H).
    case_decide; [|apply IH in H; [done..|lia]].
    apply IH in H; [done| | |lia].
    - by rewrite length_insert.
    - by rewrite list_lookup_insert_ne by lia. }
  destruct Hrl as [Hvl Hvlast].
  exists vels, (trimmed_path tr). split_and!.
  - rewrite Hlen. lia.
  - eapply reverse_pass_start; [|done]. done.
  - rewrite last_lookup, Hvl. by replace (Init.Nat.pred L) with (L - 1)%nat by lia.
  - intros Hsl.
    assert (H0 : Forall (fun v => 0 <= v <= Model.speed_limit su st) [0]).
    { constructor; [lra|constructor]. }
    apply (forward_pass_range _ _ _ _ _ _ _ _ _ Hsl H0) in Hfw as [Hr _].
    eapply reverse_pass_range; [|done].
    apply Forall_app. split; [done|]. constructor; [lra|constructor].
  - intros k sg Hk. by apply Hall.
  - rewrite Hlen. lia.
  - by rewrite Hkept.
  - intros _ k p q Hp Hq. rewrite Hkept in Hp, Hq. by eapply Hsp.
Qed.



(** X2: a planned path starts from rest and ends at rest, and each segment
    starts at the speed at which the one before it ends. *)
Theorem planned_path_rest_to_rest (pa : Params.t) (op : Options.t) (su : Setup.t)
    (st : State) (input_path : list (R * R)) (segs : list Segment) :
  plan_trajectory pa op su st input_path = Ok segs ->
  (forall sg, head segs = Some sg -> v_i sg = 0) /\
  (forall sg, last segs = Some sg -> v_f sg = 0) /\
  (forall k sg sg', segs !! k = Some sg -> segs !! S k = Some sg' -> v_f sg = v_i sg').
Proof.
  intros Hrun. destruct input_path as [|p0 rest].
  { unfold plan_trajectory in Hrun.
    assert (segs = []) as -> by (repeat case_decide; by injection Hrun as <-).
    split_and!; [done|done|]. intros k sg sg' Hk. by destruct k. }
  apply plan_trajectory_shape in Hrun as (vels & kept & Hlen & H0 & Hlast & _ & Hall & _).
  split_and!.
  - intros sg Hsg. rewrite head_lookup in Hsg. destruct (Hall _ _ Hsg) as (_ & Hvi & _).
    congruence.
  - intros sg Hsg. rewrite last_lookup in Hsg. destruct (Hall _ _ Hsg) as (_ & _ & Hvf).
    rewrite last_lookup, Hlen in Hlast. simpl in Hlast.
    assert (Hne : (0 < length segs)%nat) by (apply lookup_lt_Some in Hsg; lia).
    replace (S (Init.Nat.pred (length segs))) with (length segs) in Hvf by lia.
    congruence.
  - intros k sg sg' Hk Hk'. destruct (Hall _ _ Hk) as (_ & _ & Hvf).
    destruct (Hall _ _ Hk') as (_ & Hvi & _). congruence.
Qed.

(** X3: the planned destinations are vertices of the input path, in their
    order, never its first vertex; for a path of three or more vertices
    each destination is at least the minimum step distance away from the
    destination before it (from the first vertex for the first one). *)
Theorem planned_destinations (pa : Params.t) (op : Options.t) (su : Setup.t)
    (st : State) (p0 : R * R) (rest : list (R * R)) (segs : list Segment) :
  plan_trajectory pa op su st (p0 :: rest) = Ok segs ->
  let dests := (fun sg => (x_dest sg, y_dest sg)) <$> segs in
  sublist dests rest /\
  ((2 <= length rest)%nat ->
   forall k p q, (p0 :: dests) !! k = Some p -> dests !! k = Some q ->
     (if decide (Options.resolution op = 1%Z)
      then Params.max_step_dist_hr pa else Params.max_step_dist_lr pa)
     <= distance (q.1 - p.1) (q.2 - p.2)).
Proof.
  intros Hrun dests.
  apply plan_trajectory_shape in Hrun as (vels & kept & _ & _ & _ & _ & Hall & Hlen & Hsub & Hsp).
  assert (dests = kept) as ->; [|done].
  apply list_eq. intros k. unfold dests. rewrite list_lookup_fmap.
  destruct (segs !! k) as [sg|] eqn:Hk; simpl.
  - destruct (Hall _ _ Hk) as (-> & _). done.
  - symmetry. apply lookup_ge_None. apply lookup_ge_None in Hk. lia.
Qed.

(** X4: a path of three or more vertices that never leaves the minimum
    step distance around its first vertex is not plotted at all. *)
Theorem tiny_path_not_plotted (pa : Params.t) (op : Options.t) (su : Setup.t)
    (st : State) (p0 p1 p2 : R * R) (rest : list (R * R)) :
  Forall (fun p : R * R =>
            distance (p.1 - p0.1) (p.2 - p0.2) <
            (if decide (Options.resolution op = 1%Z)
             then Params.max_step_dist_hr pa else Params.max_step_dist_lr pa))
         (p1 :: p2 :: rest) ->
  plan_trajectory pa op su st (p0 :: p1 :: p2 :: rest) = Ok [].
Proof.
  intros Hnear. unfold plan_trajectory.
  destruct (decide (stopped st <> 0%Z)) as [Hst|Hst]; [done|].
  destruct (decide (f_curr_x st = None)) as [Hfx|Hfx]; [done|].
  rewrite trim_all_skipped by done. done.
Qed.


Lemma planned_path_rest_to_rest_witness :
  let segs := [ {| x_dest := 1; y_dest := 0; v_i := 0; v_f := 0 |};
                {| x_dest := 0; y_dest := 0; v_i := 0; v_f := 0 |} ] in
  (forall sg, head segs = Some sg -> v_i sg = 0) /\
  (forall sg, last segs = Some sg -> v_f sg = 0) /\
  (forall k sg sg', segs !! k = Some sg -> segs !! S k = Some sg' -> v_f sg = v_i sg').
Proof.
  exact (planned_path_rest_to_rest Scenario.params Scenario.options Scenario.setup
           Scenario.running [(0, 0); (1, 0); (0, 0)] _ plan_reversal).
Defined.

Lemma planned_destinations_witness :
  let dests := (fun sg => (x_dest sg, y_dest sg)) <$>
    [ {| x_dest := 1; y_dest := 0; v_i := 0; v_f := 0 |};
      {| x_dest := 0; y_dest := 0; v_i := 0; v_f := 0 |} ] in
  sublist dests [(1, 0); (0, 0)] /\
  ((2 <= length [(1, 0); (0, 0)])%nat ->
   forall k p q, ((0, 0) :: dests) !! k = Some p -> dests !! k = Some q ->
     (if decide (Options.resolution Scenario.options = 1%Z)
      then Params.max_step_dist_hr Scenario.params
      else Params.max_step_dist_lr Scenario.params)
     <= distance (q.1 - p.1) (q.2 - p.2)).
Proof.
  exact (planned_destinations Scenario.params Scenario.options Scenario.setup
           Scenario.running (0, 0) [(1, 0); (0, 0)] _ plan_reversal).
Defined.

Lemma tiny_path_not_plotted_witness :
  plan_trajectory Scenario.params Scenario.options Scenario.setup Scenario.running
    [(0, 0); (1 / 10000, 0); (1 / 5000, 0)] = Ok [].
Proof.
  apply tiny_path_not_plotted.
  assert (Hd : forall x, 0 <= x < 0.000348 -> distance (x - 0) (0 - 0) < 0.000348).
  { intros x Hx. replace (0 - 0) with 0 by lra. rewrite distance_axis.
    rewrite Rabs_pos_eq by lra. lra. }
  constructor; [|constructor; [|constructor]]; cbn [fst snd]; apply Hd; lra.
Defined.

(** ** The planner returns *)





Lemma forward_pass_length sl a ad delta tr n i vels vels' :
  forward_pass sl a ad delta tr n i vels = Ok vels' ->
  length vels' = (length vels + n)%nat.
Proof.
  revert i vels. induction n as [|n IH]; intros i vels; simpl.
  { intros [= <-]. lia. }
  intros H. apply bind_Ok in H as (dcurrent & _ & H).
  apply bind_Ok in H as (v_prev & _ & H).
  apply bind_Ok in H as (u0 & _ & H). apply bind_Ok in H as (u1 & _ & H).
  apply bind_Ok in H as (vj & _ & H). apply IH in H.
  rewrite length_app in H. simpl in H. lia.
Qed.

Lemma reverse_pass_length a tr i vels vels' :
  reverse_pass a tr i vels = Ok vels' -> length vels' = length vels.
Proof.
  revert vels. induction i as [|i IH]; intros vels; simpl.
  { by intros [= <-]. }
  intros H. apply bind_Ok in H as (v_final & _ & H).
  apply bind_Ok in H as (v_initial & _ & H).
  apply bind_Ok in H as (seg_length & _ & H).
  case_decide; apply IH in H; by rewrite ?length_insert in H.
Qed.




(** ** Array accesses of the planner *)

Lemma bind_Raise {A B : Type} (m : result A) (k : A -> result B) (e : exn) :
  (m ≫= k) = Raise e -> m = Raise e \/ exists a, m = Ok a /\ k a = Raise e.
Proof.
  destruct m; simpl; intros H; [right; eauto|left; by injection H as ->|discriminate].
Qed.

Lemma div_Raise (a b : R) (e : exn) : Py.div a b = Raise e -> e = ZeroDivisionError.
Proof. unfold Py.div. case_decide; intros [= <-]. done. Qed.

Lemma sqrt_Raise (x : R) (e : exn) : Py.sqrt x = Raise e -> e = ValueError.
Proof. unfold Py.sqrt. case_decide; intros [= <-]. done. Qed.

Lemma index_Raise {A : Type} (l : list A) (i : nat) (e : exn) :
  Py.index l i = Raise e -> (length l <= i)%nat.
Proof.
  unfold Py.index. destruct (l !! i) eqn:Hl; [done|]. intros _.
  by apply lookup_ge_None.
Qed.

Lemma trim_no_index min_dist lastp rest tr :
  trim min_dist lastp rest tr <> Raise IndexError.
Proof.
  revert lastp tr. induction rest as [|p rest IH]; intros lastp tr; simpl; [done|].
  case_decide as Hc; [|apply IH]. intros H.
  apply bind_Raise in H as [H|(ux & _ & H)]; [by apply div_Raise in H|].
  apply bind_Raise in H as [H|(uy & _ & H)]; [by apply div_Raise in H|].
  by apply IH in H.
Qed.

Lemma vjunction_max_no_index a delta c : vjunction_max a delta c <> Raise IndexError.
Proof.
  unfold vjunction_max. intros H.
  apply bind_Raise in H as [H|(rf & _ & H)]; [by apply sqrt_Raise in H|].
  apply bind_Raise in H as [H|(r & _ & H)]; [|by apply sqrt_Raise in H].
  case_decide as Hc; [by apply div_Raise in H|done].
Qed.

Lemma forward_pass_no_index sl a ad delta tr n i vels :
  length vels = i -> (1 <= i)%nat ->
  (i + n <= length (traj_vectors tr))%nat -> (i + n <= length (traj_dists tr))%nat ->
  forward_pass sl a ad delta tr n i vels <> Raise IndexError.
Proof.
  revert i vels. induction n as [|n IH]; intros i vels Hlen Hi Hv Hd; simpl; [done|].
  intros H.
  apply bind_Raise in H as [H|(d & _ & H)]; [apply index_Raise in H; lia|].
  apply bind_Raise in H as [H|(vp & _ & H)]; [apply index_Raise in H; lia|].
  apply bind_Raise in H as [H|(u0 & _ & H)]; [apply index_Raise in H; lia|].
  apply bind_Raise in H as [H|(u1 & _ & H)]; [apply index_Raise in H; lia|].
  apply bind_Raise in H as [H|(vj & _ & H)]; [by apply vjunction_max_no_index in H|].
  apply IH in H; [done| |lia..]. rewrite length_app. simpl. lia.
Qed.

Lemma reverse_pass_no_index a tr i vels :
  (i < length vels)%nat -> (i < length (traj_dists tr))%nat ->
  reverse_pass a tr i vels <> Raise IndexError.
Proof.
  revert vels. induction i as [|i IH]; intros vels Hv Hd; simpl; [done|].
  intros H.
  apply bind_Raise in H as [H|(vf & _ & H)]; [apply index_Raise in H; lia|].
  apply bind_Raise in H as [H|(vi & _ & H)]; [apply index_Raise in H; lia|].
  apply bind_Raise in H as [H|(d & _ & H)]; [apply index_Raise in H; lia|].
  case_decide as Hc; apply IH in H; rewrite ?length_insert; done || lia.
Qed.

Lemma emit_segments_no_index tr vels n i :
  (i + n <= length (trimmed_path tr))%nat -> (i + n < length vels)%nat ->
  emit_segments tr vels n i <> Raise IndexError.
Proof.
  revert i. induction n as [|n IH]; intros i Hp Hv; simpl; [done|].
  intros H.
  apply bind_Raise in H as [H|(p & _ & H)]; [apply index_Raise in H; lia|].
  apply bind_Raise in H as [H|(vi & _ & H)]; [apply index_Raise in H; lia|].
  apply bind_Raise in H as [H|(vf & _ & H)]; [apply index_Raise in H; lia|].
  apply bind_Raise in H as [H|(rest & _ & H)]; [|done].
  apply IH in H; [done|lia..].
Qed.

(** X6: whatever the numbers, every array access of the planner is within
    range: [plan_trajectory] never raises [IndexError]. *)
Theorem plan_trajectory_indices_in_range (pa : Params.t) (op : Options.t) (su : Setup.t)
    (st : State) (input_path : list (R * R)) :
  plan_trajectory pa op su st input_path <> Raise IndexError.
Proof.
  unfold plan_trajectory.
  destruct (decide (stopped st <> 0%Z)) as [Hst|Hst]; [done|].
  destruct (decide (f_curr_x st = None)) as [Hfx|Hfx]; [done|].
  destruct input_path as [|p0 rest]; [done|].
  destruct rest as [|p1 rest]; [done|].
  destruct rest as [|p2 rest]; [done|].
  set (min_dist := if decide (Options.resolution op = 1%Z)
                   then Params.max_step_dist_hr pa else Params.max_step_dist_lr pa) in *.
  intros H. apply bind_Raise in H as [H|(tr & Htr & H)]; [by apply trim_no_index in H|].
  assert (Hinit : trimmed_ok p0
            {| traj_dists := [0]; traj_vectors := []; trimmed_path := [] |}).
  { by split_and!. }
  pose proof (trim_ok _ p0 _ _ _ _ Hinit eq_refl Htr) as (Hl1 & Hl2 & _). clear Hinit.
  set (L := length (traj_dists tr)) in *.
  destruct (decide (L < 2)%nat) as [Hlt2|Hlt2]; [done|].
  destruct (decide (L < 3)%nat) as [Hlt3|Hlt3].
  { apply bind_Raise in H as [H|(p & _ & H)]; [apply index_Raise in H; lia|done]. }
  apply bind_Raise in H as [H|(t_max & _ & H)]; [by apply div_Raise in H|].
  apply bind_Raise in H as [H|(vels0 & Hfw & H)].
  { apply forward_pass_no_index in H; [done|done|lia..]. }
  apply forward_pass_length in Hfw. simpl in Hfw.
  apply bind_Raise in H as [H|(vels & Hrv & H)].
  { apply reverse_pass_no_index in H; [done| |lia]. rewrite length_app. simpl. lia. }
  apply reverse_pass_length in Hrv. rewrite length_app in Hrv. simpl in Hrv.
  apply emit_segments_no_index in H; [done|lia..].
Qed.

End PlannerStructure.

(** * Further properties of the segment executor *)

Section ExecutorTracking.

Import Pause Segment Sent.
Local Open Scope R_scope.

Variables (pa : Params.t) (op : Options.t) (su : Setup.t).

Lemma carried_nil s x y : carried s x y [] = (x, y).
Proof. unfold carried. simpl. f_equal; unfold Rdiv; ring. Qed.

Lemma carried_cons s x y mv mvs :
  carried s x y (mv :: mvs) =
  carried s (x + (IZR (move_steps1 mv) + IZR (move_steps2 mv)) / (s * 2))
            (y + (IZR (move_steps1 mv) - IZR (move_steps2 mv)) / (s * 2)) mvs.
Proof.
  unfold carried. rewrite sum_steps1_cons, sum_steps2_cons, !plus_IZR.
  f_equal; unfold Rdiv; ring.
Qed.

Lemma carried_app s x y mvs1 mvs2 :
  carried s x y (mvs1 ++ mvs2) =
  carried s (carried s x y mvs1).1 (carried s x y mvs1).2 mvs2.
Proof.
  unfold carried. rewrite sum_steps1_app, sum_steps2_app, !plus_IZR. simpl.
  f_equal; unfold Rdiv; ring.
Qed.

(** One interval outside a preview: either nothing changes, or the move
    is sent, it has steps, and the position advances by what it commands. *)
Lemma apply_move_effect mv st st' fx :
  Options.preview op = false -> f_curr_x st = Some fx ->
  apply_move op su mv st = Ok st' ->
  st' = st \/
  (moves st' = moves st ++ [mv] /\ has_steps mv /\
   (f_curr_x st', f_curr_y st') =
     (Some (carried (Setup.step_scale su) fx (f_curr_y st) [mv]).1,
      (carried (Setup.step_scale su) fx (f_curr_y st) [mv]).2)).
Proof.
  intros Hpre Hfx. unfold apply_move. case_decide as Hnz; [|intros [= <-]; by left].
  intros H. apply bind_Ok in H as (d1 & Hd1 & H). apply bind_Ok in H as (d2 & Hd2 & H).
  apply div_Ok in Hd1 as [_ ->]. apply div_Ok in Hd2 as [_ ->].
  destruct (negb (resume_mode st) && bool_decide (stopped st = 0%Z));
    [|injection H as <-; by left].
  rewrite Hfx, Hpre in H. injection H as <-. right.
  rewrite carried_cons, carried_nil. simpl.
  split_and!; [done|done|]. f_equal; [f_equal|]; unfold Rdiv; ring.
Qed.

Lemma emit_effect fuel dest2 durs todo index cu st cu' st' fx :
  Options.preview op = false -> f_curr_x st = Some fx ->
  emit fuel pa op su dest2 durs todo index cu st = Ok (cu', st') ->
  exists new,
    moves st' = moves st ++ new /\ Forall has_steps new /\
    (f_curr_x st', f_curr_y st') =
      (Some (carried (Setup.step_scale su) fx (f_curr_y st) new).1,
       (carried (Setup.step_scale su) fx (f_curr_y st) new).2).
Proof.
  intros Hpre. revert index cu st fx.
  induction todo as [|d todo IH]; intros index cu st fx Hfx; cbn [emit].
  { intros [= <- <-]. exists []. rewrite app_nil_r, Hfx, carried_nil.
    split_and!; [done|constructor|done]. }
  intros H. apply bind_Ok in H as (d2 & _ & H). apply bind_Ok in H as (du & _ & H).
  apply bind_Ok in H as (mv & _ & H). apply bind_Ok in H as (st1 & Ha & H).
  apply (apply_move_effect _ _ _ fx Hpre Hfx) in Ha as [->|(Hm & Hnz & Hxy)].
  { by eapply IH. }
  injection Hxy as Hx Hy.
  apply (IH _ _ _ _ Hx) in H as (new & Hm' & Hall & Hxy').
  exists (mv :: new). split_and!.
  - rewrite Hm', Hm, <- app_assoc. done.
  - by constructor.
  - rewrite Hxy', Hy. change (mv :: new) with ([mv] ++ new). by rewrite carried_app.
Qed.

Lemma plot_seg_with_v_effect fuel env st x y vi vf il st' fx :
  Options.preview op = false -> f_curr_x st = Some fx ->
  plot_seg_with_v fuel pa op su env st x y vi vf il = Ok st' ->
  exists new,
    moves st' = moves st ++ new /\ Forall has_steps new /\
    (f_curr_x st', f_curr_y st') =
      (Some (carried (Setup.step_scale su) fx (f_curr_y st) new).1,
       (carried (Setup.step_scale su) fx (f_curr_y st) new).2).
Proof.
  intros Hpre Hfx. unfold plot_seg_with_v. intros H.
  apply bind_Ok in H as (st1 & Hp & H).
  apply pause_res_check_fields in Hp as (Hm & Hx1 & Hy1 & _).
  assert (Hnil : forall s, moves s = moves st1 -> f_curr_x s = f_curr_x st1 ->
            f_curr_y s = f_curr_y st1 ->
            exists new,
              moves s = moves st ++ new /\ Forall has_steps new /\
              (f_curr_x s, f_curr_y s) =
                (Some (carried (Setup.step_scale su) fx (f_curr_y st) new).1,
                 (carried (Setup.step_scale su) fx (f_curr_y st) new).2)).
  { intros s Hs Hsx Hsy. exists []. rewrite app_nil_r, carried_nil. simpl.
    split_and!; [congruence|constructor|f_equal; congruence]. }
  rewrite Hx1, Hfx in H.
  case_decide as Hs. { injection H as <-. by apply Hnil. }
  destruct (check_bounds pa su il x y st1) as [[x' y'] st2] eqn:Hcb.
  apply check_bounds_fields in Hcb as (_ & _ & _ & Hm2 & Hx2 & Hy2 & _).
  apply bind_Ok in H as ([dxr dyr] & _ & H).
  case_decide as Hsmall. { injection H as <-. by apply Hnil. }
  apply bind_Ok in H as ([[durs d1] d2] & _ & H).
  apply bind_Ok in H as ([cu st3] & He & H). injection H as <-.
  apply (emit_effect _ _ _ _ _ _ _ _ _ fx Hpre) in He as (new & Hm3 & Hall & Hxy);
    [|congruence].
  exists new. split_and!; [congruence|done|]. rewrite Hxy. do 3 f_equal; congruence.
Qed.

(** X7: the driver's idea of where the carriage is never drifts from the
    moves it has sent: over any sequence of segment calls outside a
    preview (plotted, skipped while resuming, cut short by a pause, with
    steps dropped as too slow) the position after the calls is the
    position before them carried along the moves sent in between, and
    every move sent makes at least one step. *)
Theorem position_follows_moves (fuel : nat) (calls : list (Env * Planner.Segment))
    (st st' : State) (fx : R) :
  Options.preview op = false -> f_curr_x st = Some fx ->
  plot_segments fuel pa op su calls st = Ok st' ->
  exists new,
    moves st' = moves st ++ new /\ Forall has_steps new /\
    f_curr_x st' = Some (carried (Setup.step_scale su) fx (f_curr_y st) new).1 /\
    f_curr_y st' = (carried (Setup.step_scale su) fx (f_curr_y st) new).2.
Proof.
  intros Hpre. revert st fx. induction calls as [|[env sg] calls IH]; intros st fx Hfx;
    cbn [plot_segments].
  { intros [= <-]. exists []. rewrite app_nil_r, carried_nil. by split_and!; [|constructor|..]. }
  intros H. apply bind_Ok in H as (st1 & H1 & H).
  apply (plot_seg_with_v_effect _ _ _ _ _ _ _ _ _ fx Hpre Hfx) in H1
    as (new1 & Hm1 & Hall1 & Hxy1).
  injection Hxy1 as Hx1 Hy1.
  apply (IH _ _ Hx1) in H as (new2 & Hm2 & Hall2 & Hx2 & Hy2).
  exists (new1 ++ new2). split_and!.
  - by rewrite Hm2, Hm1, <- app_assoc.
  - by apply Forall_app.
  - by rewrite Hx2, Hy1, carried_app.
  - by rewrite Hy2, Hy1, carried_app.
Qed.

End ExecutorTracking.

Section ExecutorTrackingExample.

Import Pause Segment Sent.
Local Open Scope R_scope.

Lemma position_follows_moves_witness :
  exists st',
    plot_segments 0 Scenario.params Scenario.const_options Scenario.slow_setup
      [(Scenario.quiet, {| Planner.x_dest := 15 / 254; Planner.y_dest := 119 / 2032;
                           Planner.v_i := 0; Planner.v_f := 0 |})]
      Scenario.running = Ok st' /\
    exists new,
      moves st' = moves Scenario.running ++ new /\ Forall has_steps new /\
      f_curr_x st' =
        Some (carried (Setup.step_scale Scenario.slow_setup) 0
                (f_curr_y Scenario.running) new).1 /\
      f_curr_y st' =
        (carried (Setup.step_scale Scenario.slow_setup) 0
           (f_curr_y Scenario.running) new).2.
Proof.
  destruct slow_segment_run as (st' & Hrun & _).
  assert (Hcalls :
    plot_segments 0 Scenario.params Scenario.const_options Scenario.slow_setup
      [(Scenario.quiet, {| Planner.x_dest := 15 / 254; Planner.y_dest := 119 / 2032;
                           Planner.v_i := 0; Planner.v_f := 0 |})]
      Scenario.running = Ok st').
  { cbn [plot_segments Planner.x_dest Planner.y_dest Planner.v_i Planner.v_f].
    by rewrite Hrun. }
  exists st'. split; [exact Hcalls|].
  exact (position_follows_moves Scenario.params Scenario.const_options Scenario.slow_setup
           0 _ Scenario.running st' 0 eq_refl eq_refl Hcalls).
Defined.

End ExecutorTrackingExample.

Section ExecutorModes.

Import Pause Segment Sent.
Local Open Scope Z_scope.

Variables (pa : Params.t) (op : Options.t) (su : Setup.t).

Lemma sum_time_cons mv mvs : sum_time (mv :: mvs) = move_time mv + sum_time mvs.
Proof. done. Qed.

(** One interval of a running plot: a move with steps is sent, or in a
    preview its duration is added to the estimate; a move without steps
    changes nothing. *)
Lemma apply_move_running mv st st' :
  stopped st = 0 -> resume_mode st = false ->
  apply_move op su mv st = Ok st' ->
  stopped st' = 0 /\ resume_mode st' = false /\
  if decide (has_steps mv) then
    if Options.preview op
    then moves st' = moves st /\ pt_estimate st' = pt_estimate st + move_time mv
    else moves st' = moves st ++ [mv] /\ pt_estimate st' = pt_estimate st
  else st' = st.
Proof.
  intros Hs Hr. unfold apply_move, has_steps.
  destruct (decide (move_steps1 mv <> 0 \/ move_steps2 mv <> 0)) as [Hnz|Hnz];
    [|by intros [= <-]].
  intros H. apply bind_Ok in H as (d1 & _ & H). apply bind_Ok in H as (d2 & _ & H).
  rewrite Hr, bool_decide_eq_true_2 in H by done. simpl in H.
  destruct (f_curr_x st); [|discriminate]. injection H as <-.
  destruct (Options.preview op); simpl; by rewrite ?Hs, ?Hr.
Qed.

Lemma emit_running fuel dest2 durs todo index cu st cu' st' :
  stopped st = 0 -> resume_mode st = false ->
  emit fuel pa op su dest2 durs todo index cu st = Ok (cu', st') ->
  exists mvs,
    schedule fuel (Params.max_step_rate pa) dest2 durs todo index cu = Ok mvs /\
    if Options.preview op
    then moves st' = moves st /\
         pt_estimate st' = pt_estimate st + sum_time (filter has_steps mvs)
    else moves st' = moves st ++ filter has_steps mvs /\
         pt_estimate st' = pt_estimate st.
Proof.
  revert index cu st. induction todo as [|d todo IH]; intros index cu st Hs Hr; simpl.
  { intros [= <- <-]. exists []. split; [done|].
    destruct (Options.preview op); simpl; rewrite ?app_nil_r; split; done || lia. }
  intros H. apply bind_Ok in H as (d2 & Hd2 & H). apply bind_Ok in H as (du & Hdu & H).
  apply bind_Ok in H as (mv & Hmv & H). apply bind_Ok in H as (st1 & Ha & H).
  apply apply_move_running in Ha as (Hs1 & Hr1 & Ha); [|done..].
  apply IH in H as (mvs & Hsch & Hrest); [|done..].
  exists (mv :: mvs). rewrite Hd2; simpl. rewrite Hdu; simpl. rewrite Hmv; simpl.
  rewrite Hsch; simpl. split; [done|].
  destruct (decide (has_steps mv)) as [Hnz|Hnz].
  - rewrite filter_cons_True by done.
    destruct (Options.preview op); destruct Ha as [Ha1 Ha2]; destruct Hrest as [Hr1' Hr2'].
    + rewrite sum_time_cons. split; [congruence|lia].
    + split; [|congruence]. rewrite Hr1', Ha1, <- app_assoc. done.
  - rewrite filter_cons_False by done. by subst st1.
Qed.

(** X8: the plot and its preview run the same schedule: for a segment that is
    executed, a plot sends exactly the scheduled moves that have steps, in
    order, and leaves the time estimate alone; a preview sends nothing and
    adds exactly their durations to the time estimate. *)
Theorem preview_times_what_plot_sends (fuel : nat) (env : Env) (st st1 st' : State)
    (fx : R) (x y vi vf : R) (il : bool) :
  pause_res_check op su env st = Ok st1 ->
  stopped st1 = 0 -> resume_mode st1 = false -> f_curr_x st1 = Some fx ->
  plot_seg_with_v fuel pa op su env st x y vi vf il = Ok st' ->
  forall x' y' st2, check_bounds pa su il x y st1 = (x', y', st2) ->
  let m1 := Kinematics.motor_steps1 (Setup.step_scale su) (x' - fx) (y' - f_curr_y st2) in
  let m2 := Kinematics.motor_steps2 (Setup.step_scale su) (x' - fx) (y' - f_curr_y st2) in
  ~ (Z.abs m1 < 1 /\ Z.abs m2 < 1) ->
  exists mvs,
    segment_moves fuel pa op su st2 m1 m2 vi vf = Ok mvs /\
    if Options.preview op
    then moves st' = moves st /\
         pt_estimate st' = pt_estimate st1 + sum_time (filter has_steps mvs)
    else moves st' = moves st ++ filter has_steps mvs /\
         pt_estimate st' = pt_estimate st1.
Proof.
  intros Hpause Hs1 Hr1 Hfx Hrun x' y' st2 Hcb m1 m2 Hbig.
  unfold plot_seg_with_v in Hrun. rewrite Hpause in Hrun. simpl in Hrun.
  rewrite Hfx in Hrun.
  apply pause_res_check_fields in Hpause as (Hm1 & _).
  rewrite decide_False in Hrun by (intros Hne; by apply Hne).
  rewrite Hcb in Hrun.
  assert (Hpt : pt_estimate st2 = pt_estimate st1).
  { unfold check_bounds in Hcb. destruct il; [by injection Hcb as <- <- <-|].
    destruct (checkLimitsTol x _ _ _) as [x1 bx], (checkLimitsTol y _ _ _) as [y1 by_].
    injection Hcb as <- <- <-. by destruct (bx || by_). }
  apply check_bounds_fields in Hcb as (_ & Hs2 & Hr2 & Hm2 & _).
  apply bind_Ok in Hrun as ([dxr dyr] & Hdr & Hrun).
  fold m1 m2 in Hdr, Hrun.
  rewrite decide_False in Hrun by done.
  apply bind_Ok in Hrun as ([[durs d1] d2] & Hint & Hrun).
  apply bind_Ok in Hrun as ([cu st3] & He & Hrun). injection Hrun as <-.
  apply emit_running in He as (mvs & Hsch & Hres); [|congruence..].
  exists mvs. split.
  - unfold segment_moves. rewrite Hdr. simpl. rewrite Hint. simpl. exact Hsch.
  - destruct (Options.preview op); destruct Hres as [Ha Hb]; split; congruence.
Qed.

(** While the plot is skipping to its resume point a segment call walks
    on without motion: nothing is sent, the position and the time
    estimate stay. *)
Lemma plot_seg_with_v_skipping (fuel : nat) (env : Env) (st st1 st' : State)
    (x y vi vf : R) (il : bool) :
  pause_res_check op su env st = Ok st1 -> resume_mode st1 = true ->
  plot_seg_with_v fuel pa op su env st x y vi vf il = Ok st' ->
  moves st' = moves st /\ f_curr_x st' = f_curr_x st /\ f_curr_y st' = f_curr_y st /\
  pt_estimate st' = pt_estimate st1 /\ resume_mode st' = true /\
  node_count st' = node_count st1.
Proof.
  intros Hpause Hr1 Hrun.
  unfold plot_seg_with_v in Hrun. rewrite Hpause in Hrun. simpl in Hrun.
  apply pause_res_check_fields in Hpause as (Hm1 & Hx1 & Hy1 & _).
  destruct (f_curr_x st1) as [fx|] eqn:Hfx; [|discriminate].
  case_decide as Hstop. { injection Hrun as <-. simpl. by rewrite Hfx. }
  destruct (check_bounds pa su il x y st1) as [[x' y'] st2] eqn:Hcb.
  assert (Hpt : pt_estimate st2 = pt_estimate st1).
  { unfold check_bounds in Hcb. destruct il; [by injection Hcb as <- <- <-|].
    destruct (checkLimitsTol x _ _ _) as [x1 bx], (checkLimitsTol y _ _ _) as [y1 by_].
    injection Hcb as <- <- <-. by destruct (bx || by_). }
  apply check_bounds_fields in Hcb as (Hn2 & Hs2 & Hr2 & Hm2 & Hx2 & Hy2 & _).
  apply bind_Ok in Hrun as ([dxr dyr] & _ & Hrun).
  assert (Hnil : moves st2 = moves st /\ f_curr_x st2 = f_curr_x st /\
                 f_curr_y st2 = f_curr_y st /\ pt_estimate st2 = pt_estimate st1 /\
                 resume_mode st2 = true /\ node_count st2 = node_count st1).
  { split_and!; congruence. }
  case_decide as Hsmall. { by injection Hrun as <-. }
  apply bind_Ok in Hrun as ([[durs d1] d2] & _ & Hrun).
  apply bind_Ok in Hrun as ([cu st3] & He & Hrun). injection Hrun as <-.
  apply emit_fields in He as (_ & _ & _ & Hid).
  rewrite Hid by (right; congruence). done.
Qed.

End ExecutorModes.

Section ExecutorModesExamples.

Import Pause Segment Sent.
Local Open Scope R_scope.

Lemma preview_times_what_plot_sends_witness :
  exists st',
    plot_seg_with_v 0 Scenario.params Scenario.const_options Scenario.slow_setup
      Scenario.quiet Scenario.running (15 / 254) (119 / 2032) 0 0 false = Ok st' /\
    let m1 := Kinematics.motor_steps1 2032 (15 / 254 - 0) (119 / 2032 - 0) in
    let m2 := Kinematics.motor_steps2 2032 (15 / 254 - 0) (119 / 2032 - 0) in
    exists mvs,
      segment_moves 0 Scenario.params Scenario.const_options Scenario.slow_setup
        Scenario.counted m1 m2 0 0 = Ok mvs /\
      if Options.preview Scenario.const_options
      then moves st' = moves Scenario.running /\
           pt_estimate st' =
             (pt_estimate Scenario.counted + sum_time (filter has_steps mvs))%Z
      else moves st' = moves Scenario.running ++ filter has_steps mvs /\
           pt_estimate st' = pt_estimate Scenario.counted.
Proof.
  destruct slow_segment_run as (st' & Hrun & _).
  exists st'. split; [exact Hrun|].
  refine (preview_times_what_plot_sends Scenario.params Scenario.const_options
            Scenario.slow_setup 0 Scenario.quiet Scenario.running Scenario.counted st' 0
            (15 / 254) (119 / 2032) 0 0 false _ _ _ _ Hrun
            (15 / 254) (119 / 2032) Scenario.counted slow_bounds _).
  - reflexivity.
  - reflexivity.
  - reflexivity.
  - reflexivity.
  - change (Setup.step_scale Scenario.slow_setup) with 2032.
    change (f_curr_y Scenario.counted) with 0.
    destruct slow_steps as [-> ->]. lia.
Defined.

(** The slow segment again, met while skipping to node 100. *)
Lemma skipping_segment_run :
  exists st',
    plot_seg_with_v 0 Scenario.params Scenario.const_options Cases.resume_setup
      Scenario.quiet Cases.skipping (15 / 254) (119 / 2032) 0 0 false = Ok st'.
Proof.
  assert (Hp : pause_res_check Scenario.const_options Cases.resume_setup Scenario.quiet
                 Cases.skipping = Ok (set_node_count 6 Cases.skipping)) by reflexivity.
  assert (Hm : interval_move 0 24.995 {| prev_motor1 := 0; prev_motor2 := 0; prev_time := 0 |}
                 239 1 1000 = Ok Scenario.slow_move) by (vm_compute; reflexivity).
  assert (Hb : check_bounds Scenario.params Cases.resume_setup false (15 / 254) (119 / 2032)
                 (set_node_count 6 Cases.skipping)
               = (15 / 254, 119 / 2032, set_node_count 6 Cases.skipping)).
  { unfold check_bounds, checkLimitsTol. simpl.
    rewrite (decide_False (P := 15 / 254 > 11.81)) by lra.
    rewrite (decide_False (P := 15 / 254 < 0)) by lra.
    rewrite (decide_False (P := 119 / 2032 > 8.58)) by lra.
    rewrite (decide_False (P := 119 / 2032 < 0)) by lra.
    reflexivity. }
  eexists. unfold plot_seg_with_v.
  rewrite Hp. cbn [mbind result_bind Py.bind].
  change (f_curr_x (set_node_count 6 Cases.skipping)) with (Some 0). cbv beta iota.
  destruct (decide (stopped (set_node_count 6 Cases.skipping) <> 0%Z)) as [Hne|_];
    [by exfalso; apply Hne|].
  rewrite Hb.
  change (f_curr_y (set_node_count 6 Cases.skipping)) with 0.
  change (Setup.step_scale Cases.resume_setup) with 2032.
  destruct slow_steps as [-> ->].
  unfold Kinematics.delta_rounded. rewrite !div_nonzero by lra.
  cbn [mbind result_bind Py.bind].
  rewrite decide_False by lia.
  rewrite slow_length.
  change (intervals 0 Scenario.params Scenario.const_options Cases.resume_setup
            (set_node_count 6 Cases.skipping) 239 1 (338 / 4064) 0 0)
    with (intervals 0 Scenario.params Scenario.const_options Scenario.slow_setup
            Scenario.counted 239 1 (338 / 4064) 0 0).
  rewrite slow_intervals.
  cbn [mbind result_bind Py.bind emit Py.index lookup list_lookup].
  change (Params.max_step_rate Scenario.params) with 24.995%Q.
  rewrite Hm. cbn [mbind result_bind Py.bind].
  unfold apply_move.
  rewrite decide_True by (left; done).
  change (Setup.step_scale Cases.resume_setup) with 2032.
  rewrite !div_nonzero by lra.
  cbn [mbind result_bind Py.bind].
  reflexivity.
Qed.

End ExecutorModesExamples.

Section OverspeedLeast.

Import Segment.
Local Open Scope Z_scope.

(** X9: the loop that avoids an overspeed adds no more delay than needed: at
    every duration it passed over, one of the axes was at or above the
    rate limit. *)
Theorem overspeed_adds_least_delay (fuel : nat) (max_step_rate : Q)
    (move_steps1 move_steps2 move_time move_time' : Z) :
  overspeed fuel max_step_rate move_steps1 move_steps2 move_time = Ok move_time' ->
  forall t, move_time <= t < move_time' ->
    (step_rate move_steps1 t >= max_step_rate \/
     step_rate move_steps2 t >= max_step_rate)%Q.
Proof.
  revert move_time. induction fuel as [|fuel IH]; intros move_time; simpl.
  - case_decide as Hc; [discriminate|]. intros [= <-] t Ht. lia.
  - case_decide as Hc.
    + intros H t Ht. destruct (decide (t = move_time)) as [->|Hne]; [done|].
      apply (IH _ H). lia.
    + intros [= <-] t Ht. lia.
Qed.

Lemma overspeed_adds_least_delay_witness :
  overspeed 2000 24.995 30000 0 1 = Ok 1201 /\
  forall t, 1 <= t < 1201 ->
    (step_rate 30000 t >= 24.995 \/ step_rate 0 t >= 24.995)%Q.
Proof.
  assert (H : overspeed 2000 24.995 30000 0 1 = Ok 1201) by (vm_compute; reflexivity).
  split; [exact H|]. exact (overspeed_adds_least_delay _ _ _ _ _ _ H).
Defined.

End OverspeedLeast.

(** * Further properties of the pause check *)

Section PauseCodes.

Import Pause.
Local Open Scope Z_scope.

Variables (op : Options.t) (su : Setup.t).

(** X10: after a check the plot is running or stopped: the negative codes that
    request a pause never outlive the check. *)
Theorem check_leaves_no_request (env : Env) (st st' : State) :
  pause_res_check op su env st = Ok st' -> 0 <= stopped st'.
Proof.
  intros H. apply pause_res_check_fields in H as (_ & _ & _ & _ & _ & Hpos & Hneg).
  destruct (decide (stopped st > 0)) as [Hs|Hs].
  - rewrite (Hpos Hs). lia.
  - destruct (decide (stopped st' = 0)) as [->|Hne]; [lia|].
    assert (stopped st' > 0) by (apply Hneg; [lia|done]). lia.
Qed.

Lemma request_pause_code env st :
  stopped (request_pause su env st) =
    (if pause_request env then
       if Setup.delay_between_copies su then -2 else -103
     else stopped st) /\
  connected (request_pause su env st) = connected st.
Proof.
  unfold request_pause.
  by destruct (pause_request env), (Setup.delay_between_copies su).
Qed.

Lemma read_button_code env st pressed st' :
  read_button op su env st = Ok (pressed, st') ->
  if decide (stopped st = 0 /\ Setup.port su = true) then
    match str_button env with
    | ButtonDigit d => pressed = d /\ st' = st
    | ButtonGarbled => pressed = 0 /\ stopped st' = -104 /\ connected st' = false
    end
  else pressed = 0 /\ st' = st.
Proof.
  unfold read_button. case_decide as Hc; [|by intros [= <- <-]].
  destruct (Options.preview op); [discriminate|].
  destruct (str_button env); by intros [= <- <-].
Qed.

Lemma button_pause_code pressed st :
  stopped (button_pause su pressed st) =
    (if decide (pressed = 1) then
       if Setup.delay_between_copies su then -2 else -102
     else stopped st) /\
  connected (button_pause su pressed st) = connected st.
Proof.
  unfold button_pause. case_decide; [|done].
  by destruct (Setup.delay_between_copies su).
Qed.

Lemma skip_to_target_connected st :
  connected (skip_to_target op su st) = connected st.
Proof. unfold skip_to_target. by repeat case_decide. Qed.

Lemma enter_pause_connected st st' :
  enter_pause su st = Ok st' -> connected st' = connected st.
Proof.
  unfold enter_pause, pen_raise. destruct (f_curr_x st); [|discriminate].
  intros [= <-]. simpl. by destruct (resume_mode st).
Qed.

Lemma count_node_connected st : connected (count_node su st) = connected st.
Proof.
  unfold count_node, pen_lower. simpl.
  destruct (resume_mode st); [|done]. case_decide; [|done]. simpl.
  by destruct (virtual_pen_up st).
Qed.

(** The stop code of a check that starts from a running plot, and what
    becomes of [connected]. *)
Lemma pause_res_check_code env st st' :
  stopped st = 0 ->
  pause_res_check op su env st = Ok st' ->
  stopped st' =
    (if pause_request env then
       if Setup.delay_between_copies su then 2 else 103
     else if Setup.port su then
       match str_button env with
       | ButtonGarbled => 104
       | ButtonDigit d =>
         if decide (d = 1) then
           if Setup.delay_between_copies su then 2 else 102
         else 0
       end
     else 0) /\
  (connected st' =
     if pause_request env then connected st
     else if Setup.port su then
       match str_button env with
       | ButtonGarbled => false
       | ButtonDigit _ => connected st
       end
     else connected st).
Proof.
  intros Hs. unfold pause_res_check. rewrite decide_False by lia.
  intros H. apply bind_Ok in H as ([pressed st1] & Hb & H).
  destruct (request_pause_code env st) as [Hc0 Hk0].
  apply read_button_code in Hb.
  destruct (button_pause_code pressed st1) as [Hc2 Hk2].
  pose proof (skip_to_target_fields op su (button_pause su pressed st1))
    as (_ & _ & _ & _ & Hc3 & _).
  pose proof (skip_to_target_connected (button_pause su pressed st1)) as Hk3.
  simpl in Hc3.
  set (st3 := skip_to_target op su (button_pause su pressed st1)) in *.
  assert (Hfin : stopped st' = Z.abs (stopped st3) /\ connected st' = connected st3).
  { destruct (decide (stopped st3 < 0)) as [Hneg|Hneg].
    - pose proof (enter_pause_connected _ _ H).
      apply enter_pause_fields in H as (_ & _ & _ & _ & ->). split; [lia|done].
    - injection H as <-. rewrite count_node_connected.
      pose proof (count_node_fields su st3) as (_ & _ & _ & _ & Hc4). simpl in Hc4.
      rewrite Hc4. split; [lia|done]. }
  destruct Hfin as [-> ->]. rewrite Hk3, Hk2, Hc3, Hc2.
  revert Hb. rewrite Hc0.
  destruct (pause_request env).
  - rewrite decide_False by (destruct (Setup.delay_between_copies su); lia).
    intros [-> ->]. rewrite decide_False by lia.
    rewrite Hc0, Hk0. by destruct (Setup.delay_between_copies su).
  - rewrite Hs. destruct (Setup.port su).
    + rewrite decide_True by done. destruct (str_button env) as [d|].
      * intros [-> ->]. rewrite Hc0, Hk0, Hs.
        case_decide; [|done]. by destruct (Setup.delay_between_copies su).
      * intros (-> & -> & ->). rewrite decide_False by lia. done.
    + rewrite decide_False by (intros [_ ?]; done).
      intros [-> ->]. rewrite decide_False by lia. by rewrite Hc0, Hk0, Hs.
Qed.

(** X11: the code a running plot stops with.  A keyboard interrupt is looked at
    first and gives 103; the button is then not read, so a lost connection
    goes unnoticed at that check.  Otherwise, with a port open, a reply
    that cannot be read gives 104 and clears [connected], and a pressed
    button gives 102.  Between copies an interrupt or the button gives 2. *)
Theorem stop_codes (env : Env) (st st' : State) :
  stopped st = 0 ->
  pause_res_check op su env st = Ok st' ->
  let between := Setup.delay_between_copies su in
  let pressed := Setup.port su = true /\ str_button env = ButtonDigit 1 in
  let garbled := Setup.port su = true /\ str_button env = ButtonGarbled in
  (stopped st' = 103 <-> pause_request env = true /\ between = false) /\
  (stopped st' = 104 <-> pause_request env = false /\ garbled) /\
  (stopped st' = 102 <-> pause_request env = false /\ pressed /\ between = false) /\
  (stopped st' = 2 <-> between = true /\ (pause_request env = true \/ pressed)) /\
  (stopped st' = 0 <-> pause_request env = false /\ ~ pressed /\ ~ garbled) /\
  (stopped st' = 104 -> connected st' = false).
Proof.
  intros Hs H between pressed garbled. subst between pressed garbled.
  apply pause_res_check_code in H as [-> ->]; [|done].
  destruct (pause_request env), (Setup.delay_between_copies su), (Setup.port su),
    (str_button env) as [d|]; try destruct (decide (d = 1)) as [->|Hd];
    rewrite ?decide_True by done; rewrite ?decide_False by done;
    split_and!; try split; intros; try lia; try done;
    intuition (try lia; try discriminate; try congruence).
Qed.


(** A check that finds nothing to stop for only counts the node. *)
Lemma pause_res_check_quiet env st st' :
  stopped st = 0 -> pause_res_check op su env st = Ok st' -> stopped st' = 0 ->
  st' = count_node su st.
Proof.
  intros Hs H H0. pose proof (pause_res_check_code _ _ _ Hs H) as [Hc _].
  rewrite H0 in Hc. revert H. unfold pause_res_check, request_pause, read_button.
  rewrite decide_False by lia.
  destruct (pause_request env);
    [destruct (Setup.delay_between_copies su); discriminate|].
  assert (Hst : forall pressed, pressed <> 1 ->
            (let st3 := skip_to_target op su (button_pause su pressed st) in
             if decide (stopped st3 < 0) then enter_pause su st3
             else Ok (count_node su st3)) = Ok st' -> st' = count_node su st).
  { intros pressed Hp. unfold button_pause, skip_to_target.
    rewrite (decide_False (P := pressed = 1)) by done.
    rewrite (decide_False (P := stopped st <> 0)) by (intros Hne; by apply Hne).
    rewrite decide_False by lia. by intros [= <-]. }
  destruct (Setup.port su).
  - rewrite decide_True by done.
    destruct (Options.preview op); [discriminate|].
    destruct (str_button env) as [d|]; [|discriminate]. simpl.
    apply Hst. intros ->. rewrite decide_True in Hc by done.
    by destruct (Setup.delay_between_copies su).
  - rewrite decide_False by (intros [_ ?]; done). simpl. by apply Hst.
Qed.

(** X12: what a stop leaves for the resume: the node count reached and the
    position, relative to the first point.  In [res_plot] mode a plot
    stopped again before it reached its resume point is stored as if it
    had reached it. *)
Theorem stop_records_progress (env : Env) (st st' : State) :
  stopped st <= 0 ->
  pause_res_check op su env st = Ok st' -> stopped st' <> 0 ->
  exists fx,
    f_curr_x st = Some fx /\
    svg_paused_x st' = (fx - (Setup.pt_first su).1)%R /\
    svg_paused_y st' = (f_curr_y st - (Setup.pt_first su).2)%R /\
    svg_node_count st' = node_count st' /\
    node_count st' =
      (if decide (Options.mode op = "res_plot"%string /\
                  node_count st < Setup.node_target su)
       then Setup.node_target su else node_count st).
Proof.
  intros Hs. unfold pause_res_check. rewrite decide_False by lia.
  intros H Hne. apply bind_Ok in H as ([pressed st1] & Hb & H).
  pose proof (request_pause_fields su env st) as (Hn0 & _ & Hx0 & Hy0 & Hs0).
  apply read_button_fields in Hb as (Hn1 & _ & Hx1 & Hy1 & Hs1).
  pose proof (button_pause_fields su pressed st1) as (Hn2 & _ & Hx2 & Hy2 & Hs2).
  simpl in *.
  set (st2 := button_pause su pressed st1) in *.
  assert (Hle : stopped st2 <= 0) by auto.
  destruct (decide (stopped (skip_to_target op su st2) < 0)) as [Hneg|Hneg].
  - assert (Hst2 : stopped st2 <> 0).
    { revert Hneg. unfold skip_to_target. repeat case_decide; simpl; lia. }
    assert (Hskip : f_curr_x (skip_to_target op su st2) = f_curr_x st /\
                    f_curr_y (skip_to_target op su st2) = f_curr_y st /\
                    node_count (skip_to_target op su st2) =
                      (if decide (Options.mode op = "res_plot"%string /\
                                  node_count st < Setup.node_target su)
                       then Setup.node_target su else node_count st)).
    { unfold skip_to_target. rewrite (decide_True (P := stopped st2 <> 0)) by done.
      repeat case_decide; simpl; split_and!; try congruence; try lia;
        exfalso; intuition congruence || lia. }
    destruct Hskip as (Hx3 & Hy3 & Hn3).
    unfold enter_pause in H. rewrite Hx3 in H.
    destruct (f_curr_x st) as [fx|]; [|discriminate]. injection H as <-.
    exists fx. rewrite <- Hn3, <- Hy3. unfold pen_raise.
    destruct (resume_mode _); simpl; done.
  - injection H as <-. exfalso. apply Hne.
    pose proof (count_node_fields su (skip_to_target op su st2)) as (_ & _ & _ & _ & Hc).
    pose proof (skip_to_target_fields op su st2) as (_ & _ & _ & _ & Hc3 & _).
    simpl in Hc, Hc3. rewrite Hc. lia.
Qed.

(** X13: a check that lets the plot run counts one node and ends resume mode
    exactly when the count reaches [node_target]; it never starts resume
    mode. *)
Theorem resume_ends_at_target (env : Env) (st st' : State) :
  stopped st = 0 -> pause_res_check op su env st = Ok st' -> stopped st' = 0 ->
  node_count st' = node_count st + 1 /\
  resume_mode st' =
    resume_mode st && bool_decide (node_count st + 1 < Setup.node_target su).
Proof.
  intros Hs H H0. rewrite (pause_res_check_quiet _ _ _ Hs H H0).
  unfold count_node, pen_lower. simpl.
  destruct (resume_mode st) eqn:Hr; simpl; [|by rewrite Hr].
  case_decide as Hc.
  - rewrite bool_decide_eq_false_2 by lia. by destruct (virtual_pen_up st).
  - rewrite bool_decide_eq_true_2 by lia. done.
Qed.

End PauseCodes.

Section ResumeReplay.

Import Pause Segment.
Local Open Scope Z_scope.

Variables (pa : Params.t) (op : Options.t) (su : Setup.t).

Lemma plot_segments_stopped_fields fuel calls st st' :
  stopped st > 0 -> f_curr_x st <> None ->
  plot_segments fuel pa op su calls st = Ok st' ->
  moves st' = moves st /\ f_curr_x st' = f_curr_x st /\ f_curr_y st' = f_curr_y st /\
  stopped st' = stopped st.
Proof.
  revert st. induction calls as [|[env sg] calls IH]; intros st Hs Hx; simpl.
  { by intros [= <-]. }
  rewrite plot_seg_with_v_stopped by done. simpl. intros H.
  apply IH in H; done.
Qed.

Lemma plot_seg_with_v_position fuel env st x y vi vf il st' :
  plot_seg_with_v fuel pa op su env st x y vi vf il = Ok st' -> f_curr_x st <> None.
Proof.
  unfold plot_seg_with_v. intros H. apply bind_Ok in H as (st1 & Hp & H).
  apply pause_res_check_fields in Hp as (_ & Hx & _). rewrite <- Hx.
  by destruct (f_curr_x st1).
Qed.

(** X14: a resumed plot replays its segments without motion: as long as the
    node counter stays below [node_target], the calls send nothing and
    leave the position alone, whether they run through (each counts one
    node, resume mode stays on) or a pause stops them again. *)
Theorem resume_replays_without_motion (fuel : nat)
    (calls : list (Env * Planner.Segment)) (st st' : State) :
  stopped st = 0 -> resume_mode st = true ->
  node_count st + Z.of_nat (length calls) < Setup.node_target su ->
  plot_segments fuel pa op su calls st = Ok st' ->
  moves st' = moves st /\ f_curr_x st' = f_curr_x st /\ f_curr_y st' = f_curr_y st /\
  (stopped st' = 0 ->
   resume_mode st' = true /\ node_count st' = node_count st + Z.of_nat (length calls)).
Proof.
  revert st. induction calls as [|[env sg] calls IH]; intros st Hs Hr Hn; simpl.
  { intros [= <-]. split_and!; try done. intros _. split; [done|lia]. }
  intros H. apply bind_Ok in H as (st2 & Hseg & H).
  pose proof Hseg as Hfx. apply plot_seg_with_v_position in Hfx.
  pose proof Hseg as Hf.
  apply plot_seg_with_v_frame in Hf as (st1 & Hp & Hn2 & Hs2 & Hstop).
  pose proof Hp as Hpf.
  apply pause_res_check_fields in Hpf as (Hm1 & Hx1 & Hy1 & _ & _ & _ & Hpos).
  destruct (decide (stopped st1 = 0)) as [Hz|Hnz].
  - pose proof Hp as Hq. apply pause_res_check_quiet in Hq; [|done..].
    assert (Hr1 : resume_mode st1 = true /\ node_count st1 = node_count st + 1).
    { rewrite Hq. unfold count_node. simpl. rewrite Hr.
      rewrite decide_False by (simpl in Hn; lia). done. }
    destruct Hr1 as [Hr1 Hn1].
    pose proof (plot_seg_with_v_skipping pa op su _ _ _ _ _ _ _ _ _ _ Hp Hr1 Hseg)
      as (Hm2 & Hx2 & Hy2 & _ & Hr2 & Hn2').
    apply IH in H as (Hm & Hx & Hy & Hrun); [|congruence|done|simpl in Hn; lia].
    split_and!; try congruence.
    intros H0. destruct (Hrun H0) as [Hr' Hn']. split; [done|].
    rewrite Hn', Hn2', Hn1. simpl. lia.
  - assert (Hgt : stopped st1 > 0) by (apply Hpos; [lia|done]).
    rewrite (Hstop Hnz) in H.
    apply plot_segments_stopped_fields in H as (Hm & Hx & Hy & Hst);
      [|simpl; lia|simpl; congruence].
    simpl in *. split_and!; try congruence; intros H0; lia.
Qed.

End ResumeReplay.

Section PauseExamples.

Import Pause Segment.
Local Open Scope Z_scope.

Lemma check_leaves_no_request_witness :
  0 <= stopped (count_node Scenario.setup Scenario.running).
Proof.
  exact (check_leaves_no_request Scenario.options Scenario.setup Scenario.quiet
           Scenario.running _ eq_refl).
Defined.

Lemma stop_codes_witness :
  let st' := count_node Scenario.setup Scenario.running in
  let between := Setup.delay_between_copies Scenario.setup in
  let pressed := Setup.port Scenario.setup = true /\
                 str_button Scenario.quiet = ButtonDigit 1 in
  let garbled := Setup.port Scenario.setup = true /\
                 str_button Scenario.quiet = ButtonGarbled in
  (stopped st' = 103 <-> pause_request Scenario.quiet = true /\ between = false) /\
  (stopped st' = 104 <-> pause_request Scenario.quiet = false /\ garbled) /\
  (stopped st' = 102 <->
     pause_request Scenario.quiet = false /\ pressed /\ between = false) /\
  (stopped st' = 2 <->
     between = true /\ (pause_request Scenario.quiet = true \/ pressed)) /\
  (stopped st' = 0 <-> pause_request Scenario.quiet = false /\ ~ pressed /\ ~ garbled) /\
  (stopped st' = 104 -> connected st' = false).
Proof.
  exact (stop_codes Scenario.options Scenario.setup Scenario.quiet Scenario.running
           _ eq_refl eq_refl).
Defined.

Lemma stop_records_progress_witness :
  exists st',
    pause_res_check Scenario.options Scenario.setup Cases.pressed Scenario.running = Ok st' /\
    stopped st' = 102 /\
    exists fx,
      f_curr_x Scenario.running = Some fx /\
      svg_paused_x st' = (fx - (Setup.pt_first Scenario.setup).1)%R /\
      svg_paused_y st' =
        (f_curr_y Scenario.running - (Setup.pt_first Scenario.setup).2)%R /\
      svg_node_count st' = node_count st' /\
      node_count st' =
        (if decide (Options.mode Scenario.options = "res_plot"%string /\
                    node_count Scenario.running < Setup.node_target Scenario.setup)
         then Setup.node_target Scenario.setup else node_count Scenario.running).
Proof.
  eexists. split; [reflexivity|]. split; [reflexivity|].
  apply (stop_records_progress Scenario.options Scenario.setup Cases.pressed
           Scenario.running).
  - simpl. lia.
  - reflexivity.
  - simpl. lia.
Defined.

Lemma resume_ends_at_target_witness :
  node_count (set_node_count 6 Cases.skipping) = node_count Cases.skipping + 1 /\
  resume_mode (set_node_count 6 Cases.skipping) =
    resume_mode Cases.skipping &&
    bool_decide (node_count Cases.skipping + 1 < Setup.node_target Cases.resume_setup).
Proof.
  exact (resume_ends_at_target Scenario.const_options Cases.resume_setup Scenario.quiet
           Cases.skipping _ eq_refl eq_refl eq_refl).
Defined.

Lemma resume_replays_without_motion_witness :
  exists st',
    plot_segments 0 Scenario.params Scenario.const_options Cases.resume_setup
      [(Scenario.quiet, {| Planner.x_dest := (15 / 254)%R; Planner.y_dest := (119 / 2032)%R;
                           Planner.v_i := 0%R; Planner.v_f := 0%R |})]
      Cases.skipping = Ok st' /\
    moves st' = moves Cases.skipping /\
    f_curr_x st' = f_curr_x Cases.skipping /\ f_curr_y st' = f_curr_y Cases.skipping /\
    (stopped st' = 0 ->
     resume_mode st' = true /\ node_count st' = node_count Cases.skipping + Z.of_nat 1).
Proof.
  destruct skipping_segment_run as (st' & Hrun).
  assert (Hcalls :
    plot_segments 0 Scenario.params Scenario.const_options Cases.resume_setup
      [(Scenario.quiet, {| Planner.x_dest := (15 / 254)%R; Planner.y_dest := (119 / 2032)%R;
                           Planner.v_i := 0%R; Planner.v_f := 0%R |})]
      Cases.skipping = Ok st').
  { cbn [plot_segments Planner.x_dest Planner.y_dest Planner.v_i Planner.v_f].
    by rewrite Hrun. }
  exists st'. split; [exact Hcalls|].
  refine (resume_replays_without_motion Scenario.params Scenario.const_options
            Cases.resume_setup 0 _ Cases.skipping st' eq_refl eq_refl _ Hcalls).
  simpl. lia.
Defined.

End PauseExamples.


(** * Further properties of the checkpoint *)

Section CheckpointEdges.

Import Checkpoint.

Context {F : Type}.
Variables (parse_int : string -> option Z) (parse_float : string -> option F).
Variable trunc : F -> result Z.

Local Abbreviation convert := (convert parse_int parse_float).
Local Abbreviation read_core := (read_core parse_int parse_float).
Local Abbreviation read_plotdata := (read_plotdata parse_int parse_float trunc).

(** With every attribute of the table present, the first [try] block can
    only fail on a value that is not a number. *)
Lemma read_core_present (data_node : gmap string string) fields
    (self : gmap string (Value F)) :
  Forall (fun f => data_node !! xml_name f <> None) fields ->
  ((read_core data_node fields self).2 = None \/
   (read_core data_node fields self).2 = Some ValueError) /\
  (Exists (fun f => convert (kind f) (data_node !! xml_name f) = Raise ValueError) fields ->
   (read_core data_node fields self).2 = Some ValueError).
Proof.
  revert self. induction fields as [|[[name attr] k] fields IH]; intros self Hall; simpl.
  { split; [by left|]. intros H. by apply Exists_nil in H. }
  apply Forall_cons in Hall as [Hhd Hall]. unfold xml_name in Hhd. simpl in Hhd.
  destruct (convert_outcome parse_int parse_float k (data_node !! name))
    as [(v & Hv & _)|[[_ Hnone]|[Hv _]]]; [|done|]; rewrite Hv.
  - destruct (IH (<[attr:=v]> self) Hall) as [Hcases Hex]. split; [done|].
    intros H. apply Exists_cons in H as [H|H]; [|by apply Hex].
    unfold kind, xml_name in H. simpl in H. congruence.
  - simpl. split; [by right|done].
Qed.

(** X15: a core attribute that is present but is not a number is not
    forgiven: [ValueError] leaves [read_plotdata], the element stays in
    the document, the flag stays false and the optional attributes are
    not looked at. *)
Theorem malformed_number_escapes (self : gmap string (Value F))
    (data_node : gmap string string) (others : list (gmap string string)) :
  Forall (fun f => data_node !! xml_name f <> None) core_fields ->
  Exists (fun f => convert (kind f) (data_node !! xml_name f) = Raise ValueError)
         core_fields ->
  let out := read_plotdata self (data_node :: others) in
  escaped out = Some ValueError /\
  doc_after out = data_node :: others /\
  self_after out !! "svg_data_read"%string = Some (VBool false) /\
  self_after out !! "svg_row_old"%string = self !! "svg_row_old"%string /\
  self_after out !! "svg_rand_seed_old"%string = self !! "svg_rand_seed_old"%string.
Proof.
  intros Hall Hex. unfold read_plotdata.
  set (self0 := <["svg_data_read"%string := VBool false]> self).
  destruct (read_core_present data_node core_fields self0 Hall) as [_ Hv].
  specialize (Hv Hex).
  destruct (read_core data_node core_fields self0) as [self1 exc] eqn:Hcore.
  simpl in Hv. subst exc.
  apply read_core_spec in Hcore as (Hout & _). simpl.
  rewrite !Hout by compute_done. unfold self0.
  rewrite lookup_insert_eq, !lookup_insert_ne by done. done.
Qed.

(** X16: a record that is discarded for a missing core attribute is still
    read for its optional attributes: a [row] it carries replaces
    [svg_row_old]. *)
Theorem discarded_record_sets_row (self : gmap string (Value F))
    (data_node : gmap string string) (others : list (gmap string string))
    (s : string) (row : Z) :
  Exists (fun f => data_node !! xml_name f = None) core_fields ->
  data_node !! "row"%string = Some s -> parse_int s = Some row ->
  let out := read_plotdata self (data_node :: others) in
  escaped out = None ->
  doc_after out = others /\
  self_after out !! "svg_data_read"%string = Some (VBool false) /\
  self_after out !! "svg_row_old"%string = Some (VInt row).
Proof.
  intros Hmissing Hrow Hparse. unfold read_plotdata.
  set (self0 := <["svg_data_read"%string := VBool false]> self).
  destruct (read_core data_node core_fields self0) as [self1 exc] eqn:Hcore.
  apply read_core_spec in Hcore as (Hout & _ & Hmiss & _ & Hexc).
  specialize (Hmiss Hmissing).
  set (seed := py_float parse_float (data_node !! "randseed"%string) ≫= trunc).
  destruct exc as [e|]; [|done].
  destruct Hexc as [Hexc|[Hexc|Hexc]]; [done| |]; injection Hexc as ->; [|done].
  unfold py_int. rewrite Hrow, Hparse. cbn [read_optional].
  destruct (read_optional "svg_rand_seed_old" seed
              (<["svg_row_old"%string := VInt row]> self1)) as [self3 exc3] eqn:Hseed.
  apply read_optional_spec in Hseed as [Hseed _].
  simpl. intros ->. split_and!; [done|..].
  - rewrite Hseed by done. rewrite lookup_insert_ne by done.
    rewrite Hout by compute_done. unfold self0. by rewrite lookup_insert_eq.
  - rewrite Hseed by done. by rewrite lookup_insert_eq.
Qed.

End CheckpointEdges.

Section CheckpointEdgesExamples.

Import Checkpoint Persist.

Lemma malformed_number_escapes_witness :
  let out := read_plotdata decimal decimal_float trunc_float defaults [garbled] in
  escaped out = Some ValueError /\ doc_after out = [garbled] /\
  self_after out !! "svg_data_read"%string = Some (VBool false).
Proof.
  destruct (malformed_number_escapes decimal decimal_float trunc_float
              defaults garbled []) as (H1 & H2 & H3 & _).
  - repeat constructor; vm_compute; discriminate.
  - apply Exists_cons_hd. vm_compute. reflexivity.
  - by split_and!.
Defined.

Lemma discarded_record_sets_row_witness :
  let out := read_plotdata decimal decimal_float trunc_float defaults [unfinished] in
  doc_after out = [] /\
  self_after out !! "svg_row_old"%string = Some (VInt 4).
Proof.
  destruct (discarded_record_sets_row decimal decimal_float trunc_float
              defaults unfinished [] "4" 4) as (H1 & _ & H3).
  - apply Exists_cons_hd. vm_compute. reflexivity.
  - vm_compute. reflexivity.
  - vm_compute. reflexivity.
  - vm_compute. reflexivity.
  - by split.
Defined.

End CheckpointEdgesExamples.

(** * Writing the checkpoint and reading it back *)

Section CheckpointRoundTrip.

Import Checkpoint Persist.

Context {F : Type}.
Variables (parse_int : string -> option Z) (parse_float : string -> option F).
Variable trunc : F -> result Z.
Variables (str_int : Z -> string) (str_float : F -> string).
Variable float_true : F -> bool.

Local Abbreviation read_plotdata := (read_plotdata parse_int parse_float trunc).
Local Abbreviation update_plotdata := (update_plotdata str_int str_float float_true).
Local Abbreviation plotdata_node := (plotdata_node str_int str_float float_true).

(** [int(str(z))] is [z] and [float(str(f))] is [f]. *)
Hypothesis int_of_str : forall z, parse_int (str_int z) = Some z.
Hypothesis float_of_str : forall f, parse_float (str_float f) = Some f.

Ltac lookup_written :=
  unfold Persist.plotdata_node;
  rewrite ?lookup_insert_ne by compute_done; by rewrite lookup_insert_eq.

Lemma plotdata_node_lookup model digest PLOB now (pr : Progress F) :
  let node := plotdata_node model digest PLOB now pr in
  node !! "layer"%string = Some (py_str str_int str_float (svg_layer pr)) /\
  node !! "node"%string = Some (py_str str_int str_float (svg_node_count pr)) /\
  node !! "last_path"%string = Some (py_str str_int str_float (svg_last_path pr)) /\
  node !! "node_after_path"%string
    = Some (py_str str_int str_float (svg_last_path_nc pr)) /\
  node !! "last_known_x"%string
    = Some (py_str str_int str_float (svg_last_known_pos_x pr)) /\
  node !! "last_known_y"%string
    = Some (py_str str_int str_float (svg_last_known_pos_y pr)) /\
  node !! "paused_x"%string = Some (py_str str_int str_float (svg_paused_x pr)) /\
  node !! "paused_y"%string = Some (py_str str_int str_float (svg_paused_y pr)) /\
  node !! "randseed"%string = Some (py_str str_int str_float (svg_rand_seed pr)) /\
  node !! "row"%string = Some (py_str str_int str_float (svg_row_old pr)) /\
  node !! "application"%string = Some "axidraw"%string.
Proof.
  cbv zeta. split_and!; try lookup_written.
  unfold Persist.plotdata_node. rewrite !lookup_insert_ne by compute_done.
  destruct (negb (digest =? 0)%Z); [|destruct (truthy float_true (svg_plob_version pr))];
    rewrite ?lookup_insert_ne by compute_done; by rewrite lookup_insert_eq.
Qed.

(** X17: what the first [update_plotdata] of a run writes, [read_plotdata]
    reads back: the record is accepted and kept, and every stored
    quantity comes back as it was written, the random seed provided it
    survives the detour through [float]. *)
Theorem plotdata_round_trip (model digest now : Z) (PLOB_VERSION : string)
    (pr : Progress F) (doc : list (gmap string string))
    (self : gmap string (Value F))
    (layer node last_path last_path_nc seed row : Z) (x y px py fs : F) :
  svg_data_written pr = false ->
  svg_layer pr = VInt layer -> svg_node_count pr = VInt node ->
  svg_last_path pr = VInt last_path -> svg_last_path_nc pr = VInt last_path_nc ->
  svg_last_known_pos_x pr = VFloat x -> svg_last_known_pos_y pr = VFloat y ->
  svg_paused_x pr = VFloat px -> svg_paused_y pr = VFloat py ->
  svg_rand_seed pr = VInt seed -> svg_row_old pr = VInt row ->
  parse_float (str_int seed) = Some fs -> trunc fs = Ok seed ->
  let written := (update_plotdata model digest PLOB_VERSION now pr doc).2 in
  let out := read_plotdata self written in
  length written = 1%nat /\
  escaped out = None /\ doc_after out = written /\
  self_after out !! "svg_data_read"%string = Some (VBool true) /\
  self_after out !! "svg_application_old"%string = Some (VStr "axidraw") /\
  self_after out !! "svg_layer_old"%string = Some (VInt layer) /\
  self_after out !! "svg_node_count_old"%string = Some (VInt node) /\
  self_after out !! "svg_last_path_old"%string = Some (VInt last_path) /\
  self_after out !! "svg_last_path_nc_old"%string = Some (VInt last_path_nc) /\
  self_after out !! "svg_last_known_x_old"%string = Some (VFloat x) /\
  self_after out !! "svg_last_known_y_old"%string = Some (VFloat y) /\
  self_after out !! "svg_paused_x_old"%string = Some (VFloat px) /\
  self_after out !! "svg_paused_y_old"%string = Some (VFloat py) /\
  self_after out !! "svg_row_old"%string = Some (VInt row) /\
  self_after out !! "svg_rand_seed_old"%string = Some (VInt seed).
Proof.
  intros Hw Hl Hn Hlp Hnc Hx Hy Hpx Hpy Hsd Hrow Hfs Htr.
  unfold Persist.update_plotdata. rewrite Hw. cbn [snd]. cbv zeta.
  pose proof (plotdata_node_lookup model digest PLOB_VERSION now pr) as Hlook.
  cbv zeta in Hlook.
  set (data := plotdata_node model digest PLOB_VERSION now pr) in *.
  destruct Hlook as (Ll & Ln & Llp & Lnc & Lx & Ly & Lpx & Lpy & Lsd & Lrow & Lapp).
  rewrite Hl in Ll. rewrite Hn in Ln. rewrite Hlp in Llp. rewrite Hnc in Lnc.
  rewrite Hx in Lx. rewrite Hy in Ly. rewrite Hpx in Lpx. rewrite Hpy in Lpy.
  rewrite Hsd in Lsd. rewrite Hrow in Lrow. simpl in *.
  unfold Checkpoint.read_plotdata, core_fields. cbn [read_core].
  unfold convert, py_int, py_float.
  rewrite Ll, Ln, Llp, Lnc, Lx, Ly, Lpx, Lpy, Lrow, Lsd, Lapp.
  rewrite !int_of_str, !float_of_str, Hfs. simpl. rewrite Htr. simpl.
  split_and!; try done;
    rewrite ?lookup_insert_ne by compute_done; by rewrite lookup_insert_eq.
Qed.

End CheckpointRoundTrip.

Section CheckpointRoundTripExample.

Import Checkpoint Persist.

Lemma decimal_int_str (z : Z) : decimal_int (decimal_str z) = Some z.
Proof.
  unfold decimal_int, decimal_str.
  rewrite NilZero.isi.
  - simpl. by rewrite DecimalZ.of_to.
  - destruct z; simpl; try discriminate.
    intros H. injection H as H. by apply DecimalPos.Unsigned.to_uint_nonnil in H.
  - destruct z; simpl; try discriminate.
    intros H. injection H as H. by apply DecimalPos.Unsigned.to_uint_nonnil in H.
Qed.

Lemma plotdata_round_trip_witness :
  let written :=
    (update_plotdata decimal_str decimal_str (fun f : Z => negb (f =? 0)%Z)
       1%Z 0%Z "1" 1700000000%Z paused_progress []).2 in
  let out := read_plotdata decimal_int decimal_int Ok ∅ written in
  escaped out = None /\
  self_after out !! "svg_node_count_old"%string = Some (VInt 120) /\
  self_after out !! "svg_rand_seed_old"%string = Some (VInt 42).
Proof.
  pose proof (plotdata_round_trip decimal_int decimal_int Ok decimal_str decimal_str
    (fun f : Z => negb (f =? 0)%Z) decimal_int_str decimal_int_str
    1%Z 0%Z 1700000000%Z "1"%string paused_progress [] ∅
    3%Z 120%Z 7%Z 110%Z 42%Z 0%Z 2%Z 1%Z 3%Z 1%Z 42%Z
    eq_refl eq_refl eq_refl eq_refl eq_refl eq_refl eq_refl eq_refl eq_refl
    eq_refl eq_refl (decimal_int_str 42) eq_refl) as H.
  cbv zeta in H. cbv zeta. tauto.
Defined.

End CheckpointRoundTripExample.
